(** * FraudOps control tower: the decisioning pipeline, embedded and verified

    A shallow embedding of the correctness-critical parts of the Python
    services (audit-svc, decision-svc, feature-svc, score-svc and
    model-monitor-svc) together with the properties the specification
    states about them.

    Conventions of the embedding.
    - Python [float] values on the score path are modelled by exact
      rationals ([Q]); a decimal literal of the source denotes the rational
      it spells and arithmetic is exact.  The two transcendental functions
      of the source ([exp], [log]) live in [R].  Where a property depends
      on the rounding of binary floating point, the operations of [F64]
      are used instead: they round every result to the nearest double.
    - Python [int] is [Z]; [str] is [string]; [dict] used as a map is a
      [gmap]; a [dict] whose key order is observable (JSON documents) is
      an association list in insertion order.
    - Redis, the object store and the audit index are explicit stores that
      are threaded through the functions touching them.  Key expiry (TTL)
      is a matter of wall-clock time and is not part of the stores.
    - A Python exception is [None] in an [option] result; a [try/except]
      of the source is the match on that option. *)

From Stdlib Require Import ZArith QArith Qround Qabs Qpower Reals Qreals Lra Lqa Lia List.
From Stdlib Require Import Ascii String DecimalString DecimalZ DecimalPos.
From stdpp Require Import gmap strings list.

Local Open Scope string_scope.
Local Open Scope Z_scope.

#[local] Set Warnings "-register-all".

(** ** Python strings *)

Module PyStr.

(** Characters are compared and hashed by code point. *)
Definition code (c : ascii) : Z := Z.of_N (N_of_ascii c).

Definition chr (z : Z) : ascii := ascii_of_N (Z.to_N z).

Fixpoint codes (s : string) : list Z :=
  match s with
  | EmptyString => []
  | String c r => code c :: codes r
  end.

(** [s1 < s2] on [str]: lexicographic on code points. *)
Fixpoint ltb (s1 s2 : string) : bool :=
  match s1, s2 with
  | EmptyString, EmptyString => false
  | EmptyString, String _ _ => true
  | String _ _, EmptyString => false
  | String c1 r1, String c2 r2 =>
      if code c1 <? code c2 then true
      else if code c2 <? code c1 then false
      else ltb r1 r2
  end.

(** [sep.join(parts)] *)
Fixpoint join (sep : string) (parts : list string) : string :=
  match parts with
  | [] => ""
  | [p] => p
  | p :: rest => p ++ sep ++ join sep rest
  end.

(** [s * n] for a string [s] *)
Fixpoint repeat_str (s : string) (n : nat) : string :=
  match n with
  | O => ""
  | S k => s ++ repeat_str s k
  end.

(** [str(n)] for an [int] *)
Definition of_Z (n : Z) : string := NilZero.string_of_int (Z.to_int n).

Definition hex_digit (d : Z) : ascii :=
  if d <? 10 then chr (48 + d) else chr (87 + d).

(** [format(n, '0<k>x')] for [0 <= n < 16^k]: [k] lowercase hex digits,
    most significant first. *)
Fixpoint hex_fixed (k : nat) (n : Z) : string :=
  match k with
  | O => ""
  | S k' => String (hex_digit ((n / 16 ^ Z.of_nat k') mod 16)) (hex_fixed k' n)
  end.

Definition upper_char (c : ascii) : ascii :=
  let z := code c in
  if (97 <=? z) && (z <=? 122) then chr (z - 32) else c.

(** [s.upper()] on ASCII text *)
Fixpoint upper (s : string) : string :=
  match s with
  | EmptyString => EmptyString
  | String c r => String (upper_char c) (upper r)
  end.

(** [s[:n]] *)
Fixpoint take (n : nat) (s : string) : string :=
  match n, s with
  | O, _ => ""
  | S _, EmptyString => ""
  | S k, String c r => String c (take k r)
  end.

(** [s[n:]] *)
Fixpoint drop (n : nat) (s : string) : string :=
  match n, s with
  | O, _ => s
  | S _, EmptyString => ""
  | S k, String _ r => drop k r
  end.

(** [s.encode('utf-8')] for code points below 256. *)
Fixpoint encode_utf8 (s : string) : list Z :=
  match s with
  | EmptyString => []
  | String c r =>
      let z := code c in
      if z <? 128 then z :: encode_utf8 r
      else Z.lor 192 (Z.shiftr z 6) :: Z.lor 128 (Z.land z 63) :: encode_utf8 r
  end.

End PyStr.

(** ** SHA-256 (hashlib.sha256), FIPS 180-4 *)

Module SHA256.

Definition mask32 (x : Z) : Z := Z.land x 0xffffffff.
Definition add32 (a b : Z) : Z := mask32 (a + b).
Definition rotr (n x : Z) : Z :=
  mask32 (Z.lor (Z.shiftr x n) (Z.shiftl x (32 - n))).
Definition shr (n x : Z) : Z := Z.shiftr x n.
Definition not32 (x : Z) : Z := Z.lxor x 0xffffffff.

Definition Ch (x y z : Z) : Z := Z.lxor (Z.land x y) (Z.land (not32 x) z).
Definition Maj (x y z : Z) : Z :=
  Z.lxor (Z.lxor (Z.land x y) (Z.land x z)) (Z.land y z).
Definition bsig0 (x : Z) : Z := Z.lxor (Z.lxor (rotr 2 x) (rotr 13 x)) (rotr 22 x).
Definition bsig1 (x : Z) : Z := Z.lxor (Z.lxor (rotr 6 x) (rotr 11 x)) (rotr 25 x).
Definition ssig0 (x : Z) : Z := Z.lxor (Z.lxor (rotr 7 x) (rotr 18 x)) (shr 3 x).
Definition ssig1 (x : Z) : Z := Z.lxor (Z.lxor (rotr 17 x) (rotr 19 x)) (shr 10 x).

(** The round constants are the first 32 bits of the fractional parts of
    the cube roots of the first 64 primes, the initial hash value those of
    the square roots of the first 8 primes. *)
Definition is_prime (n : Z) : bool :=
  forallb (fun d => negb (n mod Z.of_nat d =? 0)) (seq 2 (Z.to_nat n - 2)).

Definition primes : list Z :=
  filter is_prime (map Z.of_nat (seq 2 310)).

Definition cube_root (n : Z) : Z :=
  fold_left (fun r b => let c := r + 2 ^ Z.of_nat b in
                        if c * c * c <=? n then c else r)
            (rev (seq 0 44)) 0.

Definition K : list Z :=
  Eval vm_compute in
    map (fun p => cube_root (p * 2 ^ 96) mod 2 ^ 32) primes.

Definition H0 : list Z :=
  Eval vm_compute in
    map (fun p => Z.sqrt (p * 2 ^ 64) mod 2 ^ 32) (firstn 8 primes).

(** Padding: a 1 bit, zeros up to 56 mod 64 bytes, the bit length on 64 bits. *)
Definition be_bytes (k : nat) (n : Z) : list Z :=
  map (fun i => Z.land (Z.shiftr n (8 * Z.of_nat i)) 255) (rev (seq 0 k)).

Definition pad (msg : list Z) : list Z :=
  let len := Z.of_nat (length msg) in
  let zeros := Z.to_nat ((55 - len) mod 64) in
  msg ++ [128] ++ repeat 0 zeros ++ be_bytes 8 (8 * len).

Fixpoint be_words (fuel : nat) (bs : list Z) : list Z :=
  match fuel, bs with
  | S f, b0 :: b1 :: b2 :: b3 :: r =>
      (Z.shiftl b0 24 + Z.shiftl b1 16 + Z.shiftl b2 8 + b3) :: be_words f r
  | _, _ => []
  end.

Fixpoint chunks16 (fuel : nat) (ws : list Z) : list (list Z) :=
  match fuel with
  | O => []
  | S f => match ws with
           | [] => []
           | _ => firstn 16 ws :: chunks16 f (skipn 16 ws)
           end
  end.

(** The message schedule, kept newest-first while it is extended. *)
Fixpoint schedule (n : nat) (rw : list Z) : list Z :=
  match n with
  | O => rw
  | S k =>
      let w := add32 (add32 (ssig1 (nth 1 rw 0)) (nth 6 rw 0))
                     (add32 (ssig0 (nth 14 rw 0)) (nth 15 rw 0)) in
      schedule k (w :: rw)
  end.

Record regs := Regs { ra : Z; rb : Z; rc : Z; rd : Z; re : Z; rf : Z; rg : Z; rh : Z }.

Definition round (s : regs) (kw : Z * Z) : regs :=
  let '(k, w) := kw in
  let t1 := add32 (add32 (add32 (rh s) (bsig1 (re s))) (Ch (re s) (rf s) (rg s)))
                  (add32 k w) in
  let t2 := add32 (bsig0 (ra s)) (Maj (ra s) (rb s) (rc s)) in
  Regs (add32 t1 t2) (ra s) (rb s) (rc s) (add32 (rd s) t1) (re s) (rf s) (rg s).

Definition regs_of (h : list Z) : regs :=
  Regs (nth 0 h 0) (nth 1 h 0) (nth 2 h 0) (nth 3 h 0)
       (nth 4 h 0) (nth 5 h 0) (nth 6 h 0) (nth 7 h 0).

Definition list_of (s : regs) : list Z :=
  [ra s; rb s; rc s; rd s; re s; rf s; rg s; rh s].

Definition compress (h : list Z) (block : list Z) : list Z :=
  let w := rev (schedule 48 (rev block)) in
  let s := fold_left round (combine K w) (regs_of h) in
  map (fun p => add32 (fst p) (snd p)) (combine h (list_of s)).

Definition digest (msg : list Z) : list Z :=
  let bs := pad msg in
  let ws := be_words (length bs) bs in
  fold_left compress (chunks16 (length ws) ws) H0.

(** [hashlib.sha256(b).hexdigest()] *)
Definition hexdigest (msg : list Z) : string :=
  PyStr.join "" (map (PyStr.hex_fixed 8) (digest msg)).

End SHA256.

(** ** JSON documents and [json.dumps] *)

Module Json.

(** A document as [json.loads] builds it: a [dict] keeps its keys in
    insertion order and has no duplicate key.  A [float] is carried by its
    [repr], which is what [json.dumps] writes for it. *)
Inductive value : Type :=
| Null
| Bool (b : bool)
| Int (n : Z)
| Float (repr : string)
| Str (s : string)
| Arr (items : list value)
| Obj (fields : list (string * value)).

(** [d.get(k)] on a document that is a [dict]. *)
Fixpoint assoc (k : string) (fields : list (string * value)) : option value :=
  match fields with
  | [] => None
  | (k', v) :: rest => if String.eqb k k' then Some v else assoc k rest
  end.

Definition dquote : string := String (ascii_of_nat 34) "".
Definition backslash : string := String (ascii_of_nat 92) "".
Definition newline : string := String (ascii_of_nat 10) "".

(** [json.encoder.py_encode_basestring_ascii]: the short escapes of
    [ESCAPE_DCT], printable ASCII as it is, everything else as a [u] escape
    with four lowercase hex digits. *)
Definition escape_char (c : ascii) : string :=
  let z := PyStr.code c in
  if z =? 34 then backslash ++ dquote
  else if z =? 92 then backslash ++ backslash
  else if z =? 10 then backslash ++ "n"
  else if z =? 13 then backslash ++ "r"
  else if z =? 9 then backslash ++ "t"
  else if z =? 8 then backslash ++ "b"
  else if z =? 12 then backslash ++ "f"
  else if (32 <=? z) && (z <=? 126) then String c ""
  else backslash ++ "u" ++ PyStr.hex_fixed 4 z.

Fixpoint escape (s : string) : string :=
  match s with
  | EmptyString => ""
  | String c r => escape_char c ++ escape r
  end.

Definition encode_str (s : string) : string := dquote ++ escape s ++ dquote.

(** [sorted(dct.items())]: a stable insertion sort on the keys (keys of a
    [dict] are distinct, so the values are never compared). *)
Fixpoint insert_item {A} (kv : string * A) (l : list (string * A)) : list (string * A) :=
  match l with
  | [] => [kv]
  | h :: t => if PyStr.ltb (fst h) (fst kv) then h :: insert_item kv t
              else kv :: h :: t
  end.

Definition sort_items {A} (l : list (string * A)) : list (string * A) :=
  fold_right insert_item [] l.

(** [json.dumps(v, sort_keys=sk, indent=ind)], following
    [_make_iterencode].  With an indent the item separator is a comma and
    every item starts on a fresh line; without one the separator is a comma
    and a space and nothing is broken.  The key separator is a colon and a
    space in both cases.  The items of a [dict] are encoded first and then
    put in key order, which yields the text of encoding the sorted items. *)
Fixpoint encode (sk : bool) (ind : option nat) (lvl : nat) (v : value)
    {struct v} : string :=
  let pad n := PyStr.repeat_str " " n in
  let nl := match ind with
            | Some w => newline ++ pad (w * S lvl)%nat
            | None => ""
            end in
  let sep := match ind with Some _ => "," ++ nl | None => ", " end in
  let close := match ind with
               | Some w => newline ++ pad (w * lvl)%nat
               | None => ""
               end in
  match v with
  | Null => "null"
  | Bool true => "true"
  | Bool false => "false"
  | Int n => PyStr.of_Z n
  | Float r => r
  | Str s => encode_str s
  | Arr [] => "[]"
  | Arr items =>
      "[" ++ nl ++ PyStr.join sep (List.map (encode sk ind (S lvl)) items)
          ++ close ++ "]"
  | Obj [] => "{}"
  | Obj fields =>
      let enc := List.map (fun kv => (fst kv, encode sk ind (S lvl) (snd kv))) fields in
      let ordered := if sk then sort_items enc else enc in
      "{" ++ nl
          ++ PyStr.join sep
               (List.map (fun kt => encode_str (fst kt) ++ ": " ++ snd kt) ordered)
          ++ close ++ "}"
  end%string.

Definition dumps (sk : bool) (ind : option nat) (v : value) : string :=
  encode sk ind 0 v.

(** Truthiness of a document ([if not evidence_data]). *)
Definition truthy (v : value) : bool :=
  match v with
  | Null => false
  | Bool b => b
  | Int n => negb (n =? 0)
  | Float r => negb (String.eqb r "0.0" || String.eqb r "-0.0")
  | Str s => negb (String.eqb s "")
  | Arr l => match l with [] => false | _ => true end
  | Obj l => match l with [] => false | _ => true end
  end.

End Json.

(** ** pydantic field validation

    The [shared.schemas] models use the version 1 interface of pydantic
    ([regex=], [@validator], [.dict()]); its coercions are the ones below.
    [None] is a [ValidationError]. *)

Module Pydantic.

(** A [str] field: a [str] is kept, a number is converted with [str],
    anything else is rejected. *)
Definition str_field (v : Json.value) : option string :=
  match v with
  | Json.Str s => Some s
  | Json.Int n => Some (PyStr.of_Z n)
  | Json.Float r => Some r
  | Json.Bool true => Some "True"
  | Json.Bool false => Some "False"
  | _ => None
  end.

(** [Field(..., ge=lo)] and [Field(..., ge=lo, le=hi)] on numbers. *)
Definition ge_Z (lo n : Z) : option Z := if lo <=? n then Some n else None.

Definition ge_Q (lo x : Q) : option Q := if Qle_bool lo x then Some x else None.

Definition between_Q (lo hi x : Q) : option Q :=
  if Qle_bool lo x && Qle_bool x hi then Some x else None.

End Pydantic.

(** ** audit-svc: evidence bundles and their verification *)

Module Audit.

(** [class AuditEvent(BaseModel)] *)
Record AuditEvent := {
  ae_event_id : string;
  ae_event_type : string;
  ae_entity_id : option string;
  ae_user_id : option string;
  ae_action : string;
  ae_details : list (string * Json.value)
}.

(** [class EvidenceBundle(BaseModel)] *)
Record EvidenceBundle := {
  bundle_id : string;
  eb_event_id : string;
  evidence_type : string;
  eb_data : Json.value;
  created_at : string;
  eb_hash : string;
  size_bytes : Z
}.

(** A row of the [audit_events] table. *)
Record AuditRow := {
  row_event_id : string;
  row_event_type : string;
  row_entity_id : option string;
  row_user_id : option string;
  row_action : string;
  row_details : list (string * Json.value);
  evidence_hash : option string;
  evidence_path : option string
}.

(** The two stores of the service.  [minio] is [None] when
    [get_minio_client] fails, [postgres] is [None] when
    [get_postgres_connection] fails.  An object is kept as the document
    that [json.loads] reads back from its body ([json.loads] inverts
    [json.dumps] on [Json.value]); the table is the list of its rows in
    insertion order. *)
Record world := {
  minio : option (gmap string Json.value);
  postgres : option (list AuditRow)
}.

(** What the clock and the random source give one request:
    [str(uuid.uuid4())], and the four readings of [datetime.utcnow()]: the
    [isoformat] written into the document, the [strftime("%Y/%m/%d")] of
    the object key, the [created_at] of the bundle, and the [strftime] that
    [log_audit_event] takes again for the path it writes to the index. *)
Record ambient := {
  fresh_uuid : string;
  now_iso : string;
  now_date_path : string;
  bundle_created_at : string;
  index_date_path : string
}.

(** The [data] argument of [Minio.put_object].  The client reads the body
    with [data.read]: a value without that method, such as a [str], makes
    the call raise before anything is sent. *)
Inductive put_data :=
| StrData (text : string)
| StreamData (doc : Json.value).

(** [Minio.put_object(bucket, object_key, data, length, content_type)];
    [None] is its exception.  A stream over the encoded text of a document
    leaves that document under the key. *)
Definition put_object (object_key : string) (data : put_data) (length : Z)
    (objects : gmap string Json.value) : option (gmap string Json.value) :=
  match data with
  | StrData _ => None
  | StreamData doc => Some (<[object_key := doc]> objects)
  end.

Definition opt_str (o : option string) : Json.value :=
  match o with Some s => Json.Str s | None => Json.Null end.

(** [audit_event.dict()] *)
Definition AuditEvent_dict (e : AuditEvent) : list (string * Json.value) :=
  [ ("event_id", Json.Str (ae_event_id e));
    ("event_type", Json.Str (ae_event_type e));
    ("entity_id", opt_str (ae_entity_id e));
    ("user_id", opt_str (ae_user_id e));
    ("action", Json.Str (ae_action e));
    ("details", Json.Obj (ae_details e)) ].

(** [calculate_hash] *)
Definition calculate_hash (data : string) : string :=
  SHA256.hexdigest (PyStr.encode_utf8 data).

(** The [evidence_data] dictionary literal of [store_evidence_bundle], its
    keys in the order the literal lists them. *)
Definition evidence_data (a : ambient) (event_id : Json.value)
    (etype : string) (data : list (string * Json.value)) : Json.value :=
  Json.Obj
    [ ("bundle_id", Json.Str (fresh_uuid a));
      ("event_id", event_id);
      ("evidence_type", Json.Str etype);
      ("data", Json.Obj data);
      ("created_at", Json.Str (now_iso a));
      ("metadata", Json.Obj [ ("service", Json.Str "audit-svc");
                              ("version", Json.Str "1.0.0") ]) ].

(** [store_evidence_bundle]: [None] is the re-raised exception.  The
    source hands [json_data], a [str], to [put_object]. *)
Definition store_evidence_bundle (a : ambient) (data : list (string * Json.value))
    (etype : string) (w : world) : world * option EvidenceBundle :=
  match minio w with
  | None => (w, None)
  | Some objects =>
      let event_id := default (Json.Str "unknown") (Json.assoc "event_id" data) in
      let doc := evidence_data a event_id etype data in
      let json_data := Json.dumps false (Some 2%nat) doc in
      let data_bytes := PyStr.encode_utf8 json_data in
      let data_hash := calculate_hash json_data in
      let object_key := (now_date_path a ++ "/" ++ fresh_uuid a ++ ".json")%string in
      match put_object object_key (StrData json_data)
              (Z.of_nat (length data_bytes)) objects with
      | None => (w, None)
      | Some objects' =>
          let w' := {| minio := Some objects'; postgres := postgres w |} in
          match Pydantic.str_field event_id with
          | None => (w', None)
          | Some eid =>
              (w', Some {| bundle_id := fresh_uuid a;
                           eb_event_id := eid;
                           evidence_type := etype;
                           eb_data := doc;
                           created_at := bundle_created_at a;
                           eb_hash := data_hash;
                           size_bytes := Z.of_nat (length data_bytes) |})
          end
      end
  end.

(** [log_audit_event]: without a connection the row is not written.  The
    path is built from the date at the time of the insert. *)
Definition log_audit_event (a : ambient) (e : AuditEvent)
    (b : option EvidenceBundle) (w : world) : world :=
  match postgres w with
  | None => w
  | Some rows =>
      let row :=
        {| row_event_id := ae_event_id e;
           row_event_type := ae_event_type e;
           row_entity_id := ae_entity_id e;
           row_user_id := ae_user_id e;
           row_action := ae_action e;
           row_details := ae_details e;
           evidence_hash := eb_hash <$> b;
           evidence_path :=
             (fun b => index_date_path a ++ "/" ++ bundle_id b ++ ".json")%string <$> b |} in
      {| minio := minio w; postgres := Some (rows ++ [row])%list |}
  end.

(** [POST /audit/event]: the bundle's hash is the one returned and the one
    written to the index.  [None] is the HTTP 500 answer. *)
Definition log_event (a : ambient) (e : AuditEvent) (w : world)
  : world * option EvidenceBundle :=
  match store_evidence_bundle a (AuditEvent_dict e) "audit_event" w with
  | (w', Some b) => (log_audit_event a e (Some b) w', Some b)
  | (w', None) => (w', None)
  end.

(** Answers of [GET /audit/verify/{event_id}]. *)
Inductive verify_answer :=
| HttpError (status : Z)
| Integrity (integrity_status : string)
            (calculated_hash stored_hash : option string).

(** [get_audit_bundle]: the first row of the event, and the document at its
    evidence path when the object can be read. *)
Definition get_audit_bundle (event_id : string) (w : world)
  : Z + (AuditRow * option Json.value) :=
  match postgres w with
  | None => inl 500
  | Some rows =>
      match List.find (fun r => String.eqb (row_event_id r) event_id) rows with
      | None => inl 404
      | Some r =>
          let doc :=
            match evidence_path r, minio w with
            | Some path, Some objects =>
                if String.eqb path "" then None else objects !! path
            | _, _ => None
            end in
          inr (r, doc)
      end
  end.

(** [verify_audit_integrity] *)
Definition verify_audit_integrity (event_id : string) (w : world) : verify_answer :=
  match get_audit_bundle event_id w with
  | inl code => HttpError code
  | inr (r, doc) =>
      match doc with
      | None => Integrity "no_evidence" None None
      | Some d =>
          if negb (Json.truthy d) then Integrity "no_evidence" None None
          else
            let evidence_json := Json.dumps true (Some 2%nat) d in
            let calculated := calculate_hash evidence_json in
            let stored := evidence_hash r in
            let integrity_ok :=
              match stored with
              | Some h => String.eqb calculated h
              | None => false
              end in
            Integrity (if integrity_ok then "verified" else "compromised")
                      (Some calculated) stored
      end
  end.

(** A request the service can receive: one audit event with an empty
    detail map, on an empty store. *)
Definition sample_event : AuditEvent :=
  {| ae_event_id := "E1"; ae_event_type := "login";
     ae_entity_id := None; ae_user_id := None;
     ae_action := "seen"; ae_details := [] |}.

Definition sample_ambient : ambient :=
  {| fresh_uuid := "3f2b8c1e-5d4a-4c6b-9e7f-0a1b2c3d4e5f";
     now_iso := "2025-10-21T21:10:11.000123";
     now_date_path := "2025/10/21";
     bundle_created_at := "2025-10-21T21:10:11.000187";
     index_date_path := "2025/10/21" |}.

Definition empty_world : world := {| minio := Some ∅; postgres := Some [] |}.

End Audit.

(** ** Redis, as the services use it *)

Module Redis.

(** A key holds a string or a set of strings. *)
Inductive rval : Type :=
| RString (s : string)
| RSet (members : gset string).

Abbreviation db := (gmap string rval).

(** Commands run against the store; [None] as a result is an exception
    raised by the client ([WRONGTYPE], not an integer).  What was written
    before an exception stays written. *)
Definition M (A : Type) : Type := db -> db * option A.

Definition ret {A} (x : A) : M A := fun s => (s, Some x).

Definition raise {A} : M A := fun s => (s, None).

Definition bind {A B} (c : M A) (k : A -> M B) : M B :=
  fun s => match c s with
           | (s', Some x) => k x s'
           | (s', None) => (s', None)
           end.

(** [try: c except Exception: h] *)
Definition try_except {A} (c : M A) (h : M A) : M A :=
  fun s => match c s with
           | (s', Some x) => (s', Some x)
           | (s', None) => h s'
           end.

Definition lift {A} (o : option A) : M A :=
  match o with Some x => ret x | None => raise end.

(** [GET] *)
Definition get (k : string) : M (option string) :=
  fun s => match s !! k with
           | None => (s, Some None)
           | Some (RString v) => (s, Some (Some v))
           | Some (RSet _) => (s, None)
           end.

(** [SETEX]: the value replaces whatever the key held. *)
Definition setex (k : string) (v : string) : M unit :=
  fun s => (<[k := RString v]> s, Some tt).

Definition int64_min : Z := - 2 ^ 63.
Definition int64_max : Z := 2 ^ 63 - 1.

(** The integer a string value stands for, as the server reads it
    ([string2ll]): the text must be the decimal numeral of a signed 64-bit
    integer exactly as it is printed, without sign [+], blanks or leading
    zeros. *)
Definition to_int64 (v : string) : option Z :=
  match option_map Z.of_int (NilZero.int_of_string v) with
  | Some n =>
      if String.eqb (PyStr.of_Z n) v && (int64_min <=? n) && (n <=? int64_max)
      then Some n else None
  | None => None
  end.

(** [INCR]: a missing key counts from zero; a value that is not a 64-bit
    integer is an error, and so is an increment beyond the largest one; an
    error leaves the value as it is. *)
Definition incr (k : string) : M Z :=
  fun s => match s !! k with
           | None => (<[k := RString "1"]> s, Some 1)
           | Some (RString v) =>
               match to_int64 v with
               | Some n =>
                   if n <? int64_max
                   then (<[k := RString (PyStr.of_Z (n + 1))]> s, Some (n + 1))
                   else (s, None)
               | None => (s, None)
               end
           | Some (RSet _) => (s, None)
           end.

(** [EXPIRE] only sets a time to live. *)
Definition expire (k : string) : M bool :=
  fun s => (s, Some (bool_decide (is_Some (s !! k)))).

(** [SCARD] *)
Definition scard (k : string) : M Z :=
  fun s => match s !! k with
           | None => (s, Some 0)
           | Some (RSet m) => (s, Some (Z.of_nat (size m)))
           | Some (RString _) => (s, None)
           end.

(** [SADD] *)
Definition sadd (k : string) (x : string) : M Z :=
  fun s => match s !! k with
           | None => (<[k := RSet {[x]}]> s, Some 1)
           | Some (RSet m) =>
               (<[k := RSet ({[x]} ∪ m)]> s,
                Some (if bool_decide (x ∈ m) then 0 else 1))
           | Some (RString _) => (s, None)
           end.

(** [SISMEMBER] *)
Definition sismember (k : string) (x : string) : M bool :=
  fun s => match s !! k with
           | None => (s, Some false)
           | Some (RSet m) => (s, Some (bool_decide (x ∈ m)))
           | Some (RString _) => (s, None)
           end.

(** [for x in xs: body(x)] *)
Fixpoint for_each {A} (xs : list A) (body : A -> M unit) : M unit :=
  match xs with
  | [] => ret tt
  | x :: rest => bind (body x) (fun _ => for_each rest body)
  end.

(** [[f(x) for x in xs]] with an effectful [f] *)
Fixpoint map_m {A B} (f : A -> M B) (xs : list A) : M (list B) :=
  match xs with
  | [] => ret []
  | x :: rest => bind (f x) (fun y => bind (map_m f rest) (fun ys => ret (y :: ys)))
  end.

End Redis.

Notation "x <~ c ;; k" := (Redis.bind c (fun x => k))
  (at level 90, c at level 80, right associativity).
Notation "c ;;; k" := (Redis.bind c (fun _ => k))
  (at level 90, right associativity).

(** ** feature-svc: per-entity features *)

Module Feature.

Import Redis.

(** [class TransactionEvent(BaseModel)].  In a message the identifier and
    the timestamp are the texts that were sent; in a validated event they
    are the [UUID] and the [datetime] these texts parse to, carried by the
    text [str] and [isoformat] print for them. *)
Record TransactionEvent := {
  te_event_id : string;
  te_entity_id : string;
  te_timestamp : string;
  te_amount : Q;
  te_currency : string;
  te_channel : string;
  te_merchant_id : option string;
  te_merchant_category : option string;
  te_ip_address : option string;
  te_device_fingerprint : option string;
  te_user_agent : option string;
  te_session_id : option string
}.

(** [class ClaimEvent(BaseModel)]; the optional fields that no feature
    reads are left out. *)
Record ClaimEvent := {
  ce_event_id : string;
  ce_entity_id : string;
  ce_timestamp : string;
  ce_claim_amount : Q;
  ce_claim_type : string
}.

(** A message of the event log, by the schema whose fields it carries. *)
Inductive event_data :=
| TxnData (e : TransactionEvent)
| ClaimData (c : ClaimEvent).

Definition is_upper (c : ascii) : bool :=
  (65 <=? PyStr.code c) && (PyStr.code c <=? 90).

(** [regex=r"^[A-Z]{3}$"], matched with [re.match]: three capitals, and
    the end of the text or a final newline. *)
Definition currency_ok (s : string) : bool :=
  match s with
  | String a (String b (String c rest)) =>
      is_upper a && is_upper b && is_upper c
      && (String.eqb rest "" || String.eqb rest Json.newline)
  | _ => false
  end.

Definition allowed_channels : list string :=
  ["web"; "mobile"; "atm"; "pos"; "phone"; "api"].

Definition allowed_types : list string :=
  ["auto"; "home"; "health"; "life"; "travel"; "other"].

Definition mem (s : string) (l : list string) : bool :=
  existsb (String.eqb s) l.

Section Schemas.

(** The two parsers behind the [UUID] and [datetime] fields: [UUID(s)] with
    the text [str] prints for it, and the datetime a text is read as, by
    its [isoformat].  [None] is the [ValidationError] of the field. *)
Variable py_uuid : string -> option string.
Variable py_datetime : string -> option string.

(** Validation of a [TransactionEvent] built from the message: the event
    holds the identifier and the timestamp as parsed. *)
Definition validate_txn (e : TransactionEvent) : option TransactionEvent :=
  match py_uuid (te_event_id e), py_datetime (te_timestamp e) with
  | Some u, Some t =>
      if Qle_bool 0 (te_amount e) && currency_ok (te_currency e)
         && mem (te_channel e) allowed_channels
      then Some {| te_event_id := u;
                   te_entity_id := te_entity_id e;
                   te_timestamp := t;
                   te_amount := te_amount e;
                   te_currency := te_currency e;
                   te_channel := te_channel e;
                   te_merchant_id := te_merchant_id e;
                   te_merchant_category := te_merchant_category e;
                   te_ip_address := te_ip_address e;
                   te_device_fingerprint := te_device_fingerprint e;
                   te_user_agent := te_user_agent e;
                   te_session_id := te_session_id e |}
      else None
  | _, _ => None
  end.

(** Validation of a [ClaimEvent] built from the message. *)
Definition validate_claim (c : ClaimEvent) : option ClaimEvent :=
  match py_uuid (ce_event_id c), py_datetime (ce_timestamp c) with
  | Some u, Some t =>
      if Qle_bool 0 (ce_claim_amount c) && mem (ce_claim_type c) allowed_types
      then Some {| ce_event_id := u;
                   ce_entity_id := ce_entity_id c;
                   ce_timestamp := t;
                   ce_claim_amount := ce_claim_amount c;
                   ce_claim_type := ce_claim_type c |}
      else None
  | _, _ => None
  end.

End Schemas.

(** [class Geolocation(BaseModel)] *)
Record Geolocation := {
  country : option string;
  region : option string;
  city : option string;
  latitude : option Q;
  longitude : option Q
}.

(** [class FeatureMetadata(BaseModel)] *)
Record FeatureMetadata := {
  computation_time_ms : option Q;
  cache_hit : option bool;
  data_freshness_minutes : option Q
}.

(** [class FeatureVector(BaseModel)]; [event_id] is a [UUID], carried by
    its text. *)
Record FeatureVector := {
  event_id : string;
  entity_id : string;
  timestamp : string;
  amount : option Q;
  currency : option string;
  channel : option string;
  velocity_1h : Z;
  velocity_24h : Z;
  velocity_7d : Z;
  ip_risk : Q;
  ip_geolocation : option Geolocation;
  geo_distance_km : Q;
  merchant_risk : Q;
  merchant_category : option string;
  age_days : Z;
  device_fingerprint : option string;
  session_id : option string;
  user_agent_hash : option string;
  features_version : string;
  feature_metadata : option FeatureMetadata
}.

(** Construction of a [FeatureVector] checks the bounds of its fields. *)
Definition validate_vector (fv : FeatureVector) : option FeatureVector :=
  if (0 <=? velocity_1h fv) && (0 <=? velocity_24h fv) && (0 <=? velocity_7d fv)
     && Qle_bool 0 (ip_risk fv) && Qle_bool (ip_risk fv) 1
     && Qle_bool 0 (geo_distance_km fv)
     && Qle_bool 0 (merchant_risk fv) && Qle_bool (merchant_risk fv) 1
     && (0 <=? age_days fv)
  then Some fv else None.

(** Truthiness of an optional [str]: [None] and the empty string are false. *)
Definition truthy (o : option string) : bool :=
  match o with
  | Some (String _ _) => true
  | _ => false
  end.

Definition text (o : option string) : string := default "" o.

Definition velocity_key (entity_id window : string) : string :=
  ("velocity:" ++ entity_id ++ ":" ++ window)%string.

Definition time_windows : list string := ["1h"; "24h"; "7d"].

(** A value inside the dictionary handed to the producer: one that
    [json.dumps] encodes, or a [UUID] object, for which it has no encoding. *)
Inductive pyvalue :=
| Plain (v : Json.value)
| UuidObj (text : string).

Fixpoint plain_items (d : list (string * pyvalue)) : option (list (string * Json.value)) :=
  match d with
  | [] => Some []
  | (k, Plain v) :: rest => option_map (cons (k, v)) (plain_items rest)
  | (_, UuidObj _) :: _ => None
  end.

(** The [value_serializer] of the producer, [json.dumps(v).encode('utf-8')];
    [None] is the [TypeError] of [json.dumps]. *)
Definition value_serializer (v : list (string * pyvalue)) : option (list Z) :=
  option_map (fun items => PyStr.encode_utf8 (Json.dumps false None (Json.Obj items)))
             (plain_items v).

(** The [key_serializer]: [k.encode('utf-8') if k else None] *)
Definition key_serializer (k : string) : option (list Z) :=
  match k with
  | EmptyString => None
  | _ => Some (PyStr.encode_utf8 k)
  end.

(** A record handed to the broker. *)
Record record := {
  rec_topic : string;
  rec_key : option (list Z);
  rec_value : list Z
}.

(** [producer.send(topic, key=key, value=value)]: both serializers run
    inside the call, and an exception of theirs leaves it. *)
Definition send (topic key : string) (value : list (string * pyvalue)) : option record :=
  match value_serializer value with
  | Some value_bytes =>
      Some {| rec_topic := topic; rec_key := key_serializer key;
              rec_value := value_bytes |}
  | None => None
  end.

(** What one call of [process_event] takes from the clock. *)
Record ambient := {
  utcnow : string;
  elapsed_ms : Q
}.

Section Runtime.

(** Library functions the service calls: [float(s)], [repr] of a [float],
    [json.loads], [geopy.distance.geodesic(p, q).kilometers], the built-in
    [hash] of a [str], [int(s)] and the parsers of the event schemas.
    [None] is their exception. *)
Variable py_float : string -> option Q.
Variable float_repr : Q -> string.
Variable json_loads : string -> option Json.value.
Variable geodesic_km : Q * Q -> Q * Q -> option Q.
Variable py_hash : string -> Z.
Variable py_int : string -> option Z.
Variable py_uuid : string -> option string.
Variable py_datetime : string -> option string.

(** [get_ip_risk_score] *)
Definition get_ip_risk_score (ip_address : option string) : M Q :=
  if negb (truthy ip_address) then ret 0%Q
  else
    let cache_key := ("ip_risk:" ++ text ip_address)%string in
    cached_score <~ get cache_key ;;
    if truthy cached_score then lift (py_float (text cached_score))
    else setex cache_key "0.1" ;;; ret 0.1%Q.

(** [get_merchant_risk_score] *)
Definition get_merchant_risk_score (merchant_id : option string) : M Q :=
  if negb (truthy merchant_id) then ret 0%Q
  else
    let cache_key := ("merchant_risk:" ++ text merchant_id)%string in
    cached_score <~ get cache_key ;;
    if truthy cached_score then lift (py_float (text cached_score))
    else setex cache_key "0.05" ;;; ret 0.05%Q.

(** [get_velocity_counts]: every counter is read, none is written. *)
Fixpoint get_velocity_counts_from (acc : gmap string Z) (entity_id : string)
    (windows : list string) : M (gmap string Z) :=
  match windows with
  | [] => ret acc
  | window :: rest =>
      count <~ get (velocity_key entity_id window) ;;
      n <~ lift (if truthy count then py_int (text count) else Some 0) ;;
      get_velocity_counts_from (<[("velocity_" ++ window)%string := n]> acc)
                               entity_id rest
  end.

Definition get_velocity_counts (entity_id : string) (windows : list string)
  : M (gmap string Z) :=
  get_velocity_counts_from ∅ entity_id windows.

(** [update_velocity_counts] *)
Definition update_velocity_counts (entity_id : string) (windows : list string)
  : M unit :=
  for_each windows (fun window =>
    let cache_key := velocity_key entity_id window in
    incr cache_key ;;;
    if String.eqb window "1h" then expire cache_key ;;; ret tt
    else if String.eqb window "24h" then expire cache_key ;;; ret tt
    else if String.eqb window "7d" then expire cache_key ;;; ret tt
    else ret tt).

(** Fields of a [Geolocation] built from a decoded document. *)
Definition opt_str_field (k : string) (fields : list (string * Json.value))
  : option (option string) :=
  match Json.assoc k fields with
  | None | Some Json.Null => Some None
  | Some v => option_map Some (Pydantic.str_field v)
  end.

Definition number (v : Json.value) : option Q :=
  match v with
  | Json.Int n => Some (inject_Z n)
  | Json.Float r => py_float r
  | _ => None
  end.

Definition float_field (v : Json.value) : option Q :=
  match v with
  | Json.Int n => Some (inject_Z n)
  | Json.Float r => py_float r
  | Json.Str s => py_float s
  | Json.Bool b => Some (if b then 1 else 0)%Q
  | _ => None
  end.

Definition opt_float_field (k : string) (fields : list (string * Json.value))
  : option (option Q) :=
  match Json.assoc k fields with
  | None | Some Json.Null => Some None
  | Some v => option_map Some (float_field v)
  end.

Definition Geolocation_of (v : Json.value) : option Geolocation :=
  match v with
  | Json.Obj fields =>
      co ← opt_str_field "country" fields;
      re ← opt_str_field "region" fields;
      ci ← opt_str_field "city" fields;
      la ← opt_float_field "latitude" fields;
      lo ← opt_float_field "longitude" fields;
      Some {| country := co; region := re; city := ci;
              latitude := la; longitude := lo |}
  | _ => None
  end.

Definition default_geo_data : Json.value :=
  Json.Obj [ ("country", Json.Str "US"); ("region", Json.Str "CA");
             ("city", Json.Str "San Francisco");
             ("latitude", Json.Float "37.7749");
             ("longitude", Json.Float "-122.4194") ].

Definition default_geolocation : Geolocation :=
  {| country := Some "US"; region := Some "CA"; city := Some "San Francisco";
     latitude := Some 37.7749%Q; longitude := Some (-122.4194)%Q |}.

(** [get_geolocation] *)
Definition get_geolocation (ip_address : option string) : M (option Geolocation) :=
  if negb (truthy ip_address) then ret None
  else
    let cache_key := ("geo:" ++ text ip_address)%string in
    cached_geo <~ get cache_key ;;
    if truthy cached_geo then
      geo_data <~ lift (json_loads (text cached_geo)) ;;
      g <~ lift (Geolocation_of geo_data) ;;
      ret (Some g)
    else
      setex cache_key (Json.dumps false None default_geo_data) ;;;
      ret (Some default_geolocation).

(** Truthiness of a [float]. *)
Definition nonzero (x : Q) : bool := negb (Qeq_bool x 0).

(** [calculate_geo_distance] *)
Definition calculate_geo_distance (entity_id : string) (current_lat current_lon : Q)
  : M Q :=
  if negb (nonzero current_lat) || negb (nonzero current_lon) then ret 0%Q
  else
    let cache_key := ("usual_location:" ++ entity_id)%string in
    usual_location <~ get cache_key ;;
    if negb (truthy usual_location) then
      let default_location :=
        Json.Obj [ ("lat", Json.Float (float_repr current_lat));
                   ("lon", Json.Float (float_repr current_lon)) ] in
      setex cache_key (Json.dumps false None default_location) ;;;
      ret 0%Q
    else
      usual_data <~ lift (json_loads (text usual_location)) ;;
      match usual_data with
      | Json.Obj fields =>
          usual_lat <~ lift (Json.assoc "lat" fields ≫= number) ;;
          usual_lon <~ lift (Json.assoc "lon" fields ≫= number) ;;
          lift (geodesic_km (usual_lat, usual_lon) (current_lat, current_lon))
      | _ => raise
      end.

(** [get_account_age] *)
Definition get_account_age (entity_id : string) : M Z :=
  let cache_key := ("account_age:" ++ entity_id)%string in
  cached_age <~ get cache_key ;;
  if truthy cached_age then lift (py_int (text cached_age))
  else setex cache_key "365" ;;; ret 365.

(** The event once parsed, with [getattr(event, name, None)] for the
    attributes a claim does not have. *)
Inductive event :=
| Txn (e : TransactionEvent)
| Claim (c : ClaimEvent).

Definition parse_event (data : event_data) (topic : string) : option event :=
  if String.eqb topic "events.txns.v1" then
    match data with
    | TxnData e => Txn <$> validate_txn py_uuid py_datetime e
    | ClaimData _ => None
    end
  else
    match data with
    | ClaimData c => Claim <$> validate_claim py_uuid py_datetime c
    | TxnData _ => None
    end.

Definition ev_event_id (ev : event) : string :=
  match ev with Txn e => te_event_id e | Claim c => ce_event_id c end.

Definition ev_entity_id (ev : event) : string :=
  match ev with Txn e => te_entity_id e | Claim c => ce_entity_id c end.

Definition ev_amount (ev : event) : Q :=
  match ev with Txn e => te_amount e | Claim c => ce_claim_amount c end.

Definition ev_currency (ev : event) : string :=
  match ev with Txn e => te_currency e | Claim _ => "USD" end.

Definition getattr {A} (f : TransactionEvent -> option A) (ev : event) : option A :=
  match ev with Txn e => f e | Claim _ => None end.

(** The [try] block of [process_event] up to the [FeatureVector] it
    builds. *)
Definition process_event_body (a : ambient) (data : event_data) (topic : string)
  : M FeatureVector :=
  ev <~ lift (parse_event data topic) ;;
  let entity_id := ev_entity_id ev in
  velocity_counts <~ get_velocity_counts entity_id time_windows ;;
  update_velocity_counts entity_id time_windows ;;;
  ip_risk <~ get_ip_risk_score (getattr te_ip_address ev) ;;
  merchant_risk <~ get_merchant_risk_score (getattr te_merchant_id ev) ;;
  ip_geolocation <~ get_geolocation (getattr te_ip_address ev) ;;
  geo_distance <~
    match ip_geolocation with
    | Some {| latitude := Some lat; longitude := Some lon |} =>
        if nonzero lat && nonzero lon
        then calculate_geo_distance entity_id lat lon
        else ret 0%Q
    | _ => ret 0%Q
    end ;;
  age_days <~ get_account_age entity_id ;;
  lift (validate_vector
    {| event_id := ev_event_id ev;
       entity_id := entity_id;
       timestamp := utcnow a;
       amount := Some (ev_amount ev);
       currency := Some (ev_currency ev);
       channel := getattr (fun e => Some (te_channel e)) ev;
       velocity_1h := default 0 (velocity_counts !! "velocity_1h");
       velocity_24h := default 0 (velocity_counts !! "velocity_24h");
       velocity_7d := default 0 (velocity_counts !! "velocity_7d");
       ip_risk := ip_risk;
       ip_geolocation := ip_geolocation;
       geo_distance_km := geo_distance;
       merchant_risk := merchant_risk;
       merchant_category := getattr te_merchant_category ev;
       age_days := age_days;
       device_fingerprint := getattr te_device_fingerprint ev;
       session_id := getattr te_session_id ev;
       user_agent_hash :=
         (if truthy (getattr te_user_agent ev)
          then Some (PyStr.of_Z (py_hash (text (getattr te_user_agent ev))))
          else None);
       features_version := "v1";
       feature_metadata :=
         Some {| computation_time_ms := Some (elapsed_ms a);
                 cache_hit := Some true;
                 data_freshness_minutes := Some 0%Q |} |}).

Definition opt_float (x : option Q) : Json.value :=
  match x with Some v => Json.Float (float_repr v) | None => Json.Null end.

Definition opt_text (x : option string) : Json.value :=
  match x with Some v => Json.Str v | None => Json.Null end.

Definition opt_bool (x : option bool) : Json.value :=
  match x with Some v => Json.Bool v | None => Json.Null end.

(** [feature_vector.dict()] with the timestamp replaced by its [isoformat]:
    the fields in the order of the class.  The nested models are
    dictionaries; the event identifier is still the [UUID]. *)
Definition feature_dict (fv : FeatureVector) : list (string * pyvalue) :=
  [ ("event_id", UuidObj (event_id fv));
    ("entity_id", Plain (Json.Str (entity_id fv)));
    ("timestamp", Plain (Json.Str (timestamp fv)));
    ("amount", Plain (opt_float (amount fv)));
    ("currency", Plain (opt_text (currency fv)));
    ("channel", Plain (opt_text (channel fv)));
    ("velocity_1h", Plain (Json.Int (velocity_1h fv)));
    ("velocity_24h", Plain (Json.Int (velocity_24h fv)));
    ("velocity_7d", Plain (Json.Int (velocity_7d fv)));
    ("ip_risk", Plain (Json.Float (float_repr (ip_risk fv))));
    ("ip_geolocation",
     Plain match ip_geolocation fv with
           | Some g => Json.Obj [ ("country", opt_text (country g));
                                  ("region", opt_text (region g));
                                  ("city", opt_text (city g));
                                  ("latitude", opt_float (latitude g));
                                  ("longitude", opt_float (longitude g)) ]
           | None => Json.Null
           end);
    ("geo_distance_km", Plain (Json.Float (float_repr (geo_distance_km fv))));
    ("merchant_risk", Plain (Json.Float (float_repr (merchant_risk fv))));
    ("merchant_category", Plain (opt_text (merchant_category fv)));
    ("age_days", Plain (Json.Int (age_days fv)));
    ("device_fingerprint", Plain (opt_text (device_fingerprint fv)));
    ("session_id", Plain (opt_text (session_id fv)));
    ("user_agent_hash", Plain (opt_text (user_agent_hash fv)));
    ("features_version", Plain (Json.Str (features_version fv)));
    ("feature_metadata",
     Plain match feature_metadata fv with
           | Some m => Json.Obj
                         [ ("computation_time_ms", opt_float (computation_time_ms m));
                           ("cache_hit", opt_bool (cache_hit m));
                           ("data_freshness_minutes",
                            opt_float (data_freshness_minutes m)) ]
           | None => Json.Null
           end) ].

(** [process_event]: the record sent to [features.online.v1], or nothing
    when the block raised; the [except] clause only logs. *)
Definition process_event (a : ambient) (data : event_data) (topic : string)
    (s : db) : db * option record :=
  match process_event_body a data topic s with
  | (s', Some feature_vector) =>
      (s', send "features.online.v1" (entity_id feature_vector)
             (feature_dict feature_vector))
  | (s', None) => (s', None)
  end.

End Runtime.

(** The value of a velocity counter as the server holds it: a missing key
    counts as zero. *)
Definition counter (s : db) (entity_id window : string) : Z :=
  match s !! velocity_key entity_id window with
  | Some (RString v) => default 0 (to_int64 v)
  | _ => 0
  end.

(** A counter key in a state [INCR] can leave it in and can increment:
    missing, or a 64-bit integer below the largest one, as it is printed. *)
Definition counter_ok (s : db) (entity_id window : string) : Prop :=
  s !! velocity_key entity_id window = None
  \/ exists n : Z,
       int64_min <= n < int64_max
       /\ s !! velocity_key entity_id window = Some (RString (PyStr.of_Z n)).

End Feature.

(** ** decision-svc, the baseline policy ([app/policy.py], [app/config.py]) *)

Module Policy.

(** [class Settings(BaseSettings)] *)
Record Settings := {
  BLOCK_THRESHOLD : Q;
  HOLD_THRESHOLD : Q;
  WATCHLIST_ENABLED : bool;
  TRUSTED_CHANNELS : list string
}.

Definition settings : Settings :=
  {| BLOCK_THRESHOLD := 0.90;
     HOLD_THRESHOLD := 0.70;
     WATCHLIST_ENABLED := true;
     TRUSTED_CHANNELS := ["mobile"] |}.

(** A value of the [features] dictionary ([float|int|str]). *)
Inductive fval :=
| FNum (x : Q)
| FStr (s : string).

(** The payload [decide] receives ([ScoreIn.model_dump()] or a plain
    dictionary with a "scores" entry). *)
Record payload := {
  scores : gmap string Q;
  features : option (gmap string fval);
  channel : option string
}.

Definition calibrated (p : payload) : Q := default 0%Q (scores p !! "calibrated").

Definition feature (p : payload) (k : string) : fval :=
  default (FNum 0) (default ∅ (features p) !! k).

Section Decide.

(** [float(s)] on a [str]; [None] is [ValueError]. *)
Variable py_float : string -> option Q.

(** [f.get("velocity_1h", 0) >= 8]: comparing a [str] with an [int] is a
    [TypeError]. *)
Definition velocity_1h (p : payload) : option Q :=
  match feature p "velocity_1h" with
  | FNum x => Some x
  | FStr _ => None
  end.

(** [float(f.get("ip_risk", 0))] *)
Definition ip_risk (p : payload) : option Q :=
  match feature p "ip_risk" with
  | FNum x => Some x
  | FStr s => py_float s
  end.

Definition untrusted (st : Settings) (p : payload) : bool :=
  match channel p with
  | Some c => negb (existsb (String.eqb c) (TRUSTED_CHANNELS st))
  | None => true
  end.

Definition has (r : string) (reasons : list string) : bool :=
  existsb (String.eqb r) reasons.

(** [decide]: the action and the reasons, or [None] when it raises. *)
Definition decide (st : Settings) (p : payload) : option (string * list string) :=
  let s := calibrated p in
  v ← velocity_1h p;
  let reasons := if Qle_bool 8 v then ["velocity_high"] else [] in
  r ← ip_risk p;
  let reasons := if Qle_bool 0.8 r then (reasons ++ ["ip_proxy_match"])%list
                 else reasons in
  let reasons := if untrusted st p then (reasons ++ ["untrusted_channel"])%list
                 else reasons in
  if Qle_bool (BLOCK_THRESHOLD st) s
     || (has "ip_proxy_match" reasons && Qle_bool 0.80 s)
  then Some ("block", reasons)
  else if Qle_bool (HOLD_THRESHOLD st) s || has "velocity_high" reasons
  then Some ("hold", reasons)
  else Some ("allow", reasons).

End Decide.

End Policy.

(** ** decision-svc, the policy engine ([main.py]) *)

Module Decision.

Import Redis.

(** [class ModelScores(BaseModel)]: every score was validated to lie in
    the unit interval when the [ScoreOutput] was built. *)
Record ModelScores := {
  xgb : Q;
  nn : Q;
  rules : Q;
  ensemble : Q;
  calibrated : Q
}.

(** [class ScoreOutput(BaseModel)], without the explanation. *)
Record ScoreOutput := {
  so_event_id : string;
  so_scores : ModelScores;
  model_version : string
}.

(** [class DecisionOutput(BaseModel)] *)
Record DecisionOutput := {
  event_id : string;
  risk : Q;
  action : string;
  policy : string;
  reasons : list string;
  case_id : option string;
  watchlist_hits : list string;
  velocity_anomaly : bool;
  graph_anomaly : bool;
  decision_time_ms : Q
}.

(** A condition of a policy rule.  The two bounds are the "gte" and "lt"
    entries of its "calibrated_score" entry; the three flags say whether
    the key is present in the condition. *)
Record condition := {
  calibrated_score : option (option Q * option Q);
  watchlist_hit : bool;
  conflicting_signals : bool;
  velocity_normal : bool
}.

Record rule := {
  conditions : list condition;
  rule_action : string;
  reason_codes : option (list string)
}.

(** [current_policy]: its version and the three entries of
    [config.rules] the engine looks up. *)
Record policy_t := {
  version : string;
  rule_block : option rule;
  rule_hold : option rule;
  rule_allow : option rule
}.

Definition score_only (gte lt : option Q) : condition :=
  {| calibrated_score := Some (gte, lt); watchlist_hit := false;
     conflicting_signals := false; velocity_normal := false |}.

Definition flag_only (w c v : bool) : condition :=
  {| calibrated_score := None; watchlist_hit := w;
     conflicting_signals := c; velocity_normal := v |}.

(** The policy used when the table has no active row. *)
Definition default_policy : policy_t :=
  {| version := "v1.0";
     rule_block := Some
       {| conditions :=
            [ score_only (Some 0.90%Q) None;
              {| calibrated_score := Some (Some 0.80%Q, None);
                 watchlist_hit := true; conflicting_signals := false;
                 velocity_normal := false |} ];
          rule_action := "block";
          reason_codes := Some ["high_risk_score"; "watchlist_match"] |};
     rule_hold := Some
       {| conditions :=
            [ score_only (Some 0.70%Q) (Some 0.90%Q);
              flag_only false true false ];
          rule_action := "hold";
          reason_codes := Some ["medium_risk"; "conflicting_signals"] |};
     rule_allow := Some
       {| conditions :=
            [ score_only None (Some 0.70%Q);
              flag_only false false true ];
          rule_action := "allow";
          reason_codes := Some ["low_risk"; "normal_velocity"] |} |}.

(** The policy used when loading raised. *)
Definition fallback_policy : policy_t :=
  {| version := "v1.0";
     rule_block := None;
     rule_hold := None;
     rule_allow := Some
       {| conditions := [ score_only None (Some 1.0%Q) ];
          rule_action := "allow";
          reason_codes := Some ["default_allow"] |} |}.

(** What [load_decision_policy] finds: no connection, a failing query, or
    the active row if there is one. *)
Inductive postgres :=
| PgDown
| PgError
| PgRow (active : option policy_t).

(** The mutable state of the service. *)
Record state := {
  current_policy : option policy_t;
  redis : db
}.

(** [load_decision_policy] *)
Definition load_decision_policy (pg : postgres) (cur : option policy_t)
  : option policy_t :=
  match pg with
  | PgDown => cur
  | PgError => Some fallback_policy
  | PgRow (Some p) => Some p
  | PgRow None => Some default_policy
  end.

Definition truthy (o : option string) : bool :=
  match o with
  | Some (String _ _) => true
  | _ => false
  end.

Definition text (o : option string) : string := default "" o.

(** [check_watchlist]: the hits found before a Redis error are kept. *)
Definition check_watchlist (entity_id : string) (ip_address device_fingerprint : option string)
    (s : db) : db * list string :=
  match sismember "watchlist:entities" entity_id s with
  | (s1, None) => (s1, [])
  | (s1, Some b1) =>
      let hits1 := if b1 then ["entity_watchlist"] else [] in
      let step2 :=
        if truthy ip_address
        then sismember "watchlist:ips" (text ip_address) s1
        else (s1, Some false) in
      match step2 with
      | (s2, None) => (s2, hits1)
      | (s2, Some b2) =>
          let hits2 := if b2 then (hits1 ++ ["ip_watchlist"])%list else hits1 in
          let step3 :=
            if truthy device_fingerprint
            then sismember "watchlist:devices" (text device_fingerprint) s2
            else (s2, Some false) in
          match step3 with
          | (s3, None) => (s3, hits2)
          | (s3, Some b3) =>
              (s3, if b3 then (hits2 ++ ["device_watchlist"])%list else hits2)
          end
      end
  end.

Definition device_accounts_key (device_fingerprint : string) : string :=
  ("device_accounts:" ++ device_fingerprint)%string.

(** [check_graph_anomaly]: the links are counted, then the account is
    added; a Redis error gives [False]. *)
Definition check_graph_anomaly (entity_id : string) (device_fingerprint : option string)
  : M bool :=
  try_except
    (if negb (truthy device_fingerprint) then ret false
     else
       let key := device_accounts_key (text device_fingerprint) in
       account_count <~ scard key ;;
       sadd key entity_id ;;;
       expire key ;;;
       if 5 <? account_count then ret true else ret false)
    (ret false).

(** [evaluate_conditions]: the first condition that is not skipped makes
    the rule match. *)
Definition skipped (c : condition) (sc : ModelScores) : bool :=
  let cal := calibrated sc in
  let by_score :=
    match calibrated_score c with
    | Some (gte, lt) =>
        match gte with Some g => negb (Qle_bool g cal) | None => false end
        || match lt with Some l => Qle_bool l cal | None => false end
    | None => false
    end in
  let by_variance :=
    if conflicting_signals c then
      let scores := [xgb sc; nn sc; rules sc] in
      let sum := fold_left Qplus in
      let mean := (sum scores 0 / 3)%Q in
      let score_variance :=
        (sum (List.map (fun s => (s - mean) ^ 2) scores) 0 / 3)%Q in
      negb (Qle_bool 0.1 score_variance)
    else false in
  by_score || watchlist_hit c || by_variance || velocity_normal c.

Definition evaluate_conditions (cs : list condition) (sc : ModelScores) : bool :=
  existsb (fun c => negb (skipped c sc)) cs.

(** The rule chosen by the loop over block, hold and allow. *)
Inductive slot := SBlock | SHold | SAllow.

Definition rule_at (p : policy_t) (k : slot) : option rule :=
  match k with
  | SBlock => rule_block p
  | SHold => rule_hold p
  | SAllow => rule_allow p
  end.

Definition first_match (p : policy_t) (sc : ModelScores) : option (slot * rule) :=
  List.find (fun kr => evaluate_conditions (conditions (snd kr)) sc)
    (omap (fun k => pair k <$> rule_at p k) [SBlock; SHold; SAllow]).

(** [str(u)] for a UUID of integer value [u]. *)
Definition uuid_str (u : Z) : string :=
  let h := PyStr.hex_fixed 32 (u mod 2 ^ 128) in
  (PyStr.take 8 h ++ "-" ++ PyStr.take 4 (PyStr.drop 8 h) ++ "-"
   ++ PyStr.take 4 (PyStr.drop 12 h) ++ "-" ++ PyStr.take 4 (PyStr.drop 16 h)
   ++ "-" ++ PyStr.drop 20 h)%string.

(** What one call of [make_decision] takes from outside: the integer of
    [uuid.uuid4()], the elapsed time, and the policy table. *)
Record ambient := {
  uuid4 : Z;
  elapsed_ms : Q;
  pg : postgres
}.

(** The matched rule's "reason_codes" list is the very list the decision
    extends, so the extension stays in the policy. *)
Definition remember_reasons (p : policy_t) (k : slot) (rs : list string) : policy_t :=
  let upd (r : option rule) :=
    (fun r => {| conditions := conditions r; rule_action := rule_action r;
                 reason_codes := Some rs |}) <$> r in
  match k with
  | SBlock => {| version := version p; rule_block := upd (rule_block p);
                 rule_hold := rule_hold p; rule_allow := rule_allow p |}
  | SHold => {| version := version p; rule_block := rule_block p;
                rule_hold := upd (rule_hold p); rule_allow := rule_allow p |}
  | SAllow => {| version := version p; rule_block := rule_block p;
                 rule_hold := rule_hold p; rule_allow := upd (rule_allow p) |}
  end.

(** [make_decision]; [None] is the exception it lets escape. *)
Definition make_decision (a : ambient) (so : ScoreOutput) (entity_id : string)
    (ip_address device_fingerprint : option string) (st : state)
  : state * option DecisionOutput :=
  let cur :=
    match current_policy st with
    | None => load_decision_policy (pg a) None
    | Some p => Some p
    end in
  let sc := so_scores so in
  let velocity_anomaly := false in
  let '(r1, ga) := check_graph_anomaly entity_id device_fingerprint (redis st) in
  let graph_anomaly := default false ga in
  let '(r2, watchlist_hits) := check_watchlist entity_id ip_address device_fingerprint r1 in
  match cur with
  | None => ({| current_policy := None; redis := r2 |}, None)
  | Some p =>
      let matched := first_match p sc in
      let decision_action := default "allow" (rule_action <$> (snd <$> matched)) in
      let reasons := default [] (matched ≫= fun kr => reason_codes (snd kr)) in
      let '(decision_action, reasons) :=
        match watchlist_hits with
        | [] => (decision_action, reasons)
        | _ =>
            if Qle_bool 0.8 (calibrated sc)
            then ("block", (reasons ++ watchlist_hits)%list)
            else ("hold", (reasons ++ watchlist_hits)%list)
        end in
      let '(decision_action, reasons) :=
        if velocity_anomaly
        then ((if String.eqb decision_action "allow" then "hold" else decision_action),
              (reasons ++ ["velocity_anomaly"])%list)
        else (decision_action, reasons) in
      let '(decision_action, reasons) :=
        if graph_anomaly
        then ((if String.eqb decision_action "allow" then "hold" else decision_action),
              (reasons ++ ["graph_anomaly"])%list)
        else (decision_action, reasons) in
      let case_id :=
        if existsb (String.eqb decision_action) ["hold"; "block"; "escalate"]
        then Some ("CASE-" ++ PyStr.upper (PyStr.take 8 (uuid_str (uuid4 a))))%string
        else None in
      let p' :=
        match matched with
        | Some (k, {| reason_codes := Some _ |}) => remember_reasons p k reasons
        | _ => p
        end in
      let st' := {| current_policy := Some p'; redis := r2 |} in
      match Pydantic.between_Q 0 1 (calibrated sc) with
      | None => (st', None)
      | Some risk =>
          (st', Some {| event_id := so_event_id so;
                        risk := risk;
                        action := decision_action;
                        policy := version p;
                        reasons := reasons;
                        case_id := case_id;
                        watchlist_hits := watchlist_hits;
                        velocity_anomaly := velocity_anomaly;
                        graph_anomaly := graph_anomaly;
                        decision_time_ms := elapsed_ms a |})
      end
  end.

End Decision.

(** ** Python numerics *)

Module PyNum.

(** [a < b] on numbers *)
Definition ltb (a b : Q) : bool := negb (Qle_bool b a).

(** [min(a, b)]: the first argument unless the second is smaller. *)
Definition min (a b : Q) : Q := if ltb b a then b else a.

(** [max(a, b)]: the first argument unless the second is larger. *)
Definition max (a b : Q) : Q := if ltb a b then b else a.

(** Rounding to the nearest integer, ties to the even one. *)
Definition round_half_even (x : Q) : Z :=
  let f := Qfloor x in
  let d := (x - inject_Z f)%Q in
  if ltb d 0.5 then f
  else if ltb 0.5 d then f + 1
  else if Z.even f then f else f + 1.

(** [round(x, ndigits)] *)
Definition round (x : Q) (ndigits : nat) : Q :=
  (inject_Z (round_half_even (x * inject_Z (10 ^ Z.of_nat ndigits)))
   / inject_Z (10 ^ Z.of_nat ndigits))%Q.

(** The same rounding on a real number. *)
Definition round_half_even_R (x : R) : Z :=
  let f := Int_part x in
  let d := (x - IZR f)%R in
  if Rlt_dec d (1 / 2) then f
  else if Rlt_dec (1 / 2) d then f + 1
  else if Z.even f then f else f + 1.

Definition round_R (x : R) (ndigits : nat) : R :=
  (IZR (round_half_even_R (x * IZR (10 ^ Z.of_nat ndigits)))
   / IZR (10 ^ Z.of_nat ndigits))%R.

(** [sum(xs)]: a left fold from zero. *)
Definition sum (xs : list Q) : Q := fold_left Qplus xs 0%Q.

End PyNum.

(** ** Binary floating point

    A finite Python [float] is a rational number, and an arithmetic
    operation on floats returns the exact result rounded to the nearest
    double (IEEE 754 binary64: 53 significant bits, spacing [2^-1074] below
    [2^-1022]), a tie going to the double with the even significand.
    Results beyond the largest double, infinities and NaN are outside the
    model. *)

Module F64.

(** The binade of a positive rational [x]: the [e] with
    [2^e <= x < 2^(e+1)]. *)
Definition binade (x : Q) : Z :=
  let e := Z.log2 (Qnum x) - Z.log2 (Zpos (Qden x)) in
  if Qle_bool (2 ^ e) x then e else e - 1.

(** The spacing of the doubles around [x]. *)
Definition ulp (x : Q) : Q := (2 ^ (Z.max (binade (Qabs x)) (-1022) - 52))%Q.

(** The double nearest to [x]. *)
Definition round (x : Q) : Q :=
  if Qeq_bool x 0 then 0%Q
  else Qred (inject_Z (PyNum.round_half_even (x / ulp x)) * ulp x).

Definition add (x y : Q) : Q := round (x + y).
Definition sub (x y : Q) : Q := round (x - y).
Definition mul (x y : Q) : Q := round (x * y).
Definition div (x y : Q) : Q := round (x / y).

(** [float(n)] for an [int] *)
Definition of_Z (n : Z) : Q := round (inject_Z n).

End F64.

(** ** score-svc, the service ([main.py]) *)

Module Score.

(** [compute_rule_score] on a [FeatureVector] of [shared.schemas]. *)
Definition compute_rule_score (fv : Feature.FeatureVector) : Q :=
  let score := 0%Q in
  let score :=
    match Feature.amount fv with
    | Some a => if Feature.nonzero a && PyNum.ltb 10000 a
                then (score + 0.3)%Q else score
    | None => score
    end in
  let score :=
    if 10 <? Feature.velocity_1h fv then (score + 0.4)%Q
    else if 5 <? Feature.velocity_1h fv then (score + 0.2)%Q
    else score in
  let score :=
    if PyNum.ltb 0.8 (Feature.ip_risk fv) then (score + 0.3)%Q
    else if PyNum.ltb 0.5 (Feature.ip_risk fv) then (score + 0.1)%Q
    else score in
  let score :=
    if PyNum.ltb 1000 (Feature.geo_distance_km fv) then (score + 0.2)%Q
    else if PyNum.ltb 500 (Feature.geo_distance_km fv) then (score + 0.1)%Q
    else score in
  let score :=
    if PyNum.ltb 0.7 (Feature.merchant_risk fv) then (score + 0.2)%Q
    else score in
  PyNum.min score 1.0.

(** The [weights] dictionary of [compute_ensemble_score]. *)
Definition weight_xgb : Q := 0.5.
Definition weight_nn : Q := 0.3.
Definition weight_rules : Q := 0.2.

(** [compute_ensemble_score] *)
Definition compute_ensemble_score (xgb_score nn_score rules_score : Q) : Q :=
  (weight_xgb * xgb_score + weight_nn * nn_score + weight_rules * rules_score)%Q.

(** [calibrate_score], on the real number the ensemble score denotes: the
    logistic function that the source evaluates. *)
Definition calibrate_score (ensemble_score : R) : R :=
  (1 / (1 + exp (-5 * (ensemble_score - 0.5))))%R.

(** [calibrate_score] as it is computed on doubles: each of the four
    arithmetic operations rounds its exact result, and [np_exp] is
    [numpy.exp] on a double. *)
Definition calibrate_score_f64 (np_exp : Q -> Q) (ensemble_score : Q) : Q :=
  F64.div 1 (F64.add 1 (np_exp (F64.mul (-5) (F64.sub ensemble_score 0.5)))).

End Score.

(** ** score-svc, the stub models ([app/models.py]) *)

Module Models.

(** The entries of [feats] the models read ([app/schemas.py]). *)
Record feats := {
  amount : Q;
  velocity_1h : Z;
  ip_risk : Q;
  geo_distance_km : Q;
  merchant_risk : Q
}.

(** [XGBModel.predict_proba] *)
Definition xgb_predict_proba (f : feats) : Q :=
  PyNum.min 1.0 (0.15 + 0.5 * ip_risk f + 0.01 * inject_Z (velocity_1h f))%Q.

(** [NNModel.predict_proba] *)
Definition nn_predict_proba (f : feats) : Q :=
  PyNum.min 1.0 (0.1 + 0.35 * merchant_risk f + 0.001 * geo_distance_km f)%Q.

(** [rules_score] *)
Definition rules_score (f : feats) : Q :=
  let s := 0.0%Q in
  let s := if 8 <=? velocity_1h f then (s + 0.35)%Q else s in
  let s := if Qle_bool 0.8 (ip_risk f) then (s + 0.35)%Q else s in
  let s := if Qle_bool 2000 (amount f) then (s + 0.2)%Q else s in
  PyNum.min 1.0 s.

(** [class Ensemble]: its weights. *)
Record Ensemble := {
  w_xgb : Q;
  w_nn : Q;
  w_rules : Q
}.

(** [Ensemble()] with the default arguments of [__init__], which are also
    the default of [ENSEMBLE_WEIGHTS] in [app/config.py]. *)
Definition default_ensemble : Ensemble :=
  {| w_xgb := 0.5; w_nn := 0.4; w_rules := 0.1 |}.

(** The weighted sum [raw] of [Ensemble.score]. *)
Definition raw (e : Ensemble) (f : feats) : Q :=
  (w_xgb e * xgb_predict_proba f + w_nn e * nn_predict_proba f
   + w_rules e * rules_score f)%Q.

(** The local [calibrated] of [Ensemble.score], before it is rounded. *)
Definition calibrated_exact (e : Ensemble) (f : feats) : R :=
  (1 / (1 + exp (-5 * (Q2R (raw e f) - 0.5))))%R.

(** The dictionary [Ensemble.score] returns, without the explanation. *)
Record scores := {
  xgb : Q;
  nn : Q;
  rules : Q;
  ensemble : Q;
  calibrated : R
}.

(** [Ensemble.score] *)
Definition score (e : Ensemble) (f : feats) : scores :=
  {| xgb := PyNum.round (xgb_predict_proba f) 4;
     nn := PyNum.round (nn_predict_proba f) 4;
     rules := PyNum.round (rules_score f) 4;
     ensemble := PyNum.round (raw e f) 4;
     calibrated := PyNum.round_R (calibrated_exact e f) 4 |}.

End Models.

(** ** model-monitor-svc *)

Module Monitor.

(** *** [app/metrics.py] *)

(** [brier_score] *)
Definition brier_score (y_true : list Z) (y_prob : list Q) : Q :=
  match y_true, y_prob with
  | [], _ | _, [] => (-1.0)%Q
  | _, _ =>
      if negb (length y_true =? length y_prob)%nat then (-1.0)%Q
      else
        (PyNum.sum (List.map (fun yp => (snd yp - inject_Z (fst yp)) ^ 2)
                             (combine y_true y_prob))
         / inject_Z (Z.of_nat (length y_true)))%Q
  end.

(** [min(xs)] and [max(xs)] of a non-empty list: the first smallest and the
    first largest element. *)
Definition list_min (xs : list Q) : Q :=
  match xs with
  | [] => 0%Q
  | x :: rest => fold_left (fun m y => if PyNum.ltb y m then y else m) rest x
  end.

Definition list_max (xs : list Q) : Q :=
  match xs with
  | [] => 0%Q
  | x :: rest => fold_left (fun m y => if PyNum.ltb m y then y else m) rest x
  end.

(** [sum(1 for v in xs if lo <= v < hi)] *)
Definition count_in (lo hi : Q) (xs : list Q) : Z :=
  Z.of_nat (length (filter (fun v => Qle_bool lo v && PyNum.ltb v hi) xs)).

(** The shares [rp] and [cp] of bin [i]. *)
Definition bin_shares (ref cur : list Q) (mn w : Q) (i : nat) : Q * Q :=
  let lo := (mn + inject_Z (Z.of_nat i) * w)%Q in
  let hi := (mn + inject_Z (Z.of_nat i + 1) * w)%Q in
  let rp := PyNum.max 1e-6 (inject_Z (count_in lo hi ref)
                            / inject_Z (Z.of_nat (length ref))) in
  let cp := PyNum.max 1e-6 (inject_Z (count_in lo hi cur)
                            / inject_Z (Z.of_nat (length cur))) in
  (rp, cp).

(** The summand [(rp - cp) * (0.0 if cp == 0 else log(rp / cp))]. *)
Definition psi_term (rc : Q * Q) : R :=
  let '(rp, cp) := rc in
  ((Q2R rp - Q2R cp)
   * (if Qeq_bool cp 0 then 0 else ln (Q2R rp / Q2R cp)))%R.

(** [psi] *)
Definition psi (ref cur : list Q) (bins : nat) : R :=
  if (length ref <? bins)%nat || (length cur <? bins)%nat then 0%R
  else
    let mn := PyNum.min (list_min ref) (list_min cur) in
    let mx := PyNum.max (list_max ref) (list_max cur) in
    if Qeq_bool mx mn then 0%R
    else
      let w := ((mx - mn) / inject_Z (Z.of_nat bins))%Q in
      fold_left (fun s i => (s + psi_term (bin_shares ref cur mn w i))%R)
                (seq 0 bins) 0%R.

(** *** [app/main.py]: the calibration gauge and its alert *)

Definition BRIER_THRESHOLD : Q := 0.25.

(** [xs[-n:]] *)
Definition last_n {A} (n : nat) (xs : list A) : list A :=
  skipn (length xs - n) xs.

(** [[1 if s > 0.5 else 0 for s in scores]] *)
Definition mock_labels (scores : list Q) : list Z :=
  List.map (fun s => if PyNum.ltb 0.5 s then 1 else 0) scores.

(** The Brier part of [prom_metrics]: the value set on the gauge and
    whether the calibration alert counter is incremented; nothing happens
    with fewer than 100 scores. *)
Definition calibration_gauge (SCORES : list Q) : option (Q * bool) :=
  if (100 <=? length SCORES)%nat then
    let mock_scores := last_n 100 SCORES in
    let brier_val := brier_score (mock_labels mock_scores) mock_scores in
    Some (brier_val, PyNum.ltb BRIER_THRESHOLD brier_val)
  else None.

(** *** [main.py] *)

(** [sklearn.metrics.brier_score_loss]: the mean squared difference;
    probabilities outside the unit interval are rejected. *)
Definition brier_score_loss (y_true : list Z) (y_prob : list Q) : option Q :=
  if forallb (fun p => Qle_bool 0 p && Qle_bool p 1) y_prob
     && (length y_true =? length y_prob)%nat
     && negb (length y_prob =? 0)%nat
  then Some (PyNum.sum (List.map (fun yp => (inject_Z (fst yp) - snd yp) ^ 2)
                                 (combine y_true y_prob))
             / inject_Z (Z.of_nat (length y_prob)))%Q
  else None.

(** [calculate_brier_score] *)
Definition calculate_brier_score (y_true : list Z) (y_prob : list Q) : Q :=
  default 0%Q (brier_score_loss y_true y_prob).

(** [(scores > 0.5).astype(int)] *)
Definition true_labels (scores : list Q) : list Z :=
  List.map (fun s => if PyNum.ltb 0.5 s then 1 else 0) scores.

(** [calculate_calibration_metrics]: the values set on the gauge, by model
    name, given the buffers of recent scores. *)
Definition calculate_calibration_metrics (recent_scores : string -> list Q)
  : list (string * Q) :=
  omap (fun model_name =>
          let scores := recent_scores model_name in
          if (100 <? length scores)%nat
          then Some (model_name, calculate_brier_score (true_labels scores) scores)
          else None)
       ["xgb"; "nn"; "ensemble"].

(** An edge of a histogram: a number or an infinity. *)
Inductive edge :=
| NegInf
| Fin (x : Q)
| PosInf.

Section Numpy.

(** [np.percentile(a, q)] and the counts of [np.histogram(a, bins=edges)];
    [None] is an exception. *)
Variable np_percentile : list Q -> list Q -> option (list Q).
Variable np_histogram : list Q -> list edge -> option (list nat).

(** [np.linspace(0, 100, bins + 1)] *)
Definition linspace_0_100 (bins : nat) : list Q :=
  List.map (fun i => (100 * inject_Z (Z.of_nat i) / inject_Z (Z.of_nat bins))%Q)
           (seq 0 (S bins)).

(** [breakpoints[0] = -np.inf; breakpoints[-1] = np.inf] *)
Definition open_ends (breakpoints : list Q) : option (list edge) :=
  match breakpoints with
  | [] => None
  | _ :: rest =>
      match rev rest with
      | [] => Some [PosInf]
      | _ :: inner => Some (NegInf :: List.map Fin (rev inner) ++ [PosInf])%list
      end
  end.

(** [np.where(prob == 0, 1e-6, prob)] on one share. *)
Definition no_zero (prob : Q) : Q := if Qeq_bool prob 0 then 1e-6%Q else prob.

(** [calculate_psi], for the non-empty arrays [detect_feature_drift] passes. *)
Definition calculate_psi (expected actual : list Q) (bins : nat) : R :=
  let body : option R :=
    breakpoints ← np_percentile expected (linspace_0_100 bins);
    edges ← open_ends breakpoints;
    expected_hist ← np_histogram expected edges;
    actual_hist ← np_histogram actual edges;
    if negb (length expected_hist =? length actual_hist)%nat then None
    else
      let share (total : nat) (n : nat) : Q :=
        no_zero (inject_Z (Z.of_nat n) / inject_Z (Z.of_nat total)) in
      let expected_prob := List.map (share (length expected)) expected_hist in
      let actual_prob := List.map (share (length actual)) actual_hist in
      Some (fold_left Rplus
              (List.map (fun ae => ((Q2R (fst ae) - Q2R (snd ae))
                                    * ln (Q2R (fst ae) / Q2R (snd ae)))%R)
                        (combine actual_prob expected_prob))
              0%R)
  in default 0%R body.

(** [detect_feature_drift], given the reference buffer of the feature if
    there is one. *)
Definition detect_feature_drift (reference : option (list Q))
    (current_values : list Q) : R :=
  match reference with
  | None => 0%R
  | Some ref =>
      if (length ref <? 100)%nat then 0%R
      else if (length current_values <? 50)%nat then 0%R
      else calculate_psi ref current_values 10
  end.

End Numpy.

End Monitor.

(** ** audit-svc: the decision and case endpoints *)

Module AuditApi.

Import Audit.

(** An [Optional[str]] field fed with [data.get(k)]. *)
Definition optional_str (v : option Json.value) : option (option string) :=
  match v with
  | None | Some Json.Null => Some None
  | Some x => Some <$> Pydantic.str_field x
  end.

(** The [AuditEvent] that [log_decision] builds from the posted dictionary;
    [None] is its [ValidationError]. *)
Definition decision_event (event_id : Json.value)
    (decision_data : list (string * Json.value)) : option AuditEvent :=
  eid ← Pydantic.str_field event_id;
  ent ← optional_str (Json.assoc "entity_id" decision_data);
  usr ← optional_str (Json.assoc "user_id" decision_data);
  act ← Pydantic.str_field
          (default (Json.Str "decision_made") (Json.assoc "action" decision_data));
  Some {| ae_event_id := eid; ae_event_type := "decision";
          ae_entity_id := ent; ae_user_id := usr;
          ae_action := act; ae_details := decision_data |}.

(** [POST /audit/decision].  [generated] is the [str(uuid.uuid4())] of the
    default of [decision_data.get("event_id", ...)]; the answer carries the
    event id, the bundle id and the hash.  [None] is the HTTP 500 answer. *)
Definition log_decision (generated : string) (a : ambient)
    (decision_data : list (string * Json.value)) (w : world)
  : world * option (Json.value * EvidenceBundle) :=
  let event_id := default (Json.Str generated) (Json.assoc "event_id" decision_data) in
  match decision_event event_id decision_data with
  | None => (w, None)
  | Some audit_event =>
      match store_evidence_bundle a decision_data "decision" w with
      | (w', Some b) => (log_audit_event a audit_event (Some b) w', Some (event_id, b))
      | (w', None) => (w', None)
      end
  end.

(** The [AuditEvent] that [log_case_event] builds. *)
Definition case_event (event_id : Json.value)
    (case_data : list (string * Json.value)) : option AuditEvent :=
  eid ← Pydantic.str_field event_id;
  ent ← optional_str (Json.assoc "case_id" case_data);
  usr ← optional_str (Json.assoc "user_id" case_data);
  act ← Pydantic.str_field
          (default (Json.Str "case_event") (Json.assoc "action" case_data));
  Some {| ae_event_id := eid; ae_event_type := "case";
          ae_entity_id := ent; ae_user_id := usr;
          ae_action := act; ae_details := case_data |}.

(** [POST /audit/case] *)
Definition log_case_event (generated : string) (a : ambient)
    (case_data : list (string * Json.value)) (w : world)
  : world * option (Json.value * EvidenceBundle) :=
  let event_id := default (Json.Str generated) (Json.assoc "event_id" case_data) in
  match case_event event_id case_data with
  | None => (w, None)
  | Some audit_event =>
      match store_evidence_bundle a case_data "case_event" w with
      | (w', Some b) => (log_audit_event a audit_event (Some b) w', Some (event_id, b))
      | (w', None) => (w', None)
      end
  end.

End AuditApi.

(** ** decision-svc: velocity patterns and the entry points ([main.py]) *)

Module DecisionSvc.

Import Redis.
Import Decision.

Definition pattern_1h (entity_id : string) : string :=
  ("velocity_pattern_1h:" ++ entity_id)%string.

Definition pattern_24h (entity_id : string) : string :=
  ("velocity_pattern_24h:" ++ entity_id)%string.

Section Patterns.

(** [float(s)] on a [str] ([None] is [ValueError]) and [repr] of a [float],
    which is what the client writes for a [float] value. *)
Variable py_float : string -> option Q.
Variable float_repr : Q -> string.

(** [check_velocity_anomaly]: a Redis or conversion error gives [False]. *)
Definition check_velocity_anomaly (entity_id : string) (velocity_1h velocity_24h : Z)
  : M bool :=
  try_except
    (historical_1h <~ get (pattern_1h entity_id) ;;
     historical_24h <~ get (pattern_24h entity_id) ;;
     over_1h <~
       (if truthy historical_1h then
          avg_1h <~ lift (py_float (text historical_1h)) ;;
          ret (PyNum.ltb (avg_1h * 3) (inject_Z velocity_1h))
        else ret false) ;;
     if over_1h then ret true
     else
       over_24h <~
         (if truthy historical_24h then
            avg_24h <~ lift (py_float (text historical_24h)) ;;
            ret (PyNum.ltb (avg_24h * 2) (inject_Z velocity_24h))
          else ret false) ;;
       if over_24h then ret true
       else
         (if negb (truthy historical_1h)
          then setex (pattern_1h entity_id) (PyStr.of_Z velocity_1h)
          else
            let alpha := 0.1%Q in
            h <~ lift (py_float (text historical_1h)) ;;
            let new_avg := (alpha * inject_Z velocity_1h + (1 - alpha) * h)%Q in
            setex (pattern_1h entity_id) (float_repr new_avg)) ;;;
         (if negb (truthy historical_24h)
          then setex (pattern_24h entity_id) (PyStr.of_Z velocity_24h)
          else
            let alpha := 0.1%Q in
            h <~ lift (py_float (text historical_24h)) ;;
            let new_avg := (alpha * inject_Z velocity_24h + (1 - alpha) * h)%Q in
            setex (pattern_24h entity_id) (float_repr new_avg)) ;;;
         ret false)
    (ret false).

End Patterns.

(** [process_score_output], given the [ScoreOutput] parsed from the message
    ([None] when parsing raises): the record sent to [alerts.decisions.v1]
    with its key, or nothing; the [except] clause only logs. *)
Definition process_score_output (a : ambient) (score_output : option ScoreOutput)
    (st : state) : state * option (string * DecisionOutput) :=
  match score_output with
  | None => (st, None)
  | Some so =>
      let entity_id := "unknown" in
      let ip_address : option string := None in
      let device_fingerprint : option string := None in
      match make_decision a so entity_id ip_address device_fingerprint st with
      | (st', Some decision) => (st', Some (entity_id, decision))
      | (st', None) => (st', None)
      end
  end.

(** [POST /decide]: the decision, or [None] for the HTTP 500 answer. *)
Definition decide_sync (a : ambient) (score_output : option ScoreOutput)
    (entity_id : string) (st : state) : state * option DecisionOutput :=
  match score_output with
  | None => (st, None)
  | Some so => make_decision a so entity_id None None st
  end.

End DecisionSvc.

(** ** score-svc: scoring a feature vector ([main.py]) *)

Module ScoreSvc.

(** [extract_features]: the eight model inputs, [amount or 0] first. *)
Definition extract_features (fv : Feature.FeatureVector) : list Q :=
  [ match Feature.amount fv with
    | Some a => if Feature.nonzero a then a else 0%Q
    | None => 0%Q
    end;
    inject_Z (Feature.velocity_1h fv);
    inject_Z (Feature.velocity_24h fv);
    inject_Z (Feature.velocity_7d fv);
    Feature.ip_risk fv;
    Feature.geo_distance_km fv;
    Feature.merchant_risk fv;
    inject_Z (Feature.age_days fv) ].

(** [class ModelScores(BaseModel)] as [score_feature_vector] fills it; the
    calibrated score is a real number. *)
Record ModelScores := {
  xgb : Q;
  nn : Q;
  rules : Q;
  ensemble : Q;
  calibrated : R
}.

Section Models.

(** The loaded models: [xgb_model.predict_proba(features)[0, 1]], and the
    output of [nn_model] on the features scaled by [nn_scaler].  [None]
    is a model that is not loaded; a prediction that is [None] raised. *)
Variable xgb_model : option (list Q -> option Q).
Variable nn_model : option (list Q -> option Q).

(** [compute_xgb_score] *)
Definition compute_xgb_score (features : list Q) : Q :=
  match xgb_model with
  | None => 0.1%Q
  | Some predict_proba => default 0.1%Q (predict_proba features)
  end.

(** [compute_nn_score] *)
Definition compute_nn_score (features : list Q) : Q :=
  match nn_model with
  | None => 0.1%Q
  | Some forward => default 0.1%Q (forward features)
  end.

(** [score_feature_vector]: the scores of the [ScoreOutput]; [None] is the
    [ValidationError] of [ModelScores], whose five fields are bounded by 0
    and 1. *)
Definition score_feature_vector (feature_vector : Feature.FeatureVector)
  : option ModelScores :=
  let features := extract_features feature_vector in
  let xgb_score := compute_xgb_score features in
  let nn_score := compute_nn_score features in
  let rules_score := Score.compute_rule_score feature_vector in
  let ensemble_score := Score.compute_ensemble_score xgb_score nn_score rules_score in
  let calibrated_score := Score.calibrate_score (Q2R ensemble_score) in
  x ← Pydantic.between_Q 0 1 xgb_score;
  n ← Pydantic.between_Q 0 1 nn_score;
  r ← Pydantic.between_Q 0 1 rules_score;
  e ← Pydantic.between_Q 0 1 ensemble_score;
  if Rle_dec 0 calibrated_score then
    if Rle_dec calibrated_score 1 then
      Some {| xgb := x; nn := n; rules := r; ensemble := e;
              calibrated := calibrated_score |}
    else None
  else None.

End Models.

End ScoreSvc.

(** ** score-svc: the explanation of the stub models ([app/models.py]) *)

Module Explain.

(** [sorted(xs, key=key)]: a stable sort, ascending in the key. *)
Fixpoint insert_by {A} (key : A -> Q) (x : A) (l : list A) : list A :=
  match l with
  | [] => [x]
  | y :: t => if PyNum.ltb (key y) (key x) then y :: insert_by key x t
              else x :: y :: t
  end.

Definition sorted_by {A} (key : A -> Q) (l : list A) : list A :=
  fold_right (insert_by key) [] l.

(** [shap_like], in binary floating point: the three contributions are
    the rounded quotient and products, and [0.4] is the double nearest to
    it. *)
Definition contributions (f : Models.feats) : list (string * Q) :=
  [ ("velocity_1h", F64.div (F64.of_Z (Models.velocity_1h f)) 10.0);
    ("ip_risk", F64.mul (Models.ip_risk f) 0.5);
    ("merchant_risk", F64.mul (Models.merchant_risk f) (F64.round 0.4)) ].

Definition shap_like (f : Models.feats) : list (string * Q) :=
  firstn 5 (sorted_by (fun x => (- snd x)%Q) (contributions f)).

(** [Ensemble.version] *)
Definition version : string := "xgb_2025_10_01" ++ "_" ++ "nn_2025_10_01".

End Explain.

(** ** model-monitor-svc: the in-memory buffers ([app/store.py]) and the
    ingest route ([app/main.py]) *)

Module Store.

(** [collections.deque(maxlen=n)]: [append] on a full buffer discards the
    item at the other end. *)
Definition deque_append {A} (maxlen : nat) (dq : list A) (x : A) : list A :=
  if (maxlen =? 0)%nat then []
  else if (length dq <? maxlen)%nat then (dq ++ [x])%list
  else (tl dq ++ [x])%list.

Definition maxlen : nat := Z.to_nat 10000.

(** [SCORES] and [FEATURES] *)
Record buffers := {
  SCORES : list Q;
  FEATURES : gmap string (list Q)
}.

(** [push_feature]; the value is already a [float]. *)
Definition push_feature (name : string) (value : Q)
    (features : gmap string (list Q)) : gmap string (list Q) :=
  let dq := default [] (features !! name) in
  <[name := deque_append maxlen dq value]> features.

(** The payload of [POST /ingest/score], by the two entries the route
    reads; the "features" entry is a dictionary when it is present. *)
Record payload := {
  calibrated : option Json.value;
  features : option (list (string * Json.value))
}.

Definition tracked : list string := ["velocity_1h"; "ip_risk"; "merchant_risk"].

Section Ingest.

(** [float(s)] on a [str]; [None] is [ValueError]. *)
Variable py_float : string -> option Q.

(** [float(v)] on a decoded JSON value; [None] is its exception. *)
Definition float_of (v : Json.value) : option Q :=
  match v with
  | Json.Int n => Some (inject_Z n)
  | Json.Float r => py_float r
  | Json.Str s => py_float s
  | Json.Bool b => Some (if b then 1 else 0)%Q
  | _ => None
  end.

(** The loop over the tracked features: a value that is not a number
    raises, and what was pushed before stays pushed. *)
Fixpoint push_tracked (names : list string) (feats : list (string * Json.value))
    (features : gmap string (list Q)) : gmap string (list Q) * option unit :=
  match names with
  | [] => (features, Some tt)
  | k :: rest =>
      match Json.assoc k feats with
      | None => push_tracked rest feats features
      | Some v =>
          match float_of v with
          | None => (features, None)
          | Some x => push_tracked rest feats (push_feature k x features)
          end
      end
  end.

(** [ingest_score] without tracking server: the buffers afterwards and the
    "n" of the answer; [None] is an exception. *)
Definition ingest_score (p : payload) (b : buffers) : buffers * option nat :=
  match match calibrated p with
        | None => Some 0.0%Q
        | Some v => float_of v
        end with
  | None => (b, None)
  | Some s =>
      let scores := deque_append maxlen (SCORES b) s in
      let '(feature_buffers, pushed) :=
        push_tracked tracked (default [] (features p)) (FEATURES b) in
      ({| SCORES := scores; FEATURES := feature_buffers |},
       match pushed with
       | Some _ => Some (length scores)
       | None => None
       end)
  end.

End Ingest.

End Store.

(** ** model-monitor-svc: the latency summary ([main.py]) *)

Module Latency.

(** [sorted(xs)] on numbers: a stable sort, an element stays in front of
    the later ones it is not larger than. *)
Fixpoint insert_sorted (x : Q) (l : list Q) : list Q :=
  match l with
  | [] => [x]
  | y :: t => if PyNum.ltb y x then y :: insert_sorted x t else x :: y :: t
  end.

Definition sorted (xs : list Q) : list Q := fold_right insert_sorted [] xs.

(** [int(n * q)] for a count [n] and a fraction [q]; for the fractions
    0.5, 0.95 and 0.99 and the at most 1000 rows of the query, the double
    product truncates to the same integer as the exact one. *)
Definition rank (n : nat) (q : Q) : nat :=
  Z.to_nat (Qfloor (inject_Z (Z.of_nat n) * q)).

(** The "latency_metrics" entry of the answer. *)
Record latency_metrics := {
  p50_ms : Q;
  p95_ms : Q;
  p99_ms : Q;
  mean_ms : Q;
  max_ms : Q;
  min_ms : Q;
  sample_count : nat
}.

(** The summary [get_latency_metrics] computes from the rows it read;
    [None] is an [IndexError]. *)
Definition summarize (latencies : list Q) : option latency_metrics :=
  match latencies with
  | [] =>
      Some {| p50_ms := 0; p95_ms := 0; p99_ms := 0; mean_ms := 0;
              max_ms := 0; min_ms := 0; sample_count := 0 |}
  | _ =>
      let latencies_sorted := sorted latencies in
      let n := length latencies_sorted in
      p50 ← latencies_sorted !! rank n 0.5;
      p95 ← latencies_sorted !! rank n 0.95;
      p99 ← latencies_sorted !! rank n 0.99;
      Some {| p50_ms := p50; p95_ms := p95; p99_ms := p99;
              mean_ms := (PyNum.sum latencies
                          / inject_Z (Z.of_nat (length latencies)))%Q;
              max_ms := Monitor.list_max latencies;
              min_ms := Monitor.list_min latencies;
              sample_count := length latencies |}
  end.

End Latency.

(** * Properties *)

(** ** Sanity of the library models *)

(** The FIPS 180-4 test vectors for the empty message and for "abc". *)
Example sha256_empty :
  SHA256.hexdigest [] =
  "e3b0c44298fc1c149afbf4c8996fb92427ae41e4649b934ca495991b7852b855".
Proof. vm_compute. reflexivity. Qed.

Example sha256_abc :
  SHA256.hexdigest (PyStr.encode_utf8 "abc") =
  "ba7816bf8f01cfea414140de5dae2223b00361a396177a9cb410ff61f20015ad".
Proof. vm_compute. reflexivity. Qed.

Example sha256_two_blocks :
  SHA256.hexdigest
    (PyStr.encode_utf8 "abcdbcdecdefdefgefghfghighijhijkijkljklmklmnlmnomnopnopq") =
  "248d6a61d20638b8e5c026930c3e6039a33ce45964ff2167f6ecedd419db06c1".
Proof. vm_compute. reflexivity. Qed.

Example dumps_example :
  Json.dumps false (Some 2%nat) (Json.Obj [("b", Json.Int 1); ("a", Json.Arr [Json.Null; Json.Str "x"])])
  = ("{" ++ Json.newline ++ "  " ++ Json.dquote ++ "b" ++ Json.dquote ++ ": 1,"
      ++ Json.newline ++ "  " ++ Json.dquote ++ "a" ++ Json.dquote ++ ": ["
      ++ Json.newline ++ "    null,"
      ++ Json.newline ++ "    " ++ Json.dquote ++ "x" ++ Json.dquote
      ++ Json.newline ++ "  ]"
      ++ Json.newline ++ "}")%string.
Proof. vm_compute. reflexivity. Qed.


(** ** Strings: proof support *)

#[local] Arguments String.append !s1 s2 : simpl nomatch.

Lemma append_assoc_r (a b c : string) : ((a ++ b) ++ c = a ++ (b ++ c))%string.
Proof. induction a as [|x a IH]; simpl; [reflexivity | now rewrite IH]. Qed.

Lemma append_inv_head (p s1 s2 : string) : (p ++ s1 = p ++ s2)%string -> s1 = s2.
Proof.
  induction p as [|c p IH]; simpl; intros H; [exact H | injection H as H; auto].
Qed.

Ltac flatten_in H :=
  repeat first [ rewrite !append_assoc_r in H | progress cbn in H ].

(** ** audit-svc *)

(** A document with the six keys of [evidence_data], in the order of the
    dictionary literal, never serialises to the same text with and without
    [sort_keys]: after "bundle_id" the one continues with "event_id", the
    other with "created_at". *)
Lemma six_keys_text_differs (s1 : string) (v2 v3 v4 v5 v6 : Json.value) :
  let doc := Json.Obj [("bundle_id", Json.Str s1); ("event_id", v2);
                       ("evidence_type", v3); ("data", v4);
                       ("created_at", v5); ("metadata", v6)] in
  Json.dumps false (Some 2%nat) doc <> Json.dumps true (Some 2%nat) doc.
Proof.
  intros doc H. unfold doc, Json.dumps in H.
  flatten_in H. injection H as H. flatten_in H.
  apply append_inv_head in H. discriminate H.
Qed.

(** For every payload, the text [store_evidence_bundle] hashes is not the
    canonical text [verify_audit_integrity] hashes. *)
Lemma stored_text_not_canonical (a : Audit.ambient) (eid : Json.value)
    (etype : string) (data : list (string * Json.value)) :
  Json.dumps false (Some 2%nat) (Audit.evidence_data a eid etype data)
  <> Json.dumps true (Some 2%nat) (Audit.evidence_data a eid etype data).
Proof. apply six_keys_text_differs. Qed.

(** The store as the writer means to leave it for one event, had
    [put_object] taken the body: the document under its object key, and the
    row of the index with the hash that [store_evidence_bundle] computes
    for the document and the path that [log_audit_event] computes. *)
Definition as_written (a : Audit.ambient) (e : Audit.AuditEvent) : Audit.world :=
  let doc := Audit.evidence_data a (Json.Str (Audit.ae_event_id e)) "audit_event"
               (Audit.AuditEvent_dict e) in
  {| Audit.minio :=
       Some {[ (Audit.now_date_path a ++ "/" ++ Audit.fresh_uuid a ++ ".json")%string
               := doc ]};
     Audit.postgres :=
       Some [ {| Audit.row_event_id := Audit.ae_event_id e;
                 Audit.row_event_type := Audit.ae_event_type e;
                 Audit.row_entity_id := Audit.ae_entity_id e;
                 Audit.row_user_id := Audit.ae_user_id e;
                 Audit.row_action := Audit.ae_action e;
                 Audit.row_details := Audit.ae_details e;
                 Audit.evidence_hash :=
                   Some (Audit.calculate_hash (Json.dumps false (Some 2%nat) doc));
                 Audit.evidence_path :=
                   Some (Audit.index_date_path a ++ "/" ++ Audit.fresh_uuid a
                           ++ ".json")%string |} ] |}.

(** [store_evidence_bundle] never returns: with a client at hand it reaches
    [put_object] with a [str] body, and the call raises. *)
Lemma store_evidence_bundle_raises (a : Audit.ambient)
    (data : list (string * Json.value)) (etype : string) (w : Audit.world) :
  Audit.store_evidence_bundle a data etype w = (w, None).
Proof.
  unfold Audit.store_evidence_bundle.
  destruct (Audit.minio w); reflexivity.
Qed.

(** C1 (evaluation of the code at a failing input).  One audit event is
    posted on an empty store.  [store_evidence_bundle] raises, as it does on
    every input, so the request is answered with status 500, nothing is
    stored, and verification of the event answers 404 instead of
    "verified".  Had the body been stored, the round trip would fail all
    the same: the hash the writer computes for the document is the one of
    its insertion-order text, the verifier hashes the sorted-key text, and
    on the store as the writer means to leave it verification answers
    "compromised" with two distinct hashes. *)
Theorem audit_round_trip_fails :
  (forall a data etype w, Audit.store_evidence_bundle a data etype w = (w, None))
  /\ Audit.log_event Audit.sample_ambient Audit.sample_event Audit.empty_world
     = (Audit.empty_world, None)
  /\ Audit.verify_audit_integrity "E1" Audit.empty_world = Audit.HttpError 404
  /\ Audit.verify_audit_integrity "E1"
       (as_written Audit.sample_ambient Audit.sample_event)
     = Audit.Integrity "compromised"
         (Some "b8235b2d3878b6c6e55a5f0aff977c4b8d11144b7f55ad1059b558d3bc3d79dc")
         (Some "855b69a18d724bb9e3d32527b09a14f91021c4aa74f4ebf66572c9eabcb9d739").
Proof.
  split; [exact store_evidence_bundle_raises|].
  split; [reflexivity|].
  split; [reflexivity|].
  vm_compute. reflexivity.
Qed.

(** ** Decimal integers *)

Lemma int_of_string_of_Z (n : Z) :
  option_map Z.of_int (NilZero.int_of_string (PyStr.of_Z n)) = Some n.
Proof.
  unfold PyStr.of_Z.
  rewrite NilZero.isi.
  - simpl. f_equal. apply DecimalZ.of_to.
  - destruct n as [|p|p]; simpl; intros H; try discriminate H.
    injection H as H. exact (Unsigned.to_uint_nonnil p H).
  - destruct n as [|p|p]; simpl; intros H; try discriminate H.
    injection H as H. exact (Unsigned.to_uint_nonnil p H).
Qed.

(** The server reads back the integers it prints. *)
Lemma to_int64_of_Z (n : Z) :
  Redis.int64_min <= n <= Redis.int64_max ->
  Redis.to_int64 (PyStr.of_Z n) = Some n.
Proof.
  intros [Hlo Hhi]. unfold Redis.to_int64.
  rewrite int_of_string_of_Z, String.eqb_refl.
  apply Z.leb_le in Hlo, Hhi. now rewrite Hlo, Hhi.
Qed.

Lemma of_Z_truthy (n : Z) : Feature.truthy (Some (PyStr.of_Z n)) = true.
Proof.
  pose proof (int_of_string_of_Z n) as H.
  destruct (PyStr.of_Z n) as [|c r]; [discriminate H | reflexivity].
Qed.

(** ** The Redis monad: proof support *)

Lemma bind_some {A B} (c : Redis.M A) (k : A -> Redis.M B) s s1 x :
  c s = (s1, Some x) -> Redis.bind c k s = k x s1.
Proof. intros H. unfold Redis.bind. now rewrite H. Qed.

Lemma bind_none {A B} (c : Redis.M A) (k : A -> Redis.M B) s s1 :
  c s = (s1, None) -> Redis.bind c k s = (s1, None).
Proof. intros H. unfold Redis.bind. now rewrite H. Qed.

(** A command leaves the keys satisfying [P] as they are. *)
Definition preserves {A} (P : string -> Prop) (c : Redis.M A) : Prop :=
  forall (s : Redis.db) (k : string), P k -> (c s).1 !! k = s !! k.

Lemma preserves_ret {A} P (x : A) : preserves P (Redis.ret x).
Proof. intros s k _. reflexivity. Qed.

Lemma preserves_raise {A} P : preserves P (@Redis.raise A).
Proof. intros s k _. reflexivity. Qed.

Lemma preserves_lift {A} P (o : option A) : preserves P (Redis.lift o).
Proof. destruct o; [apply preserves_ret | apply preserves_raise]. Qed.

Lemma preserves_get P key : preserves P (Redis.get key).
Proof.
  intros s k _. unfold Redis.get.
  destruct (s !! key) as [[v|m]|]; reflexivity.
Qed.

Lemma preserves_setex (P : string -> Prop) key v :
  ~ P key -> preserves P (Redis.setex key v).
Proof.
  intros Hk s k Pk. unfold Redis.setex. simpl.
  apply lookup_insert_ne. intros ->. exact (Hk Pk).
Qed.

Lemma preserves_bind {A B} P (c : Redis.M A) (k : A -> Redis.M B) :
  preserves P c -> (forall x, preserves P (k x)) -> preserves P (Redis.bind c k).
Proof.
  intros Hc Hk s key Pk. unfold Redis.bind.
  specialize (Hc s key Pk).
  destruct (c s) as [s1 [x|]] eqn:E; simpl in Hc.
  - rewrite (Hk x s1 key Pk). exact Hc.
  - exact Hc.
Qed.

(** Whatever a command returns satisfies [Q]. *)
Definition ensures {A} (c : Redis.M A) (Q : A -> Prop) : Prop :=
  forall (s s' : Redis.db) (x : A), c s = (s', Some x) -> Q x.

Lemma ensures_bind {A B} (c : Redis.M A) (k : A -> Redis.M B) (Q : B -> Prop) :
  (forall x, ensures (k x) Q) -> ensures (Redis.bind c k) Q.
Proof.
  intros Hk s s' y. unfold Redis.bind.
  destruct (c s) as [s1 [x|]]; [apply Hk | discriminate].
Qed.

Lemma ensures_lift {A} (o : option A) (Q : A -> Prop) :
  (forall x, o = Some x -> Q x) -> ensures (Redis.lift o) Q.
Proof.
  intros H s s' x. destruct o as [y|]; simpl.
  - unfold Redis.ret. intros E. injection E as _ <-. now apply H.
  - discriminate.
Qed.

(** ** feature-svc *)

(** Keys of the velocity counters. *)
Definition is_velocity_key (k : string) : Prop :=
  exists rest : string, k = ("velocity:" ++ rest)%string.

Lemma velocity_key_is (e w : string) : is_velocity_key (Feature.velocity_key e w).
Proof. eexists. reflexivity. Qed.

(** The three counter keys of one entity are pairwise distinct. *)
Lemma velocity_key_inj (e w1 w2 : string) :
  Feature.velocity_key e w1 = Feature.velocity_key e w2 -> w1 = w2.
Proof.
  unfold Feature.velocity_key. intros H.
  apply append_inv_head in H. apply append_inv_head in H.
  apply append_inv_head in H. exact H.
Qed.

(** [INCR] on a counter that is missing or a 64-bit integer below the
    largest one. *)
Lemma incr_counter (s : Redis.db) (e w : string) :
  Feature.counter_ok s e w ->
  Redis.incr (Feature.velocity_key e w) s
  = (<[Feature.velocity_key e w
       := Redis.RString (PyStr.of_Z (Feature.counter s e w + 1))]> s,
     Some (Feature.counter s e w + 1))
  /\ Redis.int64_min <= Feature.counter s e w + 1 <= Redis.int64_max.
Proof.
  unfold Feature.counter_ok, Feature.counter, Redis.incr.
  intros [H | [n [[Hlo Hhi] H]]]; rewrite H.
  - split; [reflexivity|]. cbn. unfold Redis.int64_min, Redis.int64_max. lia.
  - rewrite to_int64_of_Z by lia. cbn [default from_option]. unfold Datatypes.id.
    apply Z.ltb_lt in Hhi as Hlt. rewrite Hlt. split; [reflexivity | lia].
Qed.

Lemma counter_insert_same (s : Redis.db) (e w : string) (n : Z) :
  Redis.int64_min <= n <= Redis.int64_max ->
  Feature.counter (<[Feature.velocity_key e w := Redis.RString (PyStr.of_Z n)]> s) e w = n.
Proof.
  intros Hn. unfold Feature.counter.
  rewrite lookup_insert_eq, to_int64_of_Z by exact Hn. reflexivity.
Qed.

Lemma counter_insert_other (s : Redis.db) (e w w' : string) (v : Redis.rval) :
  w <> w' ->
  Feature.counter (<[Feature.velocity_key e w := v]> s) e w' = Feature.counter s e w'.
Proof.
  intros Hne. unfold Feature.counter.
  rewrite lookup_insert_ne; [reflexivity|].
  intros H. apply velocity_key_inj in H. contradiction.
Qed.

Lemma counter_ok_insert_other (s : Redis.db) (e w w' : string) (v : Redis.rval) :
  w <> w' ->
  Feature.counter_ok s e w' ->
  Feature.counter_ok (<[Feature.velocity_key e w := v]> s) e w'.
Proof.
  intros Hne. unfold Feature.counter_ok.
  rewrite lookup_insert_ne; [tauto|].
  intros H. apply velocity_key_inj in H. contradiction.
Qed.

(** The counters only depend on the velocity keys. *)
Lemma counter_frame (s s' : Redis.db) (e w : string) :
  (forall k, is_velocity_key k -> s' !! k = s !! k) ->
  Feature.counter s' e w = Feature.counter s e w.
Proof.
  intros H. unfold Feature.counter.
  rewrite (H _ (velocity_key_is e w)). reflexivity.
Qed.

(** [update_velocity_counts] adds one to each of the three counters. *)
Lemma update_velocity_counts_adds (s : Redis.db) (e : string) :
  (forall w, In w Feature.time_windows -> Feature.counter_ok s e w) ->
  exists s',
    Feature.update_velocity_counts e Feature.time_windows s = (s', Some tt)
    /\ (forall w, In w Feature.time_windows ->
          Feature.counter s' e w = Feature.counter s e w + 1)
    /\ (forall k, ~ is_velocity_key k -> s' !! k = s !! k).
Proof.
  intros Hok.
  assert (O1 : Feature.counter_ok s e "1h") by (apply Hok; simpl; auto).
  assert (O2 : Feature.counter_ok s e "24h") by (apply Hok; simpl; auto).
  assert (O3 : Feature.counter_ok s e "7d") by (apply Hok; simpl; auto).
  destruct (incr_counter s e "1h" O1) as [I1 B1].
  set (s1 := <[Feature.velocity_key e "1h"
               := Redis.RString (PyStr.of_Z (Feature.counter s e "1h" + 1))]> s) in *.
  assert (O2' : Feature.counter_ok s1 e "24h").
  { apply counter_ok_insert_other; [discriminate | exact O2]. }
  destruct (incr_counter s1 e "24h" O2') as [I2 B2].
  set (s2 := <[Feature.velocity_key e "24h"
               := Redis.RString (PyStr.of_Z (Feature.counter s1 e "24h" + 1))]> s1) in *.
  assert (O3' : Feature.counter_ok s2 e "7d").
  { apply counter_ok_insert_other; [discriminate|].
    apply counter_ok_insert_other; [discriminate | exact O3]. }
  destruct (incr_counter s2 e "7d" O3') as [I3 B3].
  set (s3 := <[Feature.velocity_key e "7d"
               := Redis.RString (PyStr.of_Z (Feature.counter s2 e "7d" + 1))]> s2) in *.
  exists s3. split.
  - unfold Feature.update_velocity_counts, Feature.time_windows.
    cbn [Redis.for_each String.eqb Ascii.eqb Bool.eqb].
    rewrite (bind_some _ _ _ _ _ (bind_some _ _ _ _ _ I1)).
    rewrite (bind_some _ _ _ _ _ (bind_some _ _ _ _ _ I2)).
    rewrite (bind_some _ _ _ _ _ (bind_some _ _ _ _ _ I3)).
    reflexivity.
  - split; [|intros k Hk; subst s3 s2 s1;
              rewrite !lookup_insert_ne; [reflexivity|..];
              intros <-; apply Hk, velocity_key_is].
    assert (C2 : Feature.counter s1 e "24h" = Feature.counter s e "24h")
      by (apply counter_insert_other; discriminate).
    assert (C3 : Feature.counter s2 e "7d" = Feature.counter s e "7d").
    { unfold s2. rewrite counter_insert_other by discriminate.
      apply counter_insert_other; discriminate. }
    intros w [<- | [<- | [<- | []]]].
    + unfold s3. rewrite counter_insert_other by discriminate.
      unfold s2. rewrite counter_insert_other by discriminate.
      apply counter_insert_same, B1.
    + unfold s3. rewrite counter_insert_other by discriminate.
      unfold s2. rewrite counter_insert_same by exact B2. now rewrite C2.
    + unfold s3. rewrite counter_insert_same by exact B3. now rewrite C3.
Qed.

Section FeatureFacts.

Variable py_float : string -> option Q.
Variable float_repr : Q -> string.
Variable json_loads : string -> option Json.value.
Variable geodesic_km : Q * Q -> Q * Q -> option Q.
Variable py_hash : string -> Z.
Variable py_int : string -> option Z.
Variable py_uuid : string -> option string.
Variable py_datetime : string -> option string.

(** [int] reads back the 64-bit integers that [str] and the server print. *)
Hypothesis py_int_of_Z :
  forall n, Redis.int64_min <= n <= Redis.int64_max ->
            py_int (PyStr.of_Z n) = Some n.

Ltac other_prefix :=
  let H := fresh in intros [? H]; cbn in H; discriminate H.

Lemma frame_ip_risk ip :
  preserves is_velocity_key (Feature.get_ip_risk_score py_float ip).
Proof.
  unfold Feature.get_ip_risk_score.
  destruct (negb (Feature.truthy ip)); [apply preserves_ret|].
  apply preserves_bind; [apply preserves_get|]. intros cached.
  destruct (Feature.truthy cached); [apply preserves_lift|].
  apply preserves_bind; [|intros; apply preserves_ret].
  apply preserves_setex. other_prefix.
Qed.

Lemma frame_merchant_risk m :
  preserves is_velocity_key (Feature.get_merchant_risk_score py_float m).
Proof.
  unfold Feature.get_merchant_risk_score.
  destruct (negb (Feature.truthy m)); [apply preserves_ret|].
  apply preserves_bind; [apply preserves_get|]. intros cached.
  destruct (Feature.truthy cached); [apply preserves_lift|].
  apply preserves_bind; [|intros; apply preserves_ret].
  apply preserves_setex. other_prefix.
Qed.

Lemma frame_geolocation ip :
  preserves is_velocity_key (Feature.get_geolocation py_float json_loads ip).
Proof.
  unfold Feature.get_geolocation.
  destruct (negb (Feature.truthy ip)); [apply preserves_ret|].
  apply preserves_bind; [apply preserves_get|]. intros cached.
  destruct (Feature.truthy cached).
  - apply preserves_bind; [apply preserves_lift|]. intros d.
    apply preserves_bind; [apply preserves_lift|]. intros g.
    apply preserves_ret.
  - apply preserves_bind; [|intros; apply preserves_ret].
    apply preserves_setex. other_prefix.
Qed.

Lemma frame_geo_distance e lat lon :
  preserves is_velocity_key
    (Feature.calculate_geo_distance py_float float_repr json_loads geodesic_km e lat lon).
Proof.
  unfold Feature.calculate_geo_distance.
  destruct (_ || _); [apply preserves_ret|].
  apply preserves_bind; [apply preserves_get|]. intros usual.
  destruct (negb (Feature.truthy usual)).
  - apply preserves_bind; [|intros; apply preserves_ret].
    apply preserves_setex. other_prefix.
  - apply preserves_bind; [apply preserves_lift|]. intros d.
    destruct d; try apply preserves_raise.
    apply preserves_bind; [apply preserves_lift|]. intros la.
    apply preserves_bind; [apply preserves_lift|]. intros lo.
    apply preserves_lift.
Qed.

Lemma frame_account_age e :
  preserves is_velocity_key (Feature.get_account_age py_int e).
Proof.
  unfold Feature.get_account_age.
  apply preserves_bind; [apply preserves_get|]. intros cached.
  destruct (Feature.truthy cached); [apply preserves_lift|].
  apply preserves_bind; [|intros; apply preserves_ret].
  apply preserves_setex. other_prefix.
Qed.

(** Reading a counter that is missing or a 64-bit integer. *)
Lemma read_counter (s : Redis.db) (e w : string) :
  Feature.counter_ok s e w ->
  exists count,
    Redis.get (Feature.velocity_key e w) s = (s, Some count)
    /\ (if Feature.truthy count then py_int (Feature.text count) else Some 0)
       = Some (Feature.counter s e w).
Proof.
  unfold Feature.counter_ok, Feature.counter, Redis.get.
  intros [H | [n [[Hlo Hhi] H]]]; rewrite H.
  - exists None. split; reflexivity.
  - exists (Some (PyStr.of_Z n)). split; [reflexivity|].
    rewrite of_Z_truthy. simpl.
    rewrite py_int_of_Z, to_int64_of_Z by lia. reflexivity.
Qed.

(** [get_velocity_counts] returns the three counters and writes nothing. *)
Lemma get_velocity_counts_reads (s : Redis.db) (e : string) :
  (forall w, In w Feature.time_windows -> Feature.counter_ok s e w) ->
  exists m : gmap string Z,
    Feature.get_velocity_counts py_int e Feature.time_windows s = (s, Some m)
    /\ m !! "velocity_1h" = Some (Feature.counter s e "1h")
    /\ m !! "velocity_24h" = Some (Feature.counter s e "24h")
    /\ m !! "velocity_7d" = Some (Feature.counter s e "7d").
Proof.
  intros Hok.
  destruct (read_counter s e "1h") as (c1 & G1 & V1); [apply Hok; simpl; auto|].
  destruct (read_counter s e "24h") as (c2 & G2 & V2); [apply Hok; simpl; auto|].
  destruct (read_counter s e "7d") as (c3 & G3 & V3); [apply Hok; simpl; auto|].
  eexists. split.
  - unfold Feature.get_velocity_counts, Feature.time_windows.
    cbn [Feature.get_velocity_counts_from].
    rewrite (bind_some _ _ _ _ _ G1), V1. cbn [Redis.lift].
    rewrite (bind_some _ _ s s _ eq_refl).
    rewrite (bind_some _ _ _ _ _ G2), V2. cbn [Redis.lift].
    rewrite (bind_some _ _ s s _ eq_refl).
    rewrite (bind_some _ _ _ _ _ G3), V3. cbn [Redis.lift].
    rewrite (bind_some _ _ s s _ eq_refl).
    reflexivity.
  - split; [|split]; reflexivity.
Qed.

(** Whatever vector the block builds, the serializer of the producer
    rejects its dictionary: the event identifier in it is a [UUID]. *)
Lemma feature_dict_not_serializable (fv : Feature.FeatureVector) :
  Feature.value_serializer (Feature.feature_dict float_repr fv) = None.
Proof. reflexivity. Qed.

(** [process_event] never hands a record to the broker. *)
Lemma process_event_sends_nothing
    (a : Feature.ambient) (data : Feature.event_data) (topic : string)
    (s : Redis.db) :
  Feature.process_event py_float float_repr json_loads geodesic_km py_hash
    py_int py_uuid py_datetime a data topic s
  = ((Feature.process_event_body py_float float_repr json_loads geodesic_km
        py_hash py_int py_uuid py_datetime a data topic s).1, None).
Proof.
  unfold Feature.process_event.
  destruct (Feature.process_event_body _ _ _ _ _ _ _ _ _ _ _ _) as [s' [fv|]];
    reflexivity.
Qed.

(** C3 (the code on every event it accepts).  For an event that passes
    validation, in a state in which the three counters of its entity are
    missing or hold 64-bit integers that can be incremented: the call adds
    one to each counter; a vector that the call builds carries the values
    the counters had before, so the event does not count itself; such a
    vector is built when the event has neither an IP address nor a
    merchant, no account age is cached and no counter is negative; and no
    vector is emitted, because the producer cannot serialize the event
    identifier. *)
Theorem velocity_vector_never_sent
    (a : Feature.ambient) (data : Feature.event_data) (topic : string)
    (ev : Feature.event) (s : Redis.db) :
  Feature.parse_event py_uuid py_datetime data topic = Some ev ->
  (forall w, In w Feature.time_windows ->
             Feature.counter_ok s (Feature.ev_entity_id ev) w) ->
  let e := Feature.ev_entity_id ev in
  let built := Feature.process_event_body py_float float_repr json_loads
                 geodesic_km py_hash py_int py_uuid py_datetime a data topic s in
  let r := Feature.process_event py_float float_repr json_loads geodesic_km
             py_hash py_int py_uuid py_datetime a data topic s in
  r = (built.1, None)
  /\ (forall w, In w Feature.time_windows ->
        Feature.counter r.1 e w = Feature.counter s e w + 1)
  /\ (forall fv, built.2 = Some fv ->
        Feature.velocity_1h fv = Feature.counter s e "1h"
        /\ Feature.velocity_24h fv = Feature.counter s e "24h"
        /\ Feature.velocity_7d fv = Feature.counter s e "7d")
  /\ ((forall w, In w Feature.time_windows -> 0 <= Feature.counter s e w) ->
      Feature.truthy (Feature.getattr Feature.te_ip_address ev) = false ->
      Feature.truthy (Feature.getattr Feature.te_merchant_id ev) = false ->
      s !! ("account_age:" ++ e)%string = None ->
      exists fv, built.2 = Some fv).
Proof.
  intros Hparse Hok e built r.
  assert (Hr : r = (built.1, None)) by apply process_event_sends_nothing.
  split; [exact Hr|]. rewrite Hr. cbn [fst]. clear r Hr.
  subst built. fold e in Hok.
  destruct (get_velocity_counts_reads s e Hok) as (m & Hget & M1 & M2 & M3).
  destruct (update_velocity_counts_adds s e Hok) as (s2 & Hupd & Hcnt & Hother).
  unfold Feature.process_event_body.
  rewrite Hparse. cbn [Redis.lift].
  rewrite (bind_some _ _ s s ev eq_refl). fold e.
  rewrite (bind_some _ _ _ _ _ Hget).
  rewrite (bind_some _ _ _ _ _ Hupd).
  match goal with |- context [ (?tail s2).1 ] => set (rest := tail) end.
  assert (Hframe : preserves is_velocity_key rest).
  { subst rest.
    apply preserves_bind; [apply frame_ip_risk|]; intros ipr.
    apply preserves_bind; [apply frame_merchant_risk|]; intros mr.
    apply preserves_bind; [apply frame_geolocation|]; intros geo.
    apply preserves_bind.
    { destruct geo as [[co re ci [lat|] [lon|]]|]; try apply preserves_ret.
      destruct (_ && _); [apply frame_geo_distance | apply preserves_ret]. }
    intros gd.
    apply preserves_bind; [apply frame_account_age|]; intros age.
    apply preserves_lift. }
  assert (Hval : ensures rest (fun fv =>
            Feature.velocity_1h fv = Feature.counter s e "1h"
            /\ Feature.velocity_24h fv = Feature.counter s e "24h"
            /\ Feature.velocity_7d fv = Feature.counter s e "7d")).
  { subst rest.
    do 5 (apply ensures_bind; intros ?).
    apply ensures_lift. intros fv Hfv.
    unfold Feature.validate_vector in Hfv.
    destruct (_ && _) in Hfv; [|discriminate].
    injection Hfv as <-. cbn. rewrite M1, M2, M3. auto. }
  split; [|split].
  - intros w Hw. rewrite <- (Hcnt w Hw).
    apply counter_frame. intros k Hk. apply Hframe. exact Hk.
  - intros fv Hfv. destruct (rest s2) as [s' o] eqn:E. simpl in Hfv. subst o.
    exact (Hval _ _ _ E).
  - intros Hpos Hip Hmer Hage. subst rest.
    unfold Feature.get_ip_risk_score, Feature.get_merchant_risk_score,
      Feature.get_geolocation.
    rewrite Hip, Hmer. cbn [negb].
    rewrite (bind_some _ _ s2 s2 _ eq_refl).
    rewrite (bind_some _ _ s2 s2 _ eq_refl).
    rewrite (bind_some _ _ s2 s2 _ eq_refl).
    rewrite (bind_some _ _ s2 s2 _ eq_refl).
    assert (Hage2 : s2 !! ("account_age:" ++ e)%string = None).
    { rewrite Hother; [exact Hage|]. intros [? H]. cbn in H. discriminate H. }
    assert (Hacc : Feature.get_account_age py_int e s2
                   = (<[("account_age:" ++ e)%string := Redis.RString "365"]> s2,
                      Some 365)).
    { unfold Feature.get_account_age, Redis.bind, Redis.get. rewrite Hage2.
      reflexivity. }
    rewrite (bind_some _ _ _ _ _ Hacc).
    unfold Feature.validate_vector. cbn [Feature.velocity_1h Feature.velocity_24h
      Feature.velocity_7d Feature.ip_risk Feature.geo_distance_km
      Feature.merchant_risk Feature.age_days].
    rewrite M1, M2, M3. cbn [default from_option]. unfold Datatypes.id.
    pose proof (Hpos "1h" ltac:(simpl; auto)) as P1.
    pose proof (Hpos "24h" ltac:(simpl; auto)) as P2.
    pose proof (Hpos "7d" ltac:(simpl; auto)) as P3.
    apply Z.leb_le in P1, P2, P3. rewrite P1, P2, P3.
    eexists. reflexivity.
Qed.

End FeatureFacts.

(** The parsers at the one identifier and the one timestamp of the sample:
    both are in the form the library prints. *)
Definition sample_uuid (s : string) : option string :=
  if String.eqb s "6f1d2c3b-0a49-4e58-8f67-1b2a3c4d5e6f" then Some s else None.

Definition sample_datetime (s : string) : option string :=
  if String.eqb s "2025-10-21T21:10:11" then Some s else None.

(** [int] on the numerals the server prints. *)
Definition sample_int (s : string) : option Z := Redis.to_int64 s.

(** One claim for an account whose hourly counter stands at 3. *)
Definition sample_claim : Feature.event_data :=
  Feature.ClaimData
    {| Feature.ce_event_id := "6f1d2c3b-0a49-4e58-8f67-1b2a3c4d5e6f";
       Feature.ce_entity_id := "acct-7";
       Feature.ce_timestamp := "2025-10-21T21:10:11";
       Feature.ce_claim_amount := 120;
       Feature.ce_claim_type := "auto" |}.

Definition sample_counters : Redis.db :=
  {[ Feature.velocity_key "acct-7" "1h" := Redis.RString "3" ]}.

Definition sample_clock : Feature.ambient :=
  {| Feature.utcnow := "2025-10-21T21:10:12"; Feature.elapsed_ms := 2 |}.

Lemma velocity_vector_never_sent_witness :
  let ev := Feature.Claim
              {| Feature.ce_event_id := "6f1d2c3b-0a49-4e58-8f67-1b2a3c4d5e6f";
                 Feature.ce_entity_id := "acct-7";
                 Feature.ce_timestamp := "2025-10-21T21:10:11";
                 Feature.ce_claim_amount := 120;
                 Feature.ce_claim_type := "auto" |} in
  let built := Feature.process_event_body (fun _ => None) (fun _ => "")
                 (fun _ => None) (fun _ _ => None) (fun _ => 0)
                 sample_int sample_uuid sample_datetime
                 sample_clock sample_claim "events.claims.v1" sample_counters in
  let r := Feature.process_event (fun _ => None) (fun _ => "") (fun _ => None)
             (fun _ _ => None) (fun _ => 0) sample_int sample_uuid sample_datetime
             sample_clock sample_claim "events.claims.v1" sample_counters in
  ((forall n, Redis.int64_min <= n <= Redis.int64_max ->
              sample_int (PyStr.of_Z n) = Some n)
   /\ Feature.parse_event sample_uuid sample_datetime sample_claim "events.claims.v1"
      = Some ev
   /\ (forall w, In w Feature.time_windows ->
                 Feature.counter_ok sample_counters "acct-7" w))
  /\ (r = (built.1, None)
      /\ (forall w, In w Feature.time_windows ->
            Feature.counter r.1 "acct-7" w
            = Feature.counter sample_counters "acct-7" w + 1)
      /\ (forall fv, built.2 = Some fv ->
            Feature.velocity_1h fv = Feature.counter sample_counters "acct-7" "1h"
            /\ Feature.velocity_24h fv = Feature.counter sample_counters "acct-7" "24h"
            /\ Feature.velocity_7d fv = Feature.counter sample_counters "acct-7" "7d")
      /\ ((forall w, In w Feature.time_windows ->
             0 <= Feature.counter sample_counters "acct-7" w) ->
          Feature.truthy (Feature.getattr Feature.te_ip_address ev) = false ->
          Feature.truthy (Feature.getattr Feature.te_merchant_id ev) = false ->
          sample_counters !! ("account_age:" ++ "acct-7")%string = None ->
          exists fv, built.2 = Some fv)).
Proof.
  intros ev built r.
  assert (Hint : forall n, Redis.int64_min <= n <= Redis.int64_max ->
                           sample_int (PyStr.of_Z n) = Some n)
    by exact to_int64_of_Z.
  assert (Hp : Feature.parse_event sample_uuid sample_datetime sample_claim
                 "events.claims.v1" = Some ev)
    by reflexivity.
  assert (Hok : forall w, In w Feature.time_windows ->
                          Feature.counter_ok sample_counters "acct-7" w).
  { intros w [<- | [<- | [<- | []]]].
    - right. exists 3. split; [|reflexivity].
      unfold Redis.int64_min, Redis.int64_max. lia.
    - left. reflexivity.
    - left. reflexivity. }
  split; [split; [exact Hint | split; assumption]|].
  exact (velocity_vector_never_sent (fun _ => None) (fun _ => "")
           (fun _ => None) (fun _ _ => None) (fun _ => 0)
           sample_int sample_uuid sample_datetime Hint
           sample_clock sample_claim "events.claims.v1" ev sample_counters Hp Hok).
Defined.

(** The run of the sample: the vector that is built reports 3, 0 and 0, the
    counters stand at 4, 1 and 1 afterwards, and nothing is sent. *)
Example sample_claim_run :
  let built := Feature.process_event_body (fun _ => None) (fun _ => "")
                 (fun _ => None) (fun _ _ => None) (fun _ => 0)
                 sample_int sample_uuid sample_datetime
                 sample_clock sample_claim "events.claims.v1" sample_counters in
  let r := Feature.process_event (fun _ => None) (fun _ => "") (fun _ => None)
             (fun _ _ => None) (fun _ => 0) sample_int sample_uuid sample_datetime
             sample_clock sample_claim "events.claims.v1" sample_counters in
  (Feature.velocity_1h <$> built.2, Feature.velocity_24h <$> built.2,
   Feature.velocity_7d <$> built.2) = (Some 3, Some 0, Some 0)
  /\ map (Feature.counter r.1 "acct-7") Feature.time_windows = [4; 1; 1]
  /\ r.2 = None.
Proof. vm_compute. repeat split; reflexivity. Qed.

(** An event whose identifier is not a UUID is rejected before Redis is
    touched. *)
Example rejected_event_counts_nothing :
  let data := Feature.ClaimData
                {| Feature.ce_event_id := "E1";
                   Feature.ce_entity_id := "acct-7";
                   Feature.ce_timestamp := "2025-10-21T21:10:11";
                   Feature.ce_claim_amount := 120;
                   Feature.ce_claim_type := "auto" |} in
  Feature.process_event (fun _ => None) (fun _ => "") (fun _ => None)
    (fun _ _ => None) (fun _ => 0) sample_int sample_uuid sample_datetime
    sample_clock data "events.claims.v1" sample_counters
  = (sample_counters, None).
Proof. reflexivity. Qed.

(** ** decision-svc: graph anomaly *)

(** The accounts linked to a device: the members of its set, none when
    the key is missing. *)
Definition links (s : Redis.db) (device_fingerprint : string) : gset string :=
  match s !! Decision.device_accounts_key device_fingerprint with
  | Some (Redis.RSet m) => m
  | _ => ∅
  end.

(** Six accounts on one device, the sixth being new. *)
Definition five_accounts : Redis.db :=
  {[ Decision.device_accounts_key "dev-1" :=
       Redis.RSet {[ "a1"; "a2"; "a3"; "a4"; "a5" ]} ]}.

(** C7 as stated fails: with five accounts already linked, the sixth
    distinct account brings the set to six members, yet the function
    answers false. *)
Lemma graph_anomaly_after_insert_counterexample :
  let r := Decision.check_graph_anomaly "a6" (Some "dev-1") five_accounts in
  ~ (r.2 = Some true <-> (5 < size (links r.1 "dev-1"))%nat).
Proof.
  intros r [_ H].
  assert (Hsz : (5 < size (links r.1 "dev-1"))%nat) by (vm_compute; lia).
  specialize (H Hsz). vm_compute in H. discriminate H.
Qed.

(** C7, amended.  For a non-empty device fingerprint the function always
    answers, and it answers true exactly when the accounts linked to the
    device before this call number more than five; unless the key holds a
    value of another type, the account is linked afterwards. *)
Theorem graph_anomaly_counts_prior_links
    (entity_id : string) (c : ascii) (rest : string) (s : Redis.db) :
  let dev := String c rest in
  let r := Decision.check_graph_anomaly entity_id (Some dev) s in
  r.2 = Some (bool_decide (5 < size (links s dev))%nat)
  /\ match s !! Decision.device_accounts_key dev with
     | Some (Redis.RString _) => r.1 = s
     | _ => links r.1 dev = {[entity_id]} ∪ links s dev
     end.
Proof.
  intros dev r. subst r.
  unfold Decision.check_graph_anomaly, Redis.try_except, links.
  change (Decision.truthy (Some dev)) with true.
  change (Decision.text (Some dev)) with dev.
  cbn [negb].
  remember (Decision.device_accounts_key dev) as key eqn:Hkey. clear Hkey.
  unfold Redis.bind, Redis.scard, Redis.sadd, Redis.expire.
  destruct (s !! key) as [[v|m]|] eqn:E.
  - split; reflexivity.
  - cbn. rewrite E. cbn.
    destruct (5 <? Z.of_nat (size m)) eqn:L; cbn; rewrite lookup_insert_eq;
      (split; [|reflexivity]).
    + apply Z.ltb_lt in L. rewrite bool_decide_eq_true_2 by lia. reflexivity.
    + apply Z.ltb_ge in L. rewrite bool_decide_eq_false_2 by lia. reflexivity.
  - cbn. rewrite E. cbn. rewrite lookup_insert_eq. split.
    + rewrite bool_decide_eq_false_2; [reflexivity|].
      rewrite size_empty. lia.
    + now rewrite (right_id_L ∅ (∪)).
Qed.

(** ** decision-svc: case identifiers *)








Definition action_domain : list string := ["allow"; "hold"; "block"; "escalate"].


(** Every rule of the policy names an action of the specified domain. *)
Definition actions_in_domain (p : Decision.policy_t) : Prop :=
  forall k r, Decision.rule_at p k = Some r -> In (Decision.rule_action r) action_domain.

(** The policy a call works with: the one in memory, else the one loaded. *)
Definition effective_policy (a : Decision.ambient) (st : Decision.state)
  : option Decision.policy_t :=
  match Decision.current_policy st with
  | None => Decision.load_decision_policy (Decision.pg a) None
  | Some p => Some p
  end.





Definition sample_scores : Decision.ScoreOutput :=
  {| Decision.so_event_id := "0b9d0d6e-2c1f-4a53-9b7e-6d5c4b3a2f10";
     Decision.so_scores :=
       {| Decision.xgb := 0.2; Decision.nn := 0.2; Decision.rules := 0.2;
          Decision.ensemble := 0.2; Decision.calibrated := 0.3 |};
     Decision.model_version := "m1" |}.


Definition fresh_state : Decision.state :=
  {| Decision.current_policy := None; Decision.redis := ∅ |}.



(** A decision under the built-in policy: a score of 0.75 is held and
    gets a case id. *)
Definition default_call : Decision.ambient :=
  {| Decision.uuid4 := 0x3f2b8c1e5d4a4c6b9e7f0a1b2c3d4e5f;
     Decision.elapsed_ms := 1;
     Decision.pg := Decision.PgRow None |}.

Definition held_scores : Decision.ScoreOutput :=
  {| Decision.so_event_id := "0b9d0d6e-2c1f-4a53-9b7e-6d5c4b3a2f10";
     Decision.so_scores :=
       {| Decision.xgb := 0.7; Decision.nn := 0.7; Decision.rules := 0.7;
          Decision.ensemble := 0.7; Decision.calibrated := 0.75 |};
     Decision.model_version := "m1" |}.

Example held_decision :
  (fun d => (Decision.action d, Decision.case_id d, Decision.reasons d))
    <$> (Decision.make_decision default_call held_scores "test_entity" None None
           fresh_state).2
  = Some ("hold", Some "CASE-3F2B8C1E", ["medium_risk"; "conflicting_signals"]).
Proof. vm_compute. reflexivity. Qed.

(** The sixth scenario of the specification: a score of 0.65 with the IP
    address on the watchlist is held, with the hit among the reasons. *)
Example watchlist_override :
  let st := {| Decision.current_policy := None;
               Decision.redis := {[ "watchlist:ips" := Redis.RSet {[ "10.0.0.7" ]} ]} |} in
  let so := {| Decision.so_event_id := "0b9d0d6e-2c1f-4a53-9b7e-6d5c4b3a2f10";
               Decision.so_scores :=
                 {| Decision.xgb := 0.6; Decision.nn := 0.6; Decision.rules := 0.6;
                    Decision.ensemble := 0.6; Decision.calibrated := 0.65 |};
               Decision.model_version := "m1" |} in
  (fun d => (Decision.action d, Decision.reasons d, Decision.watchlist_hits d))
    <$> (Decision.make_decision default_call so "acct-1" (Some "10.0.0.7") None st).2
  = Some ("hold", ["low_risk"; "normal_velocity"; "ip_watchlist"], ["ip_watchlist"]).
Proof. vm_compute. reflexivity. Qed.


(** The built-in policies only name actions of the domain. *)
Lemma default_policy_in_domain : actions_in_domain Decision.default_policy.
Proof.
  intros [] r H; cbn in H; injection H as <-; cbn; auto.
Qed.

Lemma fallback_policy_in_domain : actions_in_domain Decision.fallback_policy.
Proof.
  intros [] r H; cbn in H; try discriminate H; injection H as <-; cbn; auto.
Qed.

(** ** decision-svc: the baseline rules *)

Lemma Qle_bool_false (x y : Q) : Qle_bool x y = false <-> ~ (x <= y)%Q.
Proof.
  rewrite <- Qle_bool_iff. destruct (Qle_bool x y); split; congruence.
Qed.

Ltac q_cases :=
  repeat match goal with
         | |- context [Qle_bool ?a ?b] =>
             let E := fresh "E" in
             destruct (Qle_bool a b) eqn:E;
             [apply Qle_bool_iff in E | apply Qle_bool_false in E]
         end.

(** C2.  With the default settings and numeric [velocity_1h] and
    [ip_risk] features, [decide] returns: block iff the calibrated score is
    at least 0.90, or the IP risk is at least 0.8 and the score at least
    0.80; otherwise hold iff the score is at least 0.70 or the velocity at
    least 8; otherwise allow.  The reasons contain "velocity_high" iff the
    velocity is at least 8, "ip_proxy_match" iff the IP risk is at least
    0.8, and "untrusted_channel" iff the channel is not "mobile". *)
Theorem baseline_decision_rules
    (py_float : string -> option Q) (p : Policy.payload) (v r : Q) :
  Policy.velocity_1h p = Some v ->
  Policy.ip_risk py_float p = Some r ->
  exists action reasons,
    Policy.decide py_float Policy.settings p = Some (action, reasons)
    /\ let s := Policy.calibrated p in
       let block := (0.90 <= s \/ (0.8 <= r /\ 0.80 <= s))%Q in
       let hold := (0.70 <= s \/ 8 <= v)%Q in
       (action = "block" <-> block)
       /\ (action = "hold" <-> ~ block /\ hold)
       /\ (action = "allow" <-> ~ block /\ ~ hold)
       /\ (In "velocity_high" reasons <-> (8 <= v)%Q)
       /\ (In "ip_proxy_match" reasons <-> (0.8 <= r)%Q)
       /\ (In "untrusted_channel" reasons <-> Policy.channel p <> Some "mobile").
Proof.
  intros Hv Hr. unfold Policy.decide. rewrite Hv, Hr. cbn [mbind option_bind].
  assert (Hu : Policy.untrusted Policy.settings p = true
               <-> Policy.channel p <> Some "mobile").
  { unfold Policy.untrusted. destruct (Policy.channel p) as [c|]; cbn.
    - rewrite orb_false_r. destruct (String.eqb c "mobile") eqn:E; cbn.
      + apply String.eqb_eq in E. subst. split; [discriminate | congruence].
      + apply String.eqb_neq in E. split; [congruence | reflexivity].
    - split; [discriminate | reflexivity]. }
  destruct (Policy.untrusted Policy.settings p);
  change (Policy.BLOCK_THRESHOLD Policy.settings) with 0.90%Q;
  change (Policy.HOLD_THRESHOLD Policy.settings) with 0.70%Q;
  set (s := Policy.calibrated p) in *;
  q_cases; cbn; eexists _, _; (split; [reflexivity|]); cbv zeta;
  repeat split; intros;
  repeat match goal with
         | H : _ /\ _ |- _ => destruct H
         | H : _ \/ _ |- _ => destruct H
         | H : False |- _ => destruct H
         | H : In _ _ |- _ => cbn in H
         end;
  first [ discriminate
        | tauto
        | Lqa.lra
        | exfalso; Lqa.lra
        | cbn; tauto
        | apply Hu; reflexivity
        | exfalso;
          match goal with H : _ <> _ |- _ => apply Hu in H; discriminate H end
        | left; Lqa.lra
        | right; split; Lqa.lra
        | right; Lqa.lra
        | intros [?|[? ?]]; Lqa.lra
        | intros [?|?]; Lqa.lra ].
Qed.


(** The payload of the repository's test [test_block_decision_ip_proxy]. *)
Definition ip_proxy_payload : Policy.payload :=
  {| Policy.scores := {[ "calibrated" := 0.85%Q ]};
     Policy.features :=
       Some {[ "velocity_1h" := Policy.FNum 3; "ip_risk" := Policy.FNum 0.9 ]};
     Policy.channel := Some "web" |}.

Lemma baseline_decision_rules_witness :
  (Policy.velocity_1h ip_proxy_payload = Some 3%Q
   /\ Policy.ip_risk (fun _ => None) ip_proxy_payload = Some 0.9%Q)
  /\ exists action reasons,
       Policy.decide (fun _ => None) Policy.settings ip_proxy_payload
         = Some (action, reasons)
       /\ let s := Policy.calibrated ip_proxy_payload in
          let block := (0.90 <= s \/ (0.8 <= 0.9 /\ 0.80 <= s))%Q in
          let hold := (0.70 <= s \/ 8 <= 3)%Q in
          (action = "block" <-> block)
          /\ (action = "hold" <-> ~ block /\ hold)
          /\ (action = "allow" <-> ~ block /\ ~ hold)
          /\ (In "velocity_high" reasons <-> (8 <= 3)%Q)
          /\ (In "ip_proxy_match" reasons <-> (0.8 <= 0.9)%Q)
          /\ (In "untrusted_channel" reasons
              <-> Policy.channel ip_proxy_payload <> Some "mobile").
Proof.
  assert (H1 : Policy.velocity_1h ip_proxy_payload = Some 3%Q) by reflexivity.
  assert (H2 : Policy.ip_risk (fun _ => None) ip_proxy_payload = Some 0.9%Q)
    by reflexivity.
  split; [split; assumption|].
  exact (baseline_decision_rules (fun _ => None) ip_proxy_payload 3 0.9 H1 H2).
Defined.

(** The decisions the repository's unit tests expect. *)
Example decide_ip_proxy :
  Policy.decide (fun _ => None) Policy.settings ip_proxy_payload
  = Some ("block", ["ip_proxy_match"; "untrusted_channel"]).
Proof. vm_compute. reflexivity. Qed.

Example decide_allow :
  Policy.decide (fun _ => None) Policy.settings
    {| Policy.scores := {[ "calibrated" := 0.3%Q ]};
       Policy.features :=
         Some {[ "velocity_1h" := Policy.FNum 3; "ip_risk" := Policy.FNum 0.4 ]};
       Policy.channel := Some "mobile" |}
  = Some ("allow", []).
Proof. vm_compute. reflexivity. Qed.

Example decide_hold_velocity :
  Policy.decide (fun _ => None) Policy.settings
    {| Policy.scores := {[ "calibrated" := 0.5%Q ]};
       Policy.features :=
         Some {[ "velocity_1h" := Policy.FNum 10; "ip_risk" := Policy.FNum 0.4 ]};
       Policy.channel := Some "web" |}
  = Some ("hold", ["velocity_high"; "untrusted_channel"]).
Proof. vm_compute. reflexivity. Qed.

(** A [str] where a number is expected makes [decide] raise. *)
Example decide_raises_on_text :
  Policy.decide (fun _ => None) Policy.settings
    {| Policy.scores := {[ "calibrated" := 0.5%Q ]};
       Policy.features := Some {[ "velocity_1h" := Policy.FStr "many" ]};
       Policy.channel := Some "web" |}
  = None.
Proof. vm_compute. reflexivity. Qed.

(** ** score-svc: the rules score *)

(** The baseline as the specification words it: a sum of weighted
    predicates, clamped to 1. *)
Definition when (b : bool) (w : Q) : Q := if b then w else 0%Q.

Definition shipped_baseline (amount : option Q) (velocity_1h : Z)
    (ip_risk geo_distance_km merchant_risk : Q) : Q :=
  let total :=
    (when (match amount with Some a => PyNum.ltb 10000 a | None => false end) 0.3
     + (if 10 <? velocity_1h then 0.4 else when (5 <? velocity_1h) 0.2)
     + (if PyNum.ltb 0.8 ip_risk then 0.3 else when (PyNum.ltb 0.5 ip_risk) 0.1)
     + (if PyNum.ltb 1000 geo_distance_km then 0.2
        else when (PyNum.ltb 500 geo_distance_km) 0.1)
     + when (PyNum.ltb 0.7 merchant_risk) 0.2)%Q in
  if Qle_bool total 1 then total else 1%Q.

(** What the stub of [app/models.py] computes instead. *)
Definition stub_baseline (f : Models.feats) : Q :=
  let total :=
    (when (8 <=? Models.velocity_1h f) 0.35
     + when (Qle_bool 0.8 (Models.ip_risk f)) 0.35
     + when (Qle_bool 2000 (Models.amount f)) 0.2)%Q in
  if Qle_bool total 1 then total else 1%Q.

Lemma ltb_nonzero (c a : Q) :
  (0 <= c)%Q -> PyNum.ltb c a = true -> Feature.nonzero a = true.
Proof.
  unfold PyNum.ltb, Feature.nonzero. intros Hc H.
  apply negb_true_iff in H. apply Qle_bool_false in H.
  apply negb_true_iff. destruct (Qeq_bool a 0) eqn:E; [|reflexivity].
  apply Qeq_bool_iff in E. exfalso. apply H. rewrite E. exact Hc.
Qed.

(** A velocity of 8 and nothing else: the stub scores 0.35, the shipped
    baseline 0. *)
Definition velocity_eight : Models.feats :=
  {| Models.amount := 0; Models.velocity_1h := 8; Models.ip_risk := 0;
     Models.geo_distance_km := 0; Models.merchant_risk := 0 |}.

(** C4 as stated fails on the rules score of [app/models.py]. *)
Lemma rules_score_counterexample :
  ~ (Models.rules_score velocity_eight
     == shipped_baseline (Some (Models.amount velocity_eight))
          (Models.velocity_1h velocity_eight) (Models.ip_risk velocity_eight)
          (Models.geo_distance_km velocity_eight)
          (Models.merchant_risk velocity_eight))%Q.
Proof. vm_compute. discriminate. Qed.

Lemma compute_rule_score_baseline (fv : Feature.FeatureVector) :
  (Score.compute_rule_score fv
   == shipped_baseline (Feature.amount fv) (Feature.velocity_1h fv)
        (Feature.ip_risk fv) (Feature.geo_distance_km fv)
        (Feature.merchant_risk fv))%Q
  /\ (0 <= Score.compute_rule_score fv <= 1)%Q.
Proof.
  assert (Hamt : match Feature.amount fv with
                 | Some a => Feature.nonzero a && PyNum.ltb 10000 a
                 | None => false
                 end
                 = match Feature.amount fv with
                   | Some a => PyNum.ltb 10000 a
                   | None => false
                   end).
  { destruct (Feature.amount fv) as [a|]; [|reflexivity].
    destruct (PyNum.ltb 10000 a) eqn:E; [|apply andb_false_r].
    rewrite (ltb_nonzero 10000 a); [reflexivity | discriminate | exact E]. }
  unfold Score.compute_rule_score, shipped_baseline, PyNum.min, when.
  destruct (Feature.amount fv) as [a|];
    [rewrite Hamt; destruct (PyNum.ltb 10000 a)|];
  destruct (10 <? Feature.velocity_1h fv);
  destruct (5 <? Feature.velocity_1h fv);
  destruct (PyNum.ltb 0.8 (Feature.ip_risk fv));
  destruct (PyNum.ltb 0.5 (Feature.ip_risk fv));
  destruct (PyNum.ltb 1000 (Feature.geo_distance_km fv));
  destruct (PyNum.ltb 500 (Feature.geo_distance_km fv));
  destruct (PyNum.ltb 0.7 (Feature.merchant_risk fv));
  vm_compute; intuition discriminate.
Qed.

Lemma rules_score_stub (f : Models.feats) :
  (Models.rules_score f == stub_baseline f)%Q
  /\ (0 <= Models.rules_score f <= 1)%Q.
Proof.
  unfold Models.rules_score, stub_baseline, PyNum.min, when.
  destruct (8 <=? Models.velocity_1h f);
  destruct (Qle_bool 0.8 (Models.ip_risk f));
  destruct (Qle_bool 2000 (Models.amount f));
  vm_compute; intuition discriminate.
Qed.

(** C4, amended.  The rules score of the service ([compute_rule_score])
    equals the shipped baseline and lies in the unit interval.  The stub
    [rules_score] adds 0.35 for a velocity of at least 8, 0.35 for an IP
    risk of at least 0.8 and 0.2 for an amount of at least 2000, is
    clamped to 1 and lies in the unit interval as well. *)
Theorem rules_score_baseline (fv : Feature.FeatureVector) (f : Models.feats) :
  (Score.compute_rule_score fv
   == shipped_baseline (Feature.amount fv) (Feature.velocity_1h fv)
        (Feature.ip_risk fv) (Feature.geo_distance_km fv)
        (Feature.merchant_risk fv))%Q
  /\ (0 <= Score.compute_rule_score fv <= 1)%Q
  /\ (Models.rules_score f == stub_baseline f)%Q
  /\ (0 <= Models.rules_score f <= 1)%Q.
Proof.
  destruct (compute_rule_score_baseline fv) as [A B].
  destruct (rules_score_stub f) as [C D].
  repeat split; try assumption; tauto.
Qed.

(** ** score-svc: the ensemble *)

Lemma ltb_true (a b : Q) : PyNum.ltb a b = true <-> (a < b)%Q.
Proof.
  unfold PyNum.ltb. rewrite negb_true_iff, Qle_bool_false. split.
  - apply Qnot_le_lt.
  - apply Qlt_not_le.
Qed.

Lemma ltb_false (a b : Q) : PyNum.ltb a b = false <-> (b <= a)%Q.
Proof.
  unfold PyNum.ltb. rewrite negb_false_iff. apply Qle_bool_iff.
Qed.

(** Rounding to the nearest integer moves a number by at most one half. *)
Lemma round_half_even_near (y : Q) :
  (- (1 # 2) <= inject_Z (PyNum.round_half_even y) - y <= 1 # 2)%Q.
Proof.
  unfold PyNum.round_half_even.
  pose proof (Qfloor_le y) as Hlo. pose proof (Qlt_floor y) as Hhi.
  set (f := Qfloor y) in *.
  assert (Hf1 : (inject_Z (f + 1) == inject_Z f + 1)%Q)
    by (rewrite inject_Z_plus; reflexivity).
  destruct (PyNum.ltb (y - inject_Z f) 0.5) eqn:E1.
  - apply ltb_true in E1. split; Lqa.lra.
  - apply ltb_false in E1.
    assert (G : (- (1 # 2) <= inject_Z (f + 1) - y <= 1 # 2)%Q)
      by (rewrite Hf1; split; Lqa.lra).
    destruct (PyNum.ltb 0.5 (y - inject_Z f)) eqn:E2; [exact G|].
    apply ltb_false in E2.
    destruct (Z.even f); [split; Lqa.lra | exact G].
Qed.

(** [round(x, 4)] moves a number by at most half a unit of the fourth
    decimal. *)
Lemma round4_near (x : Q) : (Qabs (PyNum.round x 4 - x) <= 1 # 20000)%Q.
Proof.
  unfold PyNum.round. change (10 ^ Z.of_nat 4) with 10000.
  pose proof (round_half_even_near (x * inject_Z 10000)) as [A B].
  set (k := inject_Z (PyNum.round_half_even (x * inject_Z 10000))) in *.
  apply Qabs_Qle_condition.
  assert (E : (k / inject_Z 10000 - x == (k - x * inject_Z 10000) / inject_Z 10000)%Q)
    by (field; discriminate).
  rewrite E. change (inject_Z 10000) with (10000 # 1)%Q in *.
  split.
  - apply Qle_shift_div_l; [reflexivity | Lqa.lra].
  - apply Qle_shift_div_r; [reflexivity | Lqa.lra].
Qed.

(** All features at zero. *)
Definition all_zero : Models.feats :=
  {| Models.amount := 0; Models.velocity_1h := 0; Models.ip_risk := 0;
     Models.geo_distance_km := 0; Models.merchant_risk := 0 |}.

(** C5 as stated fails on [Ensemble] with its default weights: the
    reported ensemble score is 0.115, the weighted sum of the reported
    sub-scores under (0.5, 0.3, 0.2) is 0.105. *)
Lemma ensemble_weights_counterexample :
  let o := Models.score Models.default_ensemble all_zero in
  ~ (Qabs (Models.ensemble o
           - (0.5 * Models.xgb o + 0.3 * Models.nn o + 0.2 * Models.rules o))
     < 1e-9)%Q.
Proof. vm_compute. discriminate. Qed.

(** C5, amended.  [compute_ensemble_score] returns the weighted sum under
    the weights (0.5, 0.3, 0.2), which sum to 1.  [Ensemble] weighs its
    sub-scores with its own weights, by default (0.5, 0.4, 0.1), which sum
    to 1 as well, and reports the sum rounded to four decimals, so within
    0.00005 of it. *)
Theorem ensemble_weight_consistency
    (xgb_score nn_score rules_score : Q) (e : Models.Ensemble) (f : Models.feats) :
  (Qabs (Score.compute_ensemble_score xgb_score nn_score rules_score
         - (0.5 * xgb_score + 0.3 * nn_score + 0.2 * rules_score)) < 1e-9)%Q
  /\ (Qabs (Score.weight_xgb + Score.weight_nn + Score.weight_rules - 1) < 1e-9)%Q
  /\ (Models.raw e f
      == Models.w_xgb e * Models.xgb_predict_proba f
         + Models.w_nn e * Models.nn_predict_proba f
         + Models.w_rules e * Models.rules_score f)%Q
  /\ (Qabs (Models.ensemble (Models.score e f) - Models.raw e f) <= 0.00005)%Q
  /\ (Models.w_xgb Models.default_ensemble = 0.5
      /\ Models.w_nn Models.default_ensemble = 0.4
      /\ Models.w_rules Models.default_ensemble = 0.1)%Q
  /\ (Models.w_xgb Models.default_ensemble + Models.w_nn Models.default_ensemble
      + Models.w_rules Models.default_ensemble == 1)%Q.
Proof.
  split; [|split; [|split; [|split; [|split]]]].
  - unfold Score.compute_ensemble_score, Score.weight_xgb, Score.weight_nn,
      Score.weight_rules.
    assert (Heps : (0 < 1e-9)%Q) by reflexivity.
    set (eps := 1e-9%Q) in *. clearbody eps.
    apply Qabs_Qlt_condition. split; Lqa.lra.
  - vm_compute. reflexivity.
  - reflexivity.
  - cbn [Models.ensemble Models.score].
    eapply Qle_trans; [apply round4_near|]. vm_compute. discriminate.
  - repeat split.
  - vm_compute. reflexivity.
Qed.

(** ** score-svc: calibration *)

Section CalibrationFacts.

Local Open Scope R_scope.

Lemma calibrate_open_unit (s : R) : 0 < Score.calibrate_score s < 1.
Proof.
  unfold Score.calibrate_score.
  pose proof (exp_pos (-5 * (s - 0.5))) as He.
  set (t := exp (-5 * (s - 0.5))) in *.
  assert (Hd : 0 < 1 + t) by Lra.lra.
  split.
  - apply Rdiv_lt_0_compat; Lra.lra.
  - apply (Rmult_lt_reg_r (1 + t)); [exact Hd|].
    unfold Rdiv. rewrite Rmult_assoc, Rinv_l by Lra.lra. Lra.lra.
Qed.

Lemma calibrate_strictly_increasing (x y : R) :
  x < y -> Score.calibrate_score x < Score.calibrate_score y.
Proof.
  intros Hxy. unfold Score.calibrate_score.
  assert (He : exp (-5 * (y - 0.5)) < exp (-5 * (x - 0.5)))
    by (apply exp_increasing; Lra.lra).
  pose proof (exp_pos (-5 * (y - 0.5))) as Hy.
  unfold Rdiv. rewrite !Rmult_1_l.
  apply Rinv_lt_contravar; [|Lra.lra].
  apply Rmult_lt_0_compat; Lra.lra.
Qed.

(** The integer part is the only integer within one below. *)
Lemma Int_part_unique (x : R) (k : Z) :
  IZR k <= x < IZR k + 1 -> Int_part x = k.
Proof.
  intros [Hlo Hhi].
  destruct (base_Int_part x) as [Flo Fhi].
  assert (A : (k < Int_part x + 1)%Z).
  { apply lt_IZR. rewrite plus_IZR. Lra.lra. }
  assert (B : (Int_part x < k + 1)%Z).
  { apply lt_IZR. rewrite plus_IZR. Lra.lra. }
  lia.
Qed.

Lemma Int_part_bounds (x : R) : IZR (Int_part x) <= x < IZR (Int_part x) + 1.
Proof. destruct (base_Int_part x). split; Lra.lra. Qed.

Lemma Int_part_monotone (x y : R) : x <= y -> (Int_part x <= Int_part y)%Z.
Proof.
  intros Hxy.
  pose proof (Int_part_bounds x) as [Ax Bx].
  pose proof (Int_part_bounds y) as [Ay By].
  assert (H : (Int_part x < Int_part y + 1)%Z).
  { apply lt_IZR. rewrite plus_IZR. Lra.lra. }
  lia.
Qed.

(** Rounding stays between the integer part and its successor. *)
Lemma round_half_even_R_range (x : R) :
  (Int_part x <= PyNum.round_half_even_R x <= Int_part x + 1)%Z.
Proof.
  unfold PyNum.round_half_even_R.
  destruct (Rlt_dec _ _); [lia|].
  destruct (Rlt_dec _ _); [lia|].
  destruct (Z.even _); lia.
Qed.

Lemma round_half_even_R_monotone (x y : R) :
  x <= y -> (PyNum.round_half_even_R x <= PyNum.round_half_even_R y)%Z.
Proof.
  intros Hxy.
  pose proof (Int_part_monotone x y Hxy) as Hf.
  pose proof (round_half_even_R_range x) as Rx.
  pose proof (round_half_even_R_range y) as Ry.
  destruct (Z.eq_dec (Int_part x) (Int_part y)) as [E|NE]; [|lia].
  unfold PyNum.round_half_even_R. rewrite E.
  set (f := Int_part y) in *.
  destruct (Rlt_dec (x - IZR f) (1 / 2)) as [X1|X1].
  - destruct (Rlt_dec (y - IZR f) (1 / 2)); [lia|].
    destruct (Rlt_dec (1 / 2) (y - IZR f)); [lia|].
    destruct (Z.even f); lia.
  - destruct (Rlt_dec (y - IZR f) (1 / 2)) as [Y1|Y1]; [Lra.lra|].
    destruct (Rlt_dec (1 / 2) (x - IZR f)) as [X2|X2].
    + destruct (Rlt_dec (1 / 2) (y - IZR f)) as [Y2|Y2]; [lia | Lra.lra].
    + destruct (Rlt_dec (1 / 2) (y - IZR f)) as [Y2|Y2];
        destruct (Z.even f); lia.
Qed.

Lemma round_R_monotone (x y : R) (n : nat) :
  x <= y -> PyNum.round_R x n <= PyNum.round_R y n.
Proof.
  intros Hxy. unfold PyNum.round_R.
  assert (Hp : 0 < IZR (10 ^ Z.of_nat n)).
  { apply IZR_lt. apply Z.pow_pos_nonneg; lia. }
  apply Rmult_le_compat_r; [left; apply Rinv_0_lt_compat; exact Hp|].
  apply IZR_le, round_half_even_R_monotone.
  apply Rmult_le_compat_r; Lra.lra.
Qed.

(** Rounding a number of the unit interval to four decimals stays in it. *)
Lemma round_R_unit (x : R) : 0 <= x <= 1 -> 0 <= PyNum.round_R x 4 <= 1.
Proof.
  intros [H0 H1]. unfold PyNum.round_R.
  change (10 ^ Z.of_nat 4)%Z with 10000%Z.
  pose proof (round_half_even_R_monotone 0 (x * 10000)) as A.
  pose proof (round_half_even_R_monotone (x * 10000) 10000) as B.
  assert (E0 : PyNum.round_half_even_R 0 = 0%Z).
  { unfold PyNum.round_half_even_R.
    rewrite (Int_part_unique 0 0) by (simpl; Lra.lra).
    destruct (Rlt_dec _ _) as [|N]; [reflexivity|]. exfalso. apply N.
    simpl. Lra.lra. }
  assert (E1 : PyNum.round_half_even_R 10000 = 10000%Z).
  { unfold PyNum.round_half_even_R.
    rewrite (Int_part_unique 10000 10000) by Lra.lra.
    destruct (Rlt_dec _ _) as [|N]; [reflexivity|]. exfalso. apply N. Lra.lra. }
  rewrite E0 in A. rewrite E1 in B.
  specialize (A ltac:(Lra.lra)). specialize (B ltac:(Lra.lra)).
  apply IZR_le in A, B.
  split.
  - apply Rmult_le_pos; [exact A | Lra.lra].
  - apply (Rmult_le_reg_r 10000); [Lra.lra|].
    unfold Rdiv. rewrite Rmult_assoc, Rinv_l by Lra.lra. Lra.lra.
Qed.

End CalibrationFacts.

(** Two feature vectors whose raw ensemble scores are 0.5 and 0.500004. *)
Definition at_half : Models.feats :=
  {| Models.amount := 0; Models.velocity_1h := 8; Models.ip_risk := 0.8;
     Models.geo_distance_km := 12.5; Models.merchant_risk := 0.5 |}.

Definition above_half : Models.feats :=
  {| Models.amount := 0; Models.velocity_1h := 8; Models.ip_risk := 0.8;
     Models.geo_distance_km := 12.51; Models.merchant_risk := 0.5 |}.

Lemma raw_at_half : Q2R (Models.raw Models.default_ensemble at_half) = 0.5%R.
Proof.
  rewrite (Qeq_eqR _ 0.5%Q); [|vm_compute; reflexivity].
  unfold Q2R. simpl. Lra.lra.
Qed.

Lemma raw_above_half :
  Q2R (Models.raw Models.default_ensemble above_half) = 0.500004%R.
Proof.
  rewrite (Qeq_eqR _ 0.500004%Q); [|vm_compute; reflexivity].
  unfold Q2R. simpl. Lra.lra.
Qed.

Lemma round_R_5000 (x : R) :
  (0.5 <= x < 0.50004)%R -> PyNum.round_R x 4 = 0.5%R.
Proof.
  intros [H0 H1]. unfold PyNum.round_R.
  change (10 ^ Z.of_nat 4)%Z with 10000%Z.
  assert (E : PyNum.round_half_even_R (x * 10000) = 5000%Z).
  { unfold PyNum.round_half_even_R.
    rewrite (Int_part_unique (x * 10000) 5000) by Lra.lra.
    destruct (Rlt_dec _ _) as [|N]; [reflexivity|]. exfalso. apply N. Lra.lra. }
  rewrite E. Lra.lra.
Qed.

Lemma calibrated_at_half :
  Models.calibrated (Models.score Models.default_ensemble at_half) = 0.5%R.
Proof.
  cbn [Models.calibrated Models.score]. apply round_R_5000.
  unfold Models.calibrated_exact. rewrite raw_at_half.
  replace (-5 * (0.5 - 0.5))%R with 0%R by Lra.lra. rewrite exp_0.
  Lra.lra.
Qed.

Lemma calibrated_above_half :
  Models.calibrated (Models.score Models.default_ensemble above_half) = 0.5%R.
Proof.
  cbn [Models.calibrated Models.score]. apply round_R_5000.
  unfold Models.calibrated_exact. rewrite raw_above_half.
  set (t := (-5 * (0.500004 - 0.5))%R).
  assert (Ht : (t = -0.00002)%R) by (unfold t; Lra.lra).
  pose proof (exp_ineq1_le t) as Hlo.
  assert (Hhi : (exp t < 1)%R).
  { rewrite <- exp_0. apply exp_increasing. Lra.lra. }
  set (u := exp t) in *.
  assert (Hd : (0 < 1 + u)%R) by Lra.lra.
  split.
  - apply (Rmult_le_reg_r (1 + u)); [exact Hd|].
    unfold Rdiv. rewrite Rmult_assoc, Rinv_l by Lra.lra. Lra.lra.
  - apply (Rmult_lt_reg_r (1 + u)); [exact Hd|].
    unfold Rdiv. rewrite Rmult_assoc, Rinv_l by Lra.lra. Lra.lra.
Qed.

(** ** Binary floating point: rounding is monotone *)

Lemma round_half_even_range (x : Q) :
  Qfloor x <= PyNum.round_half_even x <= Qfloor x + 1.
Proof.
  unfold PyNum.round_half_even.
  repeat match goal with |- context [if ?b then _ else _] => destruct b end; lia.
Qed.

Lemma round_half_even_monotone (x y : Q) :
  (x <= y)%Q -> PyNum.round_half_even x <= PyNum.round_half_even y.
Proof.
  intros Hxy.
  pose proof (Qfloor_resp_le x y Hxy) as Hf.
  pose proof (round_half_even_range x) as Rx.
  pose proof (round_half_even_range y) as Ry.
  destruct (Z.eq_dec (Qfloor x) (Qfloor y)) as [E|NE]; [|lia].
  unfold PyNum.round_half_even. rewrite E.
  set (f := Qfloor y) in *.
  destruct (PyNum.ltb (x - inject_Z f) 0.5) eqn:X1;
    [repeat match goal with |- context [if ?b then _ else _] => destruct b end; lia|].
  apply ltb_false in X1.
  destruct (PyNum.ltb (y - inject_Z f) 0.5) eqn:Y1;
    [apply ltb_true in Y1; exfalso; Lqa.lra|].
  apply ltb_false in Y1.
  destruct (PyNum.ltb 0.5 (x - inject_Z f)) eqn:X2.
  - apply ltb_true in X2.
    destruct (PyNum.ltb 0.5 (y - inject_Z f)) eqn:Y2; [lia|].
    apply ltb_false in Y2. exfalso. Lqa.lra.
  - repeat match goal with |- context [if ?b then _ else _] => destruct b end; lia.
Qed.

Lemma Qfloor_Z (n : Z) : Qfloor (inject_Z n) = n.
Proof. unfold Qfloor, inject_Z. apply Z.div_1_r. Qed.

Lemma round_half_even_Z (n : Z) : PyNum.round_half_even (inject_Z n) = n.
Proof.
  unfold PyNum.round_half_even. rewrite Qfloor_Z.
  assert (H : PyNum.ltb (inject_Z n - inject_Z n) 0.5 = true).
  { apply ltb_true. Lqa.lra. }
  now rewrite H.
Qed.

Lemma round_half_even_le_Z (x : Q) (n : Z) :
  (x <= inject_Z n)%Q -> PyNum.round_half_even x <= n.
Proof.
  intros H. rewrite <- (round_half_even_Z n). now apply round_half_even_monotone.
Qed.

Lemma round_half_even_ge_Z (x : Q) (n : Z) :
  (inject_Z n <= x)%Q -> n <= PyNum.round_half_even x.
Proof.
  intros H. rewrite <- (round_half_even_Z n) at 1. now apply round_half_even_monotone.
Qed.

Lemma Qfloor_unique (x : Q) (k : Z) :
  (inject_Z k <= x < inject_Z k + 1)%Q -> Qfloor x = k.
Proof.
  intros [Hlo Hhi].
  pose proof (Qfloor_le x) as Flo. pose proof (Qlt_floor x) as Fhi.
  rewrite inject_Z_plus in Fhi. change (inject_Z 1) with 1%Q in Fhi.
  assert (A : k < Qfloor x + 1).
  { rewrite Zlt_Qlt, inject_Z_plus. change (inject_Z 1) with 1%Q. Lqa.lra. }
  assert (B : Qfloor x < k + 1).
  { rewrite Zlt_Qlt, inject_Z_plus. change (inject_Z 1) with 1%Q. Lqa.lra. }
  lia.
Qed.

(** Ties go to the even neighbour on both sides of zero. *)
Lemma round_half_even_opp (x : Q) :
  PyNum.round_half_even (- x) = - PyNum.round_half_even x.
Proof.
  pose proof (Qfloor_le x) as Flo. pose proof (Qlt_floor x) as Fhi.
  rewrite inject_Z_plus in Fhi. change (inject_Z 1) with 1%Q in Fhi.
  set (f := Qfloor x) in *.
  destruct (Qeq_dec x (inject_Z f)) as [E|NE].
  - assert (Hx : PyNum.round_half_even x = f).
    { unfold PyNum.round_half_even. fold f.
      assert (H : PyNum.ltb (x - inject_Z f) 0.5 = true) by (apply ltb_true; Lqa.lra).
      now rewrite H. }
    assert (Hf : Qfloor (- x) = - f).
    { apply Qfloor_unique. rewrite inject_Z_opp. split; Lqa.lra. }
    rewrite Hx. unfold PyNum.round_half_even. rewrite Hf.
    assert (H : PyNum.ltb (- x - inject_Z (- f)) 0.5 = true).
    { apply ltb_true. rewrite inject_Z_opp. Lqa.lra. }
    now rewrite H.
  - assert (Hlt : (inject_Z f < x)%Q).
    { apply Qle_lt_or_eq in Flo. destruct Flo as [L|L]; [exact L|].
      exfalso. apply NE. symmetry. exact L. }
    assert (Hf : Qfloor (- x) = - f - 1).
    { apply Qfloor_unique.
      unfold Z.sub. rewrite inject_Z_plus, !inject_Z_opp.
      change (inject_Z 1) with 1%Q. split; Lqa.lra. }
    unfold PyNum.round_half_even. rewrite Hf. fold f.
    assert (Hd : (- x - inject_Z (- f - 1) == 1 - (x - inject_Z f))%Q).
    { unfold Z.sub. rewrite inject_Z_plus, !inject_Z_opp.
      change (inject_Z 1) with 1%Q. Lqa.lra. }
    set (d := (x - inject_Z f)%Q) in *.
    set (d' := (- x - inject_Z (- f - 1))%Q) in *.
    destruct (PyNum.ltb d 0.5) eqn:D1.
    + apply ltb_true in D1.
      assert (A : PyNum.ltb d' 0.5 = false) by (apply ltb_false; Lqa.lra).
      assert (B : PyNum.ltb 0.5 d' = true) by (apply ltb_true; Lqa.lra).
      rewrite A, B. lia.
    + apply ltb_false in D1.
      destruct (PyNum.ltb 0.5 d) eqn:D2.
      * apply ltb_true in D2.
        assert (A : PyNum.ltb d' 0.5 = true) by (apply ltb_true; Lqa.lra).
        rewrite A. lia.
      * apply ltb_false in D2.
        assert (A : PyNum.ltb d' 0.5 = false) by (apply ltb_false; Lqa.lra).
        assert (B : PyNum.ltb 0.5 d' = false) by (apply ltb_false; Lqa.lra).
        rewrite A, B.
        replace (- f - 1) with (- (f + 1)) by lia.
        rewrite Z.even_opp, Z.even_add. cbn [Z.even].
        destruct (Z.even f); cbn; lia.
Qed.

Lemma pow2_pos (e : Z) : (0 < 2 ^ e)%Q.
Proof. apply Qpower_0_lt. reflexivity. Qed.

Lemma pow2_le (a b : Z) : a <= b -> (2 ^ a <= 2 ^ b)%Q.
Proof. intros H. apply Qpower_le_compat_l; [exact H | discriminate]. Qed.

Lemma pow2_lt (a b : Z) : a < b -> (2 ^ a < 2 ^ b)%Q.
Proof. intros H. apply Qpower_lt_compat_l; [exact H | reflexivity]. Qed.

Lemma pow2_Z (n : Z) : 0 <= n -> (2 ^ n == inject_Z (2 ^ n))%Q.
Proof. intros H. symmetry. apply (Zpower_Qpower 2 n H). Qed.

Lemma pow2_quotient (a b : Z) : (2 ^ a / 2 ^ b == 2 ^ (a - b))%Q.
Proof. symmetry. apply Qpower_minus. discriminate. Qed.

(** The binade of a positive rational holds it. *)
Lemma binade_spec (x : Q) :
  (0 < x)%Q -> (2 ^ F64.binade x <= x < 2 ^ (F64.binade x + 1))%Q.
Proof.
  intros Hx. unfold F64.binade.
  destruct x as [n d].
  assert (Hn : 0 < n).
  { unfold Qlt in Hx. cbn in Hx. lia. }
  cbn [Qnum Qden].
  set (a := Z.log2 n). set (b := Z.log2 (Z.pos d)).
  pose proof (Z.log2_nonneg n) as Ha. fold a in Ha.
  pose proof (Z.log2_nonneg (Z.pos d)) as Hb. fold b in Hb.
  destruct (Z.log2_spec n Hn) as [An Bn]. fold a in An, Bn.
  destruct (Z.log2_spec (Z.pos d) eq_refl) as [Ad Bd]. fold b in Ad, Bd.
  set (x := n # d) in *.
  set (N := inject_Z n). set (D := inject_Z (Z.pos d)).
  assert (HxD : (x * D == N)%Q).
  { unfold x, N, D. rewrite (Qmake_Qdiv n d). field. discriminate. }
  assert (HD : (0 < D)%Q) by reflexivity.
  assert (A1 : (2 ^ a <= N)%Q).
  { rewrite pow2_Z by exact Ha. unfold N. now rewrite <- Zle_Qle. }
  assert (A2 : (N < 2 ^ (a + 1))%Q).
  { rewrite pow2_Z by lia. unfold N. rewrite <- Zlt_Qlt. exact Bn. }
  assert (B1 : (2 ^ b <= D)%Q).
  { rewrite pow2_Z by exact Hb. unfold D. now rewrite <- Zle_Qle. }
  assert (B2 : (D < 2 ^ (b + 1))%Q).
  { rewrite pow2_Z by lia. unfold D. rewrite <- Zlt_Qlt. exact Bd. }
  pose proof (pow2_pos b) as Pb. pose proof (pow2_pos (b + 1)) as Pb1.
  pose proof (pow2_pos a) as Pa.
  assert (Up : (x < 2 ^ (a - b + 1))%Q).
  { replace (a - b + 1) with (a + 1 - b) by lia.
    rewrite <- pow2_quotient. apply Qlt_shift_div_l; [exact Pb|]. Lqa.nra. }
  assert (Lo : (2 ^ (a - b - 1) < x)%Q).
  { replace (a - b - 1) with (a - (b + 1)) by lia.
    rewrite <- pow2_quotient. apply Qlt_shift_div_r; [exact Pb1|]. Lqa.nra. }
  destruct (Qle_bool (2 ^ (a - b)) x) eqn:E.
  - apply Qle_bool_iff in E. split; assumption.
  - apply Qle_bool_false in E. apply Qnot_le_lt in E.
    replace (a - b - 1 + 1) with (a - b) by lia.
    split; [apply Qlt_le_weak, Lo | exact E].
Qed.

Lemma binade_unique (x : Q) (e : Z) :
  (2 ^ e <= x < 2 ^ (e + 1))%Q -> F64.binade x = e.
Proof.
  intros [Hlo Hhi].
  assert (Hx : (0 < x)%Q) by (pose proof (pow2_pos e); Lqa.lra).
  destruct (binade_spec x Hx) as [Blo Bhi].
  set (k := F64.binade x) in *.
  destruct (Z.lt_trichotomy k e) as [L|[E|G]]; [|exact E|].
  - exfalso. pose proof (pow2_le (k + 1) e ltac:(lia)). Lqa.lra.
  - exfalso. pose proof (pow2_le (e + 1) k ltac:(lia)). Lqa.lra.
Qed.

Lemma binade_monotone (x y : Q) :
  (0 < x)%Q -> (x <= y)%Q -> F64.binade x <= F64.binade y.
Proof.
  intros Hx Hxy.
  destruct (binade_spec x Hx) as [Xlo Xhi].
  destruct (binade_spec y ltac:(Lqa.lra)) as [Ylo Yhi].
  destruct (Z_le_gt_dec (F64.binade x) (F64.binade y)) as [L|G]; [exact L|].
  exfalso. pose proof (pow2_le (F64.binade y + 1) (F64.binade x) ltac:(lia)).
  Lqa.lra.
Qed.

Lemma round_half_even_comp (x y : Q) :
  (x == y)%Q -> PyNum.round_half_even x = PyNum.round_half_even y.
Proof.
  intros E. apply Z.le_antisymm; apply round_half_even_monotone; rewrite E;
    apply Qle_refl.
Qed.

Lemma ulp_pos (x : Q) : (0 < F64.ulp x)%Q.
Proof. apply pow2_pos. Qed.

Lemma Qabs_opp_eq (x : Q) : Qabs (- x) = Qabs x.
Proof. destruct x as [n d]. unfold Qabs, Qopp. cbn. now rewrite Z.abs_opp. Qed.

Lemma Qabs_pos_eq (x : Q) : (0 < x)%Q -> Qabs x = x.
Proof.
  destruct x as [n d]. unfold Qlt, Qabs. cbn. intros H.
  f_equal. apply Z.abs_eq. lia.
Qed.

Lemma ulp_opp (x : Q) : F64.ulp (- x) = F64.ulp x.
Proof. unfold F64.ulp. now rewrite Qabs_opp_eq. Qed.

(** The value of [round], without the normal form. *)
Lemma round_eq (x : Q) :
  (F64.round x == inject_Z (PyNum.round_half_even (x / F64.ulp x)) * F64.ulp x)%Q.
Proof.
  unfold F64.round. destruct (Qeq_bool x 0) eqn:E.
  - apply Qeq_bool_eq in E.
    rewrite (round_half_even_comp (x / F64.ulp x) (inject_Z 0)).
    + rewrite round_half_even_Z. change (inject_Z 0) with 0%Q. ring.
    + change (inject_Z 0) with 0%Q. unfold Qdiv.
      set (v := (/ F64.ulp x)%Q). clearbody v. rewrite E. ring.
  - apply Qred_correct.
Qed.

Lemma round_opp (x : Q) : (F64.round (- x) == - F64.round x)%Q.
Proof.
  rewrite !round_eq, ulp_opp.
  rewrite (round_half_even_comp (- x / F64.ulp x) (- (x / F64.ulp x))).
  - rewrite round_half_even_opp, inject_Z_opp. ring.
  - unfold Qdiv. ring.
Qed.

Lemma round_nonneg (x : Q) : (0 <= x)%Q -> (0 <= F64.round x)%Q.
Proof.
  intros Hx. rewrite round_eq.
  pose proof (ulp_pos x) as Hu.
  assert (H : 0 <= PyNum.round_half_even (x / F64.ulp x)).
  { apply round_half_even_ge_Z. change (inject_Z 0) with 0%Q.
    apply Qle_shift_div_l; [exact Hu | Lqa.lra]. }
  rewrite Zle_Qle in H. change (inject_Z 0) with 0%Q in H. Lqa.nra.
Qed.

Lemma round_monotone_pos (x y : Q) :
  (0 < x)%Q -> (x <= y)%Q -> (F64.round x <= F64.round y)%Q.
Proof.
  intros Hx Hxy.
  assert (Hy : (0 < y)%Q) by Lqa.lra.
  rewrite !round_eq. unfold F64.ulp.
  rewrite (Qabs_pos_eq x Hx), (Qabs_pos_eq y Hy).
  destruct (binade_spec x Hx) as [Xlo Xhi].
  destruct (binade_spec y Hy) as [Ylo Yhi].
  pose proof (binade_monotone x y Hx Hxy) as Hb.
  set (ex := F64.binade x) in *. set (ey := F64.binade y) in *.
  set (Ex := Z.max ex (-1022)). set (Ey := Z.max ey (-1022)).
  pose proof (pow2_pos (Ex - 52)) as Ux. pose proof (pow2_pos (Ey - 52)) as Uy.
  set (ux := (2 ^ (Ex - 52))%Q) in *. set (uy := (2 ^ (Ey - 52))%Q) in *.
  destruct (Z.eq_dec Ex Ey) as [E|NE].
  - assert (Eu : ux = uy) by (unfold ux, uy; now rewrite E).
    rewrite Eu.
    assert (H : PyNum.round_half_even (x / uy) <= PyNum.round_half_even (y / uy)).
    { apply round_half_even_monotone.
      apply Qle_shift_div_l; [exact Uy|].
      unfold Qdiv. rewrite <- Qmult_assoc, (Qmult_comm (/ uy)), Qmult_inv_r; Lqa.lra. }
    rewrite Zle_Qle in H. Lqa.nra.
  - assert (Hlt : Ex < Ey) by (unfold Ex, Ey in *; lia).
    assert (Hey : Ey = ey) by (unfold Ex, Ey in *; lia).
    assert (Hex : ex <= Ex) by (unfold Ex; lia).
    assert (B1 : (2 ^ (Ex + 1) / ux == inject_Z (2 ^ 53))%Q).
    { unfold ux. rewrite pow2_quotient.
      replace (Ex + 1 - (Ex - 52)) with 53 by lia. reflexivity. }
    assert (B2 : (2 ^ Ey / uy == inject_Z (2 ^ 52))%Q).
    { unfold uy. rewrite pow2_quotient.
      replace (Ey - (Ey - 52)) with 52 by lia. reflexivity. }
    assert (Hx' : PyNum.round_half_even (x / ux) <= 2 ^ 53).
    { apply round_half_even_le_Z. rewrite <- B1.
      apply Qle_shift_div_l; [exact Ux|].
      unfold Qdiv at 1. rewrite <- Qmult_assoc, (Qmult_comm (/ ux)), Qmult_inv_r, Qmult_1_r
        by Lqa.lra.
      pose proof (pow2_le (ex + 1) (Ex + 1) ltac:(lia)). Lqa.lra. }
    assert (Hy' : 2 ^ 52 <= PyNum.round_half_even (y / uy)).
    { apply round_half_even_ge_Z. rewrite <- B2.
      apply Qle_shift_div_l; [exact Uy|].
      unfold Qdiv at 1. rewrite <- Qmult_assoc, (Qmult_comm (/ uy)), Qmult_inv_r, Qmult_1_r
        by Lqa.lra.
      rewrite Hey. exact Ylo. }
    rewrite Zle_Qle in Hx', Hy'.
    assert (C1 : (inject_Z (2 ^ 53) * ux == 2 ^ (Ex + 1))%Q).
    { rewrite <- B1. field. Lqa.lra. }
    assert (C2 : (inject_Z (2 ^ 52) * uy == 2 ^ Ey)%Q).
    { rewrite <- B2. field. Lqa.lra. }
    pose proof (pow2_le (Ex + 1) Ey ltac:(lia)) as Hmid.
    apply Qle_trans with (2 ^ (Ex + 1))%Q.
    + rewrite <- C1. Lqa.nra.
    + apply Qle_trans with (2 ^ Ey)%Q; [exact Hmid|].
      rewrite <- C2. Lqa.nra.
Qed.

(** Rounding to the nearest double never reverses an order. *)
Lemma round_monotone (x y : Q) : (x <= y)%Q -> (F64.round x <= F64.round y)%Q.
Proof.
  intros Hxy.
  destruct (Qlt_le_dec 0 x) as [Hx|Hx]; [now apply round_monotone_pos|].
  destruct (Qlt_le_dec y 0) as [Hy|Hy].
  - assert (H : (F64.round (- y) <= F64.round (- x))%Q)
      by (apply round_monotone_pos; Lqa.lra).
    rewrite !round_opp in H. Lqa.lra.
  - pose proof (round_nonneg y Hy) as Ny.
    pose proof (round_nonneg (- x) ltac:(Lqa.lra)) as Nx.
    rewrite round_opp in Nx. Lqa.lra.
Qed.

Lemma round_comp (x y : Q) : (x == y)%Q -> (F64.round x == F64.round y)%Q.
Proof.
  intros E. apply Qle_antisym; apply round_monotone; rewrite E; apply Qle_refl.
Qed.

Lemma round_one : F64.round 1 = 1%Q.
Proof. vm_compute. reflexivity. Qed.

Lemma round_zero : F64.round 0 = 0%Q.
Proof. reflexivity. Qed.

(** ** score-svc: calibration as it is computed *)

(** The double written [1e-17]. *)
Definition tiny : Q := F64.round (1 # 100000000000000000).

Section FloatCalibration.

(** [numpy.exp] on doubles: no value of it is negative, and it does not
    decrease when its argument grows. *)
Variable np_exp : Q -> Q.
Hypothesis np_exp_nonneg : forall t, (0 <= np_exp t)%Q.
Hypothesis np_exp_monotone : forall t u, (t <= u)%Q -> (np_exp t <= np_exp u)%Q.

Lemma denominator_ge_one (t : Q) : (1 <= F64.add 1 (np_exp t))%Q.
Proof.
  unfold F64.add. rewrite <- round_one at 1.
  apply round_monotone. pose proof (np_exp_nonneg t). Lqa.lra.
Qed.

Lemma calibrate_score_f64_unit (s : Q) :
  (0 <= Score.calibrate_score_f64 np_exp s <= 1)%Q.
Proof.
  unfold Score.calibrate_score_f64.
  set (d := F64.add 1 (np_exp (F64.mul (-5) (F64.sub s 0.5)))).
  pose proof (denominator_ge_one (F64.mul (-5) (F64.sub s 0.5))) as Hd.
  fold d in Hd. unfold F64.div.
  assert (Hq : (0 <= 1 / d <= 1)%Q).
  { split.
    - apply Qle_shift_div_l; Lqa.lra.
    - apply Qle_shift_div_r; Lqa.lra. }
  split.
  - apply round_nonneg, Hq.
  - rewrite <- round_one. apply round_monotone, Hq.
Qed.

Lemma calibrate_score_f64_monotone (x y : Q) :
  (x <= y)%Q ->
  (Score.calibrate_score_f64 np_exp x <= Score.calibrate_score_f64 np_exp y)%Q.
Proof.
  intros Hxy. unfold Score.calibrate_score_f64.
  assert (H1 : (F64.sub x 0.5 <= F64.sub y 0.5)%Q)
    by (apply round_monotone; Lqa.lra).
  assert (H2 : (F64.mul (-5) (F64.sub y 0.5) <= F64.mul (-5) (F64.sub x 0.5))%Q)
    by (apply round_monotone; Lqa.lra).
  apply np_exp_monotone in H2.
  pose proof (denominator_ge_one (F64.mul (-5) (F64.sub x 0.5))) as Dx.
  pose proof (denominator_ge_one (F64.mul (-5) (F64.sub y 0.5))) as Dy.
  assert (H3 : (F64.add 1 (np_exp (F64.mul (-5) (F64.sub y 0.5)))
                <= F64.add 1 (np_exp (F64.mul (-5) (F64.sub x 0.5))))%Q)
    by (apply round_monotone; Lqa.lra).
  set (dx := F64.add 1 (np_exp (F64.mul (-5) (F64.sub x 0.5)))) in *.
  set (dy := F64.add 1 (np_exp (F64.mul (-5) (F64.sub y 0.5)))) in *.
  apply round_monotone.
  apply Qle_shift_div_l; [Lqa.lra|].
  assert (E : (1 / dx * dy == dy / dx)%Q) by (field; Lqa.lra).
  rewrite E. apply Qle_shift_div_r; Lqa.lra.
Qed.

End FloatCalibration.

(** Two doubles that differ are calibrated to the same double: the
    subtraction of one half already rounds their difference away, whatever
    the exponential is. *)
Lemma calibrate_score_f64_tie (np_exp : Q -> Q) :
  Score.calibrate_score_f64 np_exp 0 = Score.calibrate_score_f64 np_exp tiny.
Proof.
  unfold Score.calibrate_score_f64.
  assert (E : F64.mul (-5) (F64.sub 0 0.5) = F64.mul (-5) (F64.sub tiny 0.5))
    by (vm_compute; reflexivity).
  now rewrite E.
Qed.

(** C6 as stated fails twice.  On the calibrated score [Ensemble.score]
    returns: the raw ensemble score grows from 0.5 to 0.500004 and the
    calibrated score stays at 0.5.  On [calibrate_score] as it is computed:
    the scores 0.0 and 1e-17 are calibrated to the same double. *)
Lemma calibration_counterexample :
  ~ ((Q2R (Models.raw Models.default_ensemble at_half)
      < Q2R (Models.raw Models.default_ensemble above_half))%R ->
     (Models.calibrated (Models.score Models.default_ensemble at_half)
      < Models.calibrated (Models.score Models.default_ensemble above_half))%R)
  /\ ~ (exists np_exp : Q -> Q,
          (0 < tiny)%Q ->
          (Score.calibrate_score_f64 np_exp 0
           < Score.calibrate_score_f64 np_exp tiny)%Q).
Proof.
  split.
  - intros H. rewrite raw_at_half, raw_above_half in H.
    rewrite calibrated_at_half, calibrated_above_half in H.
    assert (A : (0.5 < 0.500004)%R) by Lra.lra.
    specialize (H A). Lra.lra.
  - intros [np_exp H].
    assert (P : (0 < tiny)%Q) by (vm_compute; reflexivity).
    specialize (H P). rewrite <- calibrate_score_f64_tie in H.
    revert H. apply Qlt_irrefl.
Qed.

(** C6, amended.  The logistic with slope 5 centred at 0.5 that
    [calibrate_score] evaluates lies strictly between 0 and 1 and is
    strictly increasing.  The value [calibrate_score] computes in binary
    floating point lies in the unit interval and, for an exponential that
    is not negative and does not decrease, it does not decrease when the
    score grows; it is not strictly increasing, the scores 0.0 and 1e-17
    give the same value.  [Ensemble.score] computes the same logistic of
    its raw ensemble score and returns it rounded to four decimals: the
    returned value lies in the unit interval and does not decrease when the
    raw score grows. *)
Theorem calibration_logistic_monotone (np_exp : Q -> Q) :
  (forall t, (0 <= np_exp t)%Q) ->
  (forall t u, (t <= u)%Q -> (np_exp t <= np_exp u)%Q) ->
  (forall s : R,
     Score.calibrate_score s = (1 / (1 + exp (-5 * (s - 0.5))))%R
     /\ (0 < Score.calibrate_score s < 1)%R)
  /\ (forall x y : R,
        (x < y)%R -> (Score.calibrate_score x < Score.calibrate_score y)%R)
  /\ (forall s : Q,
        Score.calibrate_score_f64 np_exp s
        = F64.div 1 (F64.add 1 (np_exp (F64.mul (-5) (F64.sub s 0.5))))
        /\ (0 <= Score.calibrate_score_f64 np_exp s <= 1)%Q)
  /\ (forall x y : Q,
        (x <= y)%Q ->
        (Score.calibrate_score_f64 np_exp x <= Score.calibrate_score_f64 np_exp y)%Q)
  /\ ((0 < tiny)%Q
      /\ Score.calibrate_score_f64 np_exp 0 = Score.calibrate_score_f64 np_exp tiny)
  /\ (forall (e : Models.Ensemble) (f : Models.feats),
        Models.calibrated (Models.score e f)
        = PyNum.round_R (Score.calibrate_score (Q2R (Models.raw e f))) 4
        /\ (0 <= Models.calibrated (Models.score e f) <= 1)%R)
  /\ (forall (e : Models.Ensemble) (f1 f2 : Models.feats),
        (Models.raw e f1 <= Models.raw e f2)%Q ->
        (Models.calibrated (Models.score e f1)
         <= Models.calibrated (Models.score e f2))%R).
Proof.
  intros Hpos Hmono.
  split; [|split; [|split; [|split; [|split; [|split]]]]].
  - intros s. split; [reflexivity | apply calibrate_open_unit].
  - exact calibrate_strictly_increasing.
  - intros s. split; [reflexivity|].
    apply calibrate_score_f64_unit, Hpos.
  - intros x y. apply calibrate_score_f64_monotone; assumption.
  - split; [vm_compute; reflexivity | apply calibrate_score_f64_tie].
  - intros e f. split; [reflexivity|].
    apply round_R_unit.
    pose proof (calibrate_open_unit (Q2R (Models.raw e f))) as H.
    unfold Models.calibrated_exact. unfold Score.calibrate_score in H. Lra.lra.
  - intros e f1 f2 H. cbn [Models.calibrated Models.score].
    apply round_R_monotone.
    apply Qle_Rle in H.
    destruct (Rle_lt_or_eq_dec _ _ H) as [L|E].
    + left. exact (calibrate_strictly_increasing _ _ L).
    + right. unfold Models.calibrated_exact. rewrite E. reflexivity.
Qed.

(** A stand-in for the exponential that is positive and increasing: one
    over [1 - t] below zero and [1 + t] from zero on. *)
Definition exp_like (t : Q) : Q :=
  if PyNum.ltb t 0 then (1 / (1 - t))%Q else (1 + t)%Q.

Lemma exp_like_nonneg (t : Q) : (0 <= exp_like t)%Q.
Proof.
  unfold exp_like. destruct (PyNum.ltb t 0) eqn:E.
  - apply ltb_true in E. apply Qle_shift_div_l; Lqa.lra.
  - apply ltb_false in E. Lqa.lra.
Qed.

Lemma exp_like_monotone (t u : Q) : (t <= u)%Q -> (exp_like t <= exp_like u)%Q.
Proof.
  intros H. unfold exp_like.
  destruct (PyNum.ltb t 0) eqn:Et; destruct (PyNum.ltb u 0) eqn:Eu;
    try apply ltb_true in Et; try apply ltb_false in Et;
    try apply ltb_true in Eu; try apply ltb_false in Eu.
  - apply Qle_shift_div_l; [Lqa.lra|].
    assert (E : (1 / (1 - t) * (1 - u) == (1 - u) / (1 - t))%Q) by (field; Lqa.lra).
    rewrite E. apply Qle_shift_div_r; Lqa.lra.
  - apply Qle_shift_div_r; Lqa.nra.
  - exfalso. Lqa.lra.
  - Lqa.lra.
Qed.

Lemma calibration_logistic_monotone_witness :
  ((forall t, (0 <= exp_like t)%Q)
   /\ (forall t u, (t <= u)%Q -> (exp_like t <= exp_like u)%Q))
  /\ ((forall s : R,
         Score.calibrate_score s = (1 / (1 + exp (-5 * (s - 0.5))))%R
         /\ (0 < Score.calibrate_score s < 1)%R)
      /\ (forall x y : R,
            (x < y)%R -> (Score.calibrate_score x < Score.calibrate_score y)%R)
      /\ (forall s : Q,
            Score.calibrate_score_f64 exp_like s
            = F64.div 1 (F64.add 1 (exp_like (F64.mul (-5) (F64.sub s 0.5))))
            /\ (0 <= Score.calibrate_score_f64 exp_like s <= 1)%Q)
      /\ (forall x y : Q,
            (x <= y)%Q ->
            (Score.calibrate_score_f64 exp_like x
             <= Score.calibrate_score_f64 exp_like y)%Q)
      /\ ((0 < tiny)%Q
          /\ Score.calibrate_score_f64 exp_like 0
             = Score.calibrate_score_f64 exp_like tiny)
      /\ (forall (e : Models.Ensemble) (f : Models.feats),
            Models.calibrated (Models.score e f)
            = PyNum.round_R (Score.calibrate_score (Q2R (Models.raw e f))) 4
            /\ (0 <= Models.calibrated (Models.score e f) <= 1)%R)
      /\ (forall (e : Models.Ensemble) (f1 f2 : Models.feats),
            (Models.raw e f1 <= Models.raw e f2)%Q ->
            (Models.calibrated (Models.score e f1)
             <= Models.calibrated (Models.score e f2))%R)).
Proof.
  split; [split; [exact exp_like_nonneg | exact exp_like_monotone]|].
  exact (calibration_logistic_monotone exp_like exp_like_nonneg exp_like_monotone).
Defined.

(** ** model-monitor-svc: the Brier score under self-labelling *)

Definition in_unit (p : Q) : Prop := (0 <= p <= 1)%Q.

Definition self_label (p : Q) : Z := if PyNum.ltb 0.5 p then 1 else 0.

(** A score in the unit interval is within one half of its own label. *)
Lemma self_label_error (p : Q) :
  in_unit p -> ((p - inject_Z (self_label p)) ^ 2 <= 0.25)%Q.
Proof.
  intros [H0 H1]. unfold self_label.
  destruct (PyNum.ltb 0.5 p) eqn:E.
  - apply ltb_true in E. simpl. change (inject_Z 1) with 1%Q. Lqa.nra.
  - apply ltb_false in E. simpl. change (inject_Z 0) with 0%Q. Lqa.nra.
Qed.

Lemma self_label_error_sym (p : Q) :
  in_unit p -> ((inject_Z (self_label p) - p) ^ 2 <= 0.25)%Q.
Proof.
  intros H. pose proof (self_label_error p H) as G.
  simpl in *. Lqa.nra.
Qed.

Lemma sum_bounded (c : Q) (l : list Q) (acc : Q) :
  Forall (fun t => (t <= c)%Q) l ->
  (fold_left Qplus l acc <= acc + inject_Z (Z.of_nat (length l)) * c)%Q.
Proof.
  intros H. revert acc. induction H as [|t l Ht Hl IH]; intros acc.
  - cbn [fold_left length]. change (inject_Z (Z.of_nat 0)) with 0%Q. Lqa.lra.
  - cbn [fold_left length]. eapply Qle_trans; [apply IH|].
    rewrite Nat2Z.inj_succ. unfold Z.succ. rewrite inject_Z_plus.
    change (inject_Z 1) with 1%Q. Lqa.lra.
Qed.

Lemma mean_bounded (c : Q) (l : list Q) :
  l <> [] -> Forall (fun t => (t <= c)%Q) l ->
  (PyNum.sum l / inject_Z (Z.of_nat (length l)) <= c)%Q.
Proof.
  intros Hne H. unfold PyNum.sum.
  assert (Hn : (0 < inject_Z (Z.of_nat (length l)))%Q).
  { destruct l; [congruence|]. change 0%Q with (inject_Z 0).
    rewrite <- Zlt_Qlt. cbn [length]. lia. }
  apply Qle_shift_div_r; [exact Hn|].
  pose proof (sum_bounded c l 0 H) as G. Lqa.lra.
Qed.

Lemma self_errors_bounded (scores : list Q) :
  Forall in_unit scores ->
  Forall (fun t => (t <= 0.25)%Q)
    (List.map (fun yp : Z * Q => ((snd yp - inject_Z (fst yp)) ^ 2)%Q)
       (combine (List.map self_label scores) scores))
  /\ Forall (fun t => (t <= 0.25)%Q)
       (List.map (fun yp : Z * Q => ((inject_Z (fst yp) - snd yp) ^ 2)%Q)
          (combine (List.map self_label scores) scores)).
Proof.
  induction 1 as [|p l Hp Hl [IH1 IH2]]; [split; constructor|].
  split; cbn [List.map combine]; constructor; try assumption.
  - apply self_label_error, Hp.
  - apply self_label_error_sym, Hp.
Qed.

(** The Brier score of [app/metrics.py] against the self-labels. *)
Lemma brier_score_self_labelled (scores : list Q) :
  Forall in_unit scores ->
  (Monitor.brier_score (Monitor.mock_labels scores) scores <= 0.25)%Q.
Proof.
  intros H. unfold Monitor.brier_score, Monitor.mock_labels.
  fold self_label.
  destruct scores as [|p l]; [vm_compute; discriminate|].
  change (self_label p :: List.map self_label l)
    with (List.map self_label (p :: l)).
  set (s := p :: l) in *.
  assert (Hlen : length (List.map self_label s) = length s) by apply length_map.
  cbn [List.map]. fold (List.map self_label s).
  change (self_label p :: List.map self_label l)
    with (List.map self_label s).
  rewrite Hlen, Nat.eqb_refl. cbn [negb].
  set (errs := List.map _ (combine (List.map self_label s) s)).
  assert (Hn : length errs = length s).
  { unfold errs. rewrite length_map, length_combine, Hlen. apply Nat.min_id. }
  rewrite <- Hn.
  apply mean_bounded.
  - intros E. rewrite E in Hn. discriminate Hn.
  - apply (self_errors_bounded s H).
Qed.

(** The Brier score of [main.py] against the self-labels. *)
Lemma calculate_brier_score_self_labelled (scores : list Q) :
  Forall in_unit scores ->
  (Monitor.calculate_brier_score (Monitor.true_labels scores) scores <= 0.25)%Q.
Proof.
  intros H. unfold Monitor.calculate_brier_score, Monitor.brier_score_loss,
    Monitor.true_labels.
  fold self_label.
  destruct (_ && _ && _) eqn:E; [|vm_compute; discriminate].
  cbn [default from_option].
  apply andb_true_iff in E. destruct E as [_ E].
  apply negb_true_iff, Nat.eqb_neq in E.
  set (errs := List.map _ (combine (List.map self_label scores) scores)).
  assert (Hn : length errs = length scores).
  { unfold errs. rewrite length_map, length_combine, length_map.
    apply Nat.min_id. }
  rewrite <- Hn.
  apply mean_bounded.
  - intros E'. rewrite E' in Hn. simpl in Hn. congruence.
  - apply (self_errors_bounded scores H).
Qed.

Lemma Forall_last_n {A} (P : A -> Prop) (n : nat) (l : list A) :
  Forall P l -> Forall P (Monitor.last_n n l).
Proof.
  unfold Monitor.last_n. generalize (length l - n)%nat as k.
  intros k H. revert k. induction H as [|x l Hx Hl IH]; intros [|k]; simpl;
    auto.
Qed.

(** C10.  With scores in the unit interval and each score labelled by
    whether it exceeds 0.5, every squared error is at most 0.25, so the
    Brier score put on a calibration gauge is at most 0.25, by
    [calculate_calibration_metrics] as well as by [prom_metrics], and the
    alert of the latter, raised when the Brier score exceeds 0.25, is never
    raised. *)
Theorem calibration_alert_unreachable
    (SCORES : list Q) (recent_scores : string -> list Q) :
  Forall in_unit SCORES ->
  (forall model_name, Forall in_unit (recent_scores model_name)) ->
  Forall (fun p => ((p - inject_Z (self_label p)) ^ 2 <= 0.25)%Q) SCORES
  /\ (forall brier_val alert,
        Monitor.calibration_gauge SCORES = Some (brier_val, alert) ->
        (brier_val <= 0.25)%Q /\ alert = false)
  /\ Forall (fun gauge => (snd gauge <= 0.25)%Q)
       (Monitor.calculate_calibration_metrics recent_scores).
Proof.
  intros HS HR. split; [|split].
  - eapply List.Forall_impl; [|exact HS]. intros p Hp.
    exact (self_label_error p Hp).
  - intros v alert. unfold Monitor.calibration_gauge.
    destruct (100 <=? length SCORES)%nat; [|discriminate].
    intros E. injection E as <- <-.
    pose proof (brier_score_self_labelled (Monitor.last_n 100 SCORES)
                  (Forall_last_n _ _ _ HS)) as B.
    split; [exact B|].
    apply ltb_false. exact B.
  - unfold Monitor.calculate_calibration_metrics. cbn [omap list_omap].
    repeat match goal with
           | |- context [(100 <? length ?l)%nat] =>
               destruct (100 <? length l)%nat
           end;
    repeat constructor; cbn [snd];
    apply calculate_brier_score_self_labelled, HR.
Qed.

(** A buffer of a hundred scores of 0.5, the worst case: the Brier score
    is exactly 0.25 and no alert is raised. *)
Definition all_half : list Q := repeat 0.5%Q 100.

Lemma calibration_alert_unreachable_witness :
  (Forall in_unit all_half
   /\ (forall model_name : string, Forall in_unit ((fun _ => all_half) model_name)))
  /\ (Forall (fun p => ((p - inject_Z (self_label p)) ^ 2 <= 0.25)%Q) all_half
      /\ (forall brier_val alert,
            Monitor.calibration_gauge all_half = Some (brier_val, alert) ->
            (brier_val <= 0.25)%Q /\ alert = false)
      /\ Forall (fun gauge => (snd gauge <= 0.25)%Q)
           (Monitor.calculate_calibration_metrics (fun _ => all_half))).
Proof.
  assert (H : Forall in_unit all_half).
  { apply List.Forall_forall. intros p Hp. apply repeat_spec in Hp. subst p.
    split; vm_compute; discriminate. }
  split; [split; [exact H | intros _; exact H]|].
  exact (calibration_alert_unreachable all_half (fun _ => all_half) H (fun _ => H)).
Defined.

Example worst_case_gauge :
  (fun va => (Qred (fst va), snd va)) <$> Monitor.calibration_gauge all_half
  = Some ((1 # 4)%Q, false).
Proof. vm_compute. reflexivity. Qed.

(** ** model-monitor-svc: the population stability index *)

Section PsiFacts.

Local Open Scope R_scope.

(** One summand of the index is not negative. *)
Lemma psi_summand_nonneg (a b : R) :
  0 < a -> 0 < b -> 0 <= (a - b) * ln (a / b).
Proof.
  intros Ha Hb.
  destruct (Rtotal_order a b) as [L | [E | G]].
  - assert (Hq : a / b < 1).
    { apply (Rmult_lt_reg_r b); [exact Hb|].
      unfold Rdiv. rewrite Rmult_assoc, Rinv_l by Lra.lra. Lra.lra. }
    assert (Hp : 0 < a / b) by (apply Rdiv_lt_0_compat; assumption).
    pose proof (ln_increasing _ _ Hp Hq) as Hl. rewrite ln_1 in Hl.
    replace ((a - b) * ln (a / b)) with ((b - a) * - ln (a / b)) by ring.
    apply Rmult_le_pos; Lra.lra.
  - subst. replace (b - b) with 0 by ring. rewrite Rmult_0_l. Lra.lra.
  - assert (Hq : 1 < a / b).
    { apply (Rmult_lt_reg_r b); [exact Hb|].
      unfold Rdiv. rewrite Rmult_assoc, Rinv_l by Lra.lra. Lra.lra. }
    pose proof (ln_increasing _ _ Rlt_0_1 Hq) as Hl. rewrite ln_1 in Hl.
    apply Rmult_le_pos; Lra.lra.
Qed.

Lemma Q2R_pos (x : Q) : (0 < x)%Q -> 0 < Q2R x.
Proof. intros H. apply Qlt_Rlt in H. rewrite RMicromega.Q2R_0 in H. exact H. Qed.

Lemma floor_pos (x : Q) : (0 < PyNum.max 1e-6 x)%Q.
Proof.
  unfold PyNum.max. destruct (PyNum.ltb 1e-6 x) eqn:E.
  - apply ltb_true in E. eapply Qlt_trans; [|exact E]. reflexivity.
  - reflexivity.
Qed.

Lemma psi_term_nonneg (rc : Q * Q) :
  (0 < fst rc)%Q -> (0 < snd rc)%Q -> 0 <= Monitor.psi_term rc.
Proof.
  destruct rc as [rp cp]. cbn [fst snd]. intros Hr Hc. unfold Monitor.psi_term.
  destruct (Qeq_bool cp 0).
  - rewrite Rmult_0_r. Lra.lra.
  - apply psi_summand_nonneg; apply Q2R_pos; assumption.
Qed.

Lemma psi_term_same (x : Q) : Monitor.psi_term (x, x) = 0.
Proof. unfold Monitor.psi_term. ring. Qed.

Lemma fold_sum_nonneg {A} (f : A -> R) (l : list A) (acc : R) :
  0 <= acc -> (forall i, 0 <= f i) ->
  0 <= fold_left (fun s i => s + f i) l acc.
Proof.
  intros Ha Hf. revert acc Ha. induction l as [|i l IH]; intros acc Ha.
  - exact Ha.
  - cbn [fold_left]. apply IH. specialize (Hf i). Lra.lra.
Qed.

Lemma fold_sum_zero {A} (f : A -> R) (l : list A) :
  (forall i, f i = 0) -> fold_left (fun s i => s + f i) l 0 = 0.
Proof.
  intros Hf. induction l as [|i l IH]; [reflexivity|].
  cbn [fold_left]. rewrite Hf, Rplus_0_r. exact IH.
Qed.

Lemma psi_same (A : list Q) (bins : nat) : Monitor.psi A A bins = 0.
Proof.
  unfold Monitor.psi.
  destruct (_ || _); [reflexivity|].
  destruct (Qeq_bool _ _); [reflexivity|].
  apply fold_sum_zero. intros i. unfold Monitor.bin_shares.
  apply psi_term_same.
Qed.

Lemma psi_nonneg (A B : list Q) (bins : nat) : 0 <= Monitor.psi A B bins.
Proof.
  unfold Monitor.psi.
  destruct (_ || _); [Lra.lra|].
  destruct (Qeq_bool _ _); [Lra.lra|].
  apply fold_sum_nonneg; [Lra.lra|].
  intros i. apply psi_term_nonneg; unfold Monitor.bin_shares; cbn [fst snd];
    apply floor_pos.
Qed.

Variable np_percentile : list Q -> list Q -> option (list Q).
Variable np_histogram : list Q -> list Monitor.edge -> option (list nat).

Lemma no_zero_share_pos (total n : nat) :
  (0 < Monitor.no_zero (inject_Z (Z.of_nat n) / inject_Z (Z.of_nat total)))%Q.
Proof.
  unfold Monitor.no_zero.
  destruct (Qeq_bool _ 0) eqn:E; [reflexivity|].
  apply Qeq_bool_neq in E.
  assert (H : (0 <= inject_Z (Z.of_nat n) / inject_Z (Z.of_nat total))%Q).
  { unfold Qdiv. apply Qmult_le_0_compat.
    - change 0%Q with (inject_Z 0). rewrite <- Zle_Qle. lia.
    - apply Qinv_le_0_compat. change 0%Q with (inject_Z 0).
      rewrite <- Zle_Qle. lia. }
  apply Qle_lteq in H. destruct H as [H|H]; [exact H|].
  exfalso. apply E. symmetry. exact H.
Qed.

Lemma fold_Rplus_nonneg (l : list R) (acc : R) :
  0 <= acc -> Forall (fun t => 0 <= t) l -> 0 <= fold_left Rplus l acc.
Proof.
  intros Ha H. revert acc Ha. induction H as [|t l Ht Hl IH]; intros acc Ha.
  - exact Ha.
  - cbn [fold_left]. apply IH. Lra.lra.
Qed.

Lemma fold_Rplus_zero (l : list R) :
  Forall (fun t => t = 0) l -> fold_left Rplus l 0 = 0.
Proof.
  induction 1 as [|t l Ht Hl IH]; [reflexivity|].
  cbn [fold_left]. rewrite Ht, Rplus_0_r. exact IH.
Qed.

Lemma calculate_psi_nonneg (A B : list Q) (bins : nat) :
  0 <= Monitor.calculate_psi np_percentile np_histogram A B bins.
Proof.
  unfold Monitor.calculate_psi.
  destruct (np_percentile A _) as [bp|]; cbn; [|Lra.lra].
  destruct (Monitor.open_ends bp) as [edges|]; cbn; [|Lra.lra].
  destruct (np_histogram A edges) as [eh|]; cbn; [|Lra.lra].
  destruct (np_histogram B edges) as [ah|]; cbn; [|Lra.lra].
  destruct (negb _); cbn; [Lra.lra|].
  apply fold_Rplus_nonneg; [Lra.lra|].
  apply List.Forall_forall. intros t Ht.
  apply in_map_iff in Ht. destruct Ht as ([a e] & <- & Hin).
  apply in_combine_l in Hin as Ha. apply in_combine_r in Hin as He.
  apply in_map_iff in Ha, He.
  destruct Ha as (na & <- & _). destruct He as (ne & <- & _).
  cbn [fst snd].
  apply psi_summand_nonneg; apply Q2R_pos, no_zero_share_pos.
Qed.

Lemma calculate_psi_same (A : list Q) (bins : nat) :
  Monitor.calculate_psi np_percentile np_histogram A A bins = 0.
Proof.
  unfold Monitor.calculate_psi.
  destruct (np_percentile A _) as [bp|]; cbn; [|reflexivity].
  destruct (Monitor.open_ends bp) as [edges|]; cbn; [|reflexivity].
  destruct (np_histogram A edges) as [eh|]; cbn; [|reflexivity].
  rewrite Nat.eqb_refl. cbn.
  apply fold_Rplus_zero.
  apply List.Forall_forall. intros t Ht.
  apply in_map_iff in Ht. destruct Ht as ([a e] & <- & Hin).
  cbn [fst snd].
  assert (a = e) as ->.
  { revert Hin. generalize (List.map
       (fun n : nat =>
          Monitor.no_zero (inject_Z (Z.of_nat n) / inject_Z (Z.of_nat (length A)))) eh).
    intros l. induction l as [|x l IH]; cbn; [tauto|].
    intros [H|H]; [congruence | exact (IH H)]. }
  ring.
Qed.

(** Ten observations 0, 1, ..., 9 against themselves shifted by five: the
    first bin holds one reference value and no current one, whose share is
    floored. *)
Example bin_shares_example :
  let ref := List.map inject_Z [0; 1; 2; 3; 4; 5; 6; 7; 8; 9]%Z in
  let cur := List.map inject_Z [5; 6; 7; 8; 9; 10; 11; 12; 13; 14]%Z in
  (fun rc => (Qred (fst rc), Qred (snd rc)))
    (Monitor.bin_shares ref cur 0 1.4 0)
  = ((1 # 5)%Q, (1 # 1000000)%Q).
Proof. vm_compute. reflexivity. Qed.

(** C9.  [psi] over ten equal-width bins with shares floored at 1e-6 gives
    zero, so less than 1e-9, on a sample against itself, and never a
    negative value; the same holds for the drift [detect_feature_drift]
    reports through [calculate_psi]. *)
Theorem psi_symmetry_nonnegativity (A B : list Q) (reference : option (list Q)) :
  Monitor.psi A A 10 < 1e-9
  /\ 0 <= Monitor.psi A B 10
  /\ Monitor.detect_feature_drift np_percentile np_histogram (Some A) A < 1e-9
  /\ 0 <= Monitor.detect_feature_drift np_percentile np_histogram reference B.
Proof.
  split; [|split; [|split]].
  - rewrite psi_same. Lra.lra.
  - apply psi_nonneg.
  - unfold Monitor.detect_feature_drift.
    destruct (_ <? _)%nat; [Lra.lra|].
    destruct (_ <? _)%nat; [Lra.lra|].
    rewrite calculate_psi_same. Lra.lra.
  - unfold Monitor.detect_feature_drift.
    destruct reference as [ref|]; [|Lra.lra].
    destruct (_ <? _)%nat; [Lra.lra|].
    destruct (_ <? _)%nat; [Lra.lra|].
    apply calculate_psi_nonneg.
Qed.

End PsiFacts.

(** * Further properties of the services *)

(** ** audit-svc: the three write endpoints *)

(** X2.  None of the three write endpoints ever succeeds: whatever is
    posted to [/audit/event], [/audit/decision] or [/audit/case], and
    whatever the stores hold, the request is answered with status 500 and
    both stores are left as they were, because [store_evidence_bundle]
    hands a [str] to [put_object]. *)
Theorem audit_posts_always_fail (generated : string) (a : Audit.ambient)
    (e : Audit.AuditEvent) (data : list (string * Json.value)) (w : Audit.world) :
  Audit.log_event a e w = (w, None)
  /\ AuditApi.log_decision generated a data w = (w, None)
  /\ AuditApi.log_case_event generated a data w = (w, None).
Proof.
  split; [|split].
  - unfold Audit.log_event. now rewrite store_evidence_bundle_raises.
  - unfold AuditApi.log_decision.
    destruct (AuditApi.decision_event _ _); [|reflexivity].
    now rewrite store_evidence_bundle_raises.
  - unfold AuditApi.log_case_event.
    destruct (AuditApi.case_event _ _); [|reflexivity].
    now rewrite store_evidence_bundle_raises.
Qed.

(** ** decision-svc: the built-in policy *)

(** The variance of the three model scores, as [evaluate_conditions]
    computes it for a "conflicting_signals" condition. *)
Definition score_variance (sc : Decision.ModelScores) : Q :=
  let scores := [Decision.xgb sc; Decision.nn sc; Decision.rules sc] in
  let mean := (fold_left Qplus scores 0 / 3)%Q in
  (fold_left Qplus (List.map (fun s => (s - mean) ^ 2) scores) 0 / 3)%Q.






(** ** decision-svc: watchlists *)

(** The members of a set key, none when the key is missing. *)
Definition members (s : Redis.db) (key : string) : gset string :=
  match s !! key with
  | Some (Redis.RSet m) => m
  | _ => ∅
  end.

(** The key is missing or holds a set. *)
Definition set_key (s : Redis.db) (key : string) : Prop :=
  forall v, s !! key <> Some (Redis.RString v).

Lemma sismember_frame (key x : string) (s : Redis.db) :
  (Redis.sismember key x s).1 = s.
Proof.
  unfold Redis.sismember. destruct (s !! key) as [[v|m]|]; reflexivity.
Qed.

Lemma sismember_set (key x : string) (s : Redis.db) :
  set_key s key ->
  Redis.sismember key x s = (s, Some (bool_decide (x ∈ members s key))).
Proof.
  intros H. unfold Redis.sismember, members.
  destruct (s !! key) as [[v|m]|] eqn:E.
  - destruct (H v E).
  - reflexivity.
  - rewrite bool_decide_eq_false_2 by set_solver. reflexivity.
Qed.

Ltac sismember_step :=
  match goal with
  | |- context [Redis.sismember ?k ?x ?s] =>
      let s' := fresh "s" in
      let o := fresh "o" in
      let E := fresh "E" in
      let F := fresh "F" in
      destruct (Redis.sismember k x s) as [s' o] eqn:E;
      pose proof (sismember_frame k x s) as F; rewrite E in F; simpl in F;
      subst s'; destruct o; [|reflexivity]
  end.

Lemma check_watchlist_frame (entity_id : string) (ip dev : option string)
    (s : Redis.db) :
  (Decision.check_watchlist entity_id ip dev s).1 = s.
Proof.
  unfold Decision.check_watchlist. cbv zeta.
  sismember_step.
  destruct (Decision.truthy ip); [sismember_step|];
    (destruct (Decision.truthy dev); [sismember_step|]); reflexivity.
Qed.

(** X5.  [check_watchlist] only reads: Redis is left as it was.  When
    none of the three watchlist keys holds a value of another type, the
    hits are, in this order, "entity_watchlist" if the entity is a member
    of the entity list, "ip_watchlist" if a non-empty IP address is a
    member of the IP list and "device_watchlist" if a non-empty device
    fingerprint is a member of the device list. *)
Theorem check_watchlist_hits (entity_id : string) (ip dev : option string)
    (s : Redis.db) :
  set_key s "watchlist:entities" ->
  set_key s "watchlist:ips" ->
  set_key s "watchlist:devices" ->
  Decision.check_watchlist entity_id ip dev s
  = (s,
     (if bool_decide (entity_id ∈ members s "watchlist:entities")
      then ["entity_watchlist"] else [])
     ++ (if Decision.truthy ip
            && bool_decide (Decision.text ip ∈ members s "watchlist:ips")
         then ["ip_watchlist"] else [])
     ++ (if Decision.truthy dev
            && bool_decide (Decision.text dev ∈ members s "watchlist:devices")
         then ["device_watchlist"] else []))%list.
Proof.
  intros H1 H2 H3. unfold Decision.check_watchlist.
  rewrite (sismember_set _ entity_id s H1).
  destruct (Decision.truthy ip); cbn [andb];
    [rewrite (sismember_set _ (Decision.text ip) s H2)|];
  (destruct (Decision.truthy dev); cbn [andb];
    [rewrite (sismember_set _ (Decision.text dev) s H3)|]);
  repeat match goal with
         | |- context [bool_decide ?P] => destruct (bool_decide P)
         end; reflexivity.
Qed.

Lemma check_watchlist_hits_witness :
  let s : Redis.db := {[ "watchlist:ips" := Redis.RSet {[ "10.0.0.7" ]} ]} in
  (set_key s "watchlist:entities" /\ set_key s "watchlist:ips"
   /\ set_key s "watchlist:devices")
  /\ Decision.check_watchlist "acct-1" (Some "10.0.0.7") None s
     = (s,
        (if bool_decide ("acct-1" ∈ members s "watchlist:entities")
         then ["entity_watchlist"] else [])
        ++ (if Decision.truthy (Some "10.0.0.7")
               && bool_decide (Decision.text (Some "10.0.0.7")
                               ∈ members s "watchlist:ips")
            then ["ip_watchlist"] else [])
        ++ (if Decision.truthy None
               && bool_decide (Decision.text None ∈ members s "watchlist:devices")
            then ["device_watchlist"] else []))%list.
Proof.
  intros s.
  assert (H1 : set_key s "watchlist:entities") by (intros v; vm_compute; discriminate).
  assert (H2 : set_key s "watchlist:ips") by (intros v; vm_compute; discriminate).
  assert (H3 : set_key s "watchlist:devices") by (intros v; vm_compute; discriminate).
  split; [split; [|split]; assumption|].
  exact (check_watchlist_hits "acct-1" (Some "10.0.0.7") None s H1 H2 H3).
Defined.

(** ** decision-svc: [make_decision] step by step *)

(** What a call of [make_decision] computes when a policy is at hand, in
    one expression: the state it leaves and the decision it validates. *)
Lemma make_decision_eq (a : Decision.ambient) (so : Decision.ScoreOutput)
    (entity_id : string) (ip dev : option string) (st : Decision.state)
    (p : Decision.policy_t) :
  effective_policy a st = Some p ->
  let sc := Decision.so_scores so in
  let g := Decision.check_graph_anomaly entity_id dev (Decision.redis st) in
  let graph := default false g.2 in
  let hits := (Decision.check_watchlist entity_id ip dev g.1).2 in
  let matched := Decision.first_match p sc in
  let act0 := default "allow" (Decision.rule_action <$> (snd <$> matched)) in
  let act1 := match hits with
              | [] => act0
              | _ => if Qle_bool 0.8 (Decision.calibrated sc) then "block" else "hold"
              end in
  let act2 := if graph then (if String.eqb act1 "allow" then "hold" else act1)
              else act1 in
  let reasons :=
    (default [] (matched ≫= fun kr => Decision.reason_codes (snd kr))
     ++ hits ++ (if graph then ["graph_anomaly"] else []))%list in
  let p' := match matched with
            | Some (k, {| Decision.reason_codes := Some _ |}) =>
                Decision.remember_reasons p k reasons
            | _ => p
            end in
  Decision.make_decision a so entity_id ip dev st
  = ({| Decision.current_policy := Some p'; Decision.redis := g.1 |},
     risk ← Pydantic.between_Q 0 1 (Decision.calibrated sc);
     Some {| Decision.event_id := Decision.so_event_id so;
             Decision.risk := risk;
             Decision.action := act2;
             Decision.policy := Decision.version p;
             Decision.reasons := reasons;
             Decision.case_id :=
               (if existsb (String.eqb act2) ["hold"; "block"; "escalate"]
                then Some ("CASE-" ++ PyStr.upper
                             (PyStr.take 8 (Decision.uuid_str (Decision.uuid4 a))))%string
                else None);
             Decision.watchlist_hits := hits;
             Decision.velocity_anomaly := false;
             Decision.graph_anomaly := graph;
             Decision.decision_time_ms := Decision.elapsed_ms a |}).
Proof.
  intros Hp. cbv zeta.
  unfold Decision.make_decision. unfold effective_policy in Hp. rewrite Hp.
  destruct (Decision.check_graph_anomaly entity_id dev (Decision.redis st))
    as [r1 ga].
  cbn [fst snd].
  pose proof (check_watchlist_frame entity_id ip dev r1) as F.
  destruct (Decision.check_watchlist entity_id ip dev r1) as [r2 hits].
  cbn [fst snd] in *. subst r2.
  destruct (Decision.first_match p (Decision.so_scores so)) as [[k [cs act [rs|]]]|];
    cbn [fmap option_fmap option_map snd default from_option mbind option_bind
         Decision.rule_action Decision.reason_codes];
    (destruct hits as [|h hits]; [|destruct (Qle_bool 0.8 _)]);
    destruct (default false ga); cbv iota beta zeta; unfold Datatypes.id;
    rewrite <- ?List.app_assoc, ?List.app_nil_r;
    destruct (Pydantic.between_Q 0 1 _); reflexivity.
Qed.

Lemma make_decision_raises (a : Decision.ambient) (so : Decision.ScoreOutput)
    (entity_id : string) (ip dev : option string) (st : Decision.state) :
  effective_policy a st = None ->
  Decision.make_decision a so entity_id ip dev st
  = ({| Decision.current_policy := None;
        Decision.redis := (Decision.check_graph_anomaly entity_id dev
                             (Decision.redis st)).1 |}, None).
Proof.
  intros Hp. unfold Decision.make_decision. unfold effective_policy in Hp.
  rewrite Hp.
  destruct (Decision.check_graph_anomaly entity_id dev (Decision.redis st))
    as [r1 ga].
  pose proof (check_watchlist_frame entity_id ip dev r1) as F.
  destruct (Decision.check_watchlist entity_id ip dev r1) as [r2 hits].
  cbn [fst snd] in *. subst r2. reflexivity.
Qed.

(** [check_graph_anomaly] only touches the key of the device. *)
Lemma check_graph_anomaly_frame (entity_id : string) (dev : option string)
    (s : Redis.db) (key : string) :
  key <> Decision.device_accounts_key (Decision.text dev) ->
  (Decision.check_graph_anomaly entity_id dev s).1 !! key = s !! key.
Proof.
  intros Hne. unfold Decision.check_graph_anomaly, Redis.try_except.
  destruct (negb (Decision.truthy dev)); [reflexivity|].
  remember (Decision.device_accounts_key (Decision.text dev)) as k eqn:Hk.
  clear Hk.
  unfold Redis.bind, Redis.scard, Redis.sadd, Redis.expire, Redis.ret.
  destruct (s !! k) as [[v|m]|] eqn:E; cbn; try reflexivity;
    rewrite ?E; cbn;
    repeat match goal with
           | |- context [if ?b then _ else _] => destruct b
           end; cbn;
    rewrite ?lookup_insert_ne by (intros ->; now apply Hne); reflexivity.
Qed.

Lemma watchlist_entity_first (entity_id : string) (ip dev : option string)
    (s : Redis.db) (m : gset string) :
  s !! "watchlist:entities" = Some (Redis.RSet m) -> entity_id ∈ m ->
  exists rest,
    (Decision.check_watchlist entity_id ip dev s).2 = "entity_watchlist" :: rest.
Proof.
  intros Hm Hin. unfold Decision.check_watchlist.
  assert (E : Redis.sismember "watchlist:entities" entity_id s = (s, Some true)).
  { unfold Redis.sismember. rewrite Hm.
    now rewrite bool_decide_eq_true_2. }
  rewrite E. cbv zeta.
  destruct (if Decision.truthy ip then _ else _) as [s2 [b2|]];
    [|eexists; reflexivity].
  destruct (if Decision.truthy dev then _ else _) as [s3 [b3|]];
    destruct b2; try destruct b3; eexists; reflexivity.
Qed.

(** X6.  An entity on the entity watchlist is never allowed: whatever the
    policy and the scores, a decision for it is "block" when the calibrated
    score is at least 0.8 and "hold" otherwise, it opens a case, and the
    hit is among the watchlist hits and among the reasons. *)
Theorem watchlisted_entity_never_allowed
    (a : Decision.ambient) (so : Decision.ScoreOutput) (entity_id : string)
    (ip dev : option string) (st st' : Decision.state) (m : gset string)
    (d : Decision.DecisionOutput) :
  Decision.redis st !! "watchlist:entities" = Some (Redis.RSet m) ->
  entity_id ∈ m ->
  Decision.make_decision a so entity_id ip dev st = (st', Some d) ->
  In "entity_watchlist" (Decision.watchlist_hits d)
  /\ In "entity_watchlist" (Decision.reasons d)
  /\ Decision.action d
     = (if Qle_bool 0.8 (Decision.calibrated (Decision.so_scores so))
        then "block" else "hold")
  /\ Decision.case_id d <> None.
Proof.
  intros Hm Hin Hd.
  destruct (effective_policy a st) as [p|] eqn:Hp.
  2:{ rewrite (make_decision_raises _ _ _ _ _ _ Hp) in Hd. discriminate Hd. }
  rewrite (make_decision_eq _ _ _ _ _ _ _ Hp) in Hd. cbv zeta in Hd.
  set (g := Decision.check_graph_anomaly entity_id dev (Decision.redis st)) in *.
  assert (Hm' : g.1 !! "watchlist:entities" = Some (Redis.RSet m)).
  { unfold g. rewrite check_graph_anomaly_frame; [exact Hm|].
    unfold Decision.device_accounts_key. discriminate. }
  destruct (watchlist_entity_first entity_id ip dev g.1 m Hm' Hin) as [rest Hw].
  rewrite Hw in Hd.
  destruct (Pydantic.between_Q 0 1 _) as [risk|]; [|discriminate Hd].
  cbn [mbind option_bind] in Hd. injection Hd as _ <-.
  cbn [Decision.watchlist_hits Decision.reasons Decision.action Decision.case_id].
  split; [left; reflexivity|].
  split; [apply in_or_app; right; left; reflexivity|].
  destruct (Qle_bool 0.8 _); destruct (default false g.2); cbn;
    (split; [reflexivity | discriminate]).
Qed.

Lemma watchlisted_entity_never_allowed_witness :
  let st := {| Decision.current_policy := None;
               Decision.redis :=
                 {[ "watchlist:entities" := Redis.RSet {[ "acct-9" ]} ]} |} in
  let r := Decision.make_decision default_call sample_scores "acct-9" None None st in
  exists st' d,
    (Decision.redis st !! "watchlist:entities" = Some (Redis.RSet {[ "acct-9" ]})
     /\ "acct-9" ∈ ({[ "acct-9" ]} : gset string)
     /\ r = (st', Some d))
    /\ (In "entity_watchlist" (Decision.watchlist_hits d)
        /\ In "entity_watchlist" (Decision.reasons d)
        /\ Decision.action d
           = (if Qle_bool 0.8 (Decision.calibrated (Decision.so_scores sample_scores))
              then "block" else "hold")
        /\ Decision.case_id d <> None).
Proof.
  intros st r.
  assert (H1 : Decision.redis st !! "watchlist:entities"
               = Some (Redis.RSet {[ "acct-9" ]})) by reflexivity.
  assert (H2 : "acct-9" ∈ ({[ "acct-9" ]} : gset string)) by set_solver.
  destruct r as [st' [d|]] eqn:E; [|vm_compute in E; discriminate E].
  exists st', d. split; [split; [|split]; [exact H1 | exact H2 | reflexivity]|].
  exact (watchlisted_entity_never_allowed default_call sample_scores "acct-9"
           None None st st' {[ "acct-9" ]} d H1 H2 E).
Defined.

(** ** decision-svc: the reasons live in the policy *)

Definition with_reasons (r : Decision.rule) (rs : list string) : Decision.rule :=
  {| Decision.conditions := Decision.conditions r;
     Decision.rule_action := Decision.rule_action r;
     Decision.reason_codes := Some rs |}.

(** Extending the reasons of a rule does not change which rule matches. *)
Lemma first_match_remember (p : Decision.policy_t) (sc : Decision.ModelScores)
    (k : Decision.slot) (r : Decision.rule) (rs : list string) :
  Decision.first_match p sc = Some (k, r) ->
  Decision.first_match (Decision.remember_reasons p k rs) sc
  = Some (k, with_reasons r rs).
Proof.
  unfold Decision.first_match, Decision.remember_reasons, with_reasons.
  destruct p as [v [rb|] [rh|] [ra|]]; destruct k;
    cbn [omap list_omap Decision.rule_at Decision.rule_block Decision.rule_hold
         Decision.rule_allow Decision.version fmap option_fmap option_map
         List.find snd Decision.conditions];
    repeat match goal with
           | |- context [Decision.evaluate_conditions ?c sc] =>
               destruct (Decision.evaluate_conditions c sc)
           end;
    intros H; try discriminate H; injection H as <-; try discriminate;
    reflexivity.
Qed.

(** One call: the reasons of the decision are the rule's reason codes
    followed by the watchlist hits and the graph flag, and they are what
    the rule's reason codes are afterwards. *)
Lemma make_decision_reasons (a : Decision.ambient) (so : Decision.ScoreOutput)
    (entity_id : string) (ip dev : option string) (st st' : Decision.state)
    (p : Decision.policy_t) (k : Decision.slot) (r : Decision.rule)
    (rs : list string) (d : Decision.DecisionOutput) :
  Decision.current_policy st = Some p ->
  Decision.first_match p (Decision.so_scores so) = Some (k, r) ->
  Decision.reason_codes r = Some rs ->
  Decision.make_decision a so entity_id ip dev st = (st', Some d) ->
  Decision.reasons d
  = (rs ++ Decision.watchlist_hits d
        ++ (if Decision.graph_anomaly d then ["graph_anomaly"] else []))%list
  /\ Decision.current_policy st'
     = Some (Decision.remember_reasons p k (Decision.reasons d)).
Proof.
  intros Hcur Hm Hrs Hd.
  assert (Hp : effective_policy a st = Some p)
    by (unfold effective_policy; now rewrite Hcur).
  rewrite (make_decision_eq _ _ _ _ _ _ _ Hp) in Hd. cbv zeta in Hd.
  rewrite Hm in Hd.
  destruct r as [cs act codes]. cbn [Decision.reason_codes] in Hrs. subst codes.
  cbn [mbind option_bind snd Decision.reason_codes default from_option] in Hd.
  destruct (Pydantic.between_Q 0 1 _) as [risk|]; [|discriminate Hd].
  cbn [mbind option_bind] in Hd. injection Hd as <- <-.
  cbn [Decision.reasons Decision.watchlist_hits Decision.graph_anomaly
       Decision.current_policy].
  split; reflexivity.
Qed.

(** X7.  The reasons of a decision are appended to the matched rule's own
    "reason_codes" list, which stays in the policy held in memory: when a
    later decision matches the same rule, its reasons start with all the
    reasons of the earlier decision, watchlist hits and graph flag
    included, and its own are added behind them. *)
Theorem reasons_accumulate_across_calls
    (a1 a2 : Decision.ambient) (so1 so2 : Decision.ScoreOutput)
    (e1 e2 : string) (ip1 ip2 dev1 dev2 : option string)
    (st st1 st2 : Decision.state) (p : Decision.policy_t) (k : Decision.slot)
    (r1 r2 : Decision.rule) (rs : list string)
    (d1 d2 : Decision.DecisionOutput) :
  Decision.current_policy st = Some p ->
  Decision.first_match p (Decision.so_scores so1) = Some (k, r1) ->
  Decision.first_match p (Decision.so_scores so2) = Some (k, r2) ->
  Decision.reason_codes r1 = Some rs ->
  Decision.make_decision a1 so1 e1 ip1 dev1 st = (st1, Some d1) ->
  Decision.make_decision a2 so2 e2 ip2 dev2 st1 = (st2, Some d2) ->
  Decision.reasons d1
  = (rs ++ Decision.watchlist_hits d1
        ++ (if Decision.graph_anomaly d1 then ["graph_anomaly"] else []))%list
  /\ Decision.reasons d2
     = (Decision.reasons d1 ++ Decision.watchlist_hits d2
          ++ (if Decision.graph_anomaly d2 then ["graph_anomaly"] else []))%list.
Proof.
  intros Hcur Hm1 Hm2 Hrs Hd1 Hd2.
  destruct (make_decision_reasons _ _ _ _ _ _ _ _ _ _ _ _ Hcur Hm1 Hrs Hd1)
    as [R1 P1].
  split; [exact R1|].
  pose proof (first_match_remember p (Decision.so_scores so2) k r2
                (Decision.reasons d1) Hm2) as Hm2'.
  destruct (make_decision_reasons _ _ _ _ _ _ _ _ _ _ _ _ P1 Hm2' eq_refl Hd2)
    as [R2 _].
  exact R2.
Qed.

(** The same watchlisted account decided twice under the built-in policy:
    the second decision reports the hit twice. *)
Definition watched_state : Decision.state :=
  {| Decision.current_policy := Some Decision.default_policy;
     Decision.redis := {[ "watchlist:entities" := Redis.RSet {[ "acct-9" ]} ]} |}.

Definition blocked_scores : Decision.ScoreOutput :=
  {| Decision.so_event_id := "0b9d0d6e-2c1f-4a53-9b7e-6d5c4b3a2f10";
     Decision.so_scores :=
       {| Decision.xgb := 0.9; Decision.nn := 0.9; Decision.rules := 0.9;
          Decision.ensemble := 0.9; Decision.calibrated := 0.95 |};
     Decision.model_version := "m1" |}.

Lemma reasons_accumulate_across_calls_witness :
  let r1 := Decision.make_decision default_call blocked_scores "acct-9" None None
              watched_state in
  let r2 := Decision.make_decision default_call blocked_scores "acct-9" None None
              r1.1 in
  exists rule d1 d2,
    (Decision.current_policy watched_state = Some Decision.default_policy
     /\ Decision.first_match Decision.default_policy
          (Decision.so_scores blocked_scores) = Some (Decision.SBlock, rule)
     /\ Decision.reason_codes rule = Some ["high_risk_score"; "watchlist_match"]
     /\ r1 = (r1.1, Some d1) /\ r2 = (r2.1, Some d2))
    /\ (Decision.reasons d1
        = (["high_risk_score"; "watchlist_match"] ++ Decision.watchlist_hits d1
             ++ (if Decision.graph_anomaly d1 then ["graph_anomaly"] else []))%list
        /\ Decision.reasons d2
           = (Decision.reasons d1 ++ Decision.watchlist_hits d2
                ++ (if Decision.graph_anomaly d2 then ["graph_anomaly"] else []))%list).
Proof.
  intros r1 r2.
  destruct (Decision.first_match Decision.default_policy
              (Decision.so_scores blocked_scores)) as [[k rule]|] eqn:Hm;
    [|vm_compute in Hm; discriminate Hm].
  assert (Hk : k = Decision.SBlock) by (vm_compute in Hm; congruence).
  subst k.
  assert (Hrs : Decision.reason_codes rule
                = Some ["high_risk_score"; "watchlist_match"])
    by (vm_compute in Hm; injection Hm as <-; reflexivity).
  destruct r1 as [st1 [d1|]] eqn:E1; [|vm_compute in E1; discriminate E1].
  cbn [fst] in r2.
  destruct r2 as [st2 [d2|]] eqn:E2.
  2:{ subst r2. injection E1 as <- _. vm_compute in E2. discriminate E2. }
  exists rule, d1, d2.
  split; [split; [reflexivity|split; [reflexivity|split; [exact Hrs|split; reflexivity]]]|].
  exact (reasons_accumulate_across_calls default_call default_call
           blocked_scores blocked_scores "acct-9" "acct-9" None None None None
           watched_state st1 st2 Decision.default_policy Decision.SBlock
           rule rule _ d1 d2 eq_refl Hm Hm Hrs E1 E2).
Defined.

Example reasons_grow :
  let r1 := Decision.make_decision default_call blocked_scores "acct-9" None None
              watched_state in
  let r2 := Decision.make_decision default_call blocked_scores "acct-9" None None
              r1.1 in
  (Decision.reasons <$> r1.2, Decision.reasons <$> r2.2)
  = (Some ["high_risk_score"; "watchlist_match"; "entity_watchlist"],
     Some ["high_risk_score"; "watchlist_match"; "entity_watchlist";
           "entity_watchlist"]).
Proof. vm_compute. reflexivity. Qed.

(** ** decision-svc: when no decision is made *)

Lemma effective_policy_none (a : Decision.ambient) (st : Decision.state) :
  effective_policy a st = None
  <-> Decision.current_policy st = None /\ Decision.pg a = Decision.PgDown.
Proof.
  unfold effective_policy, Decision.load_decision_policy.
  destruct (Decision.current_policy st) as [p|].
  - split; [discriminate | intros [H _]; discriminate H].
  - destruct (Decision.pg a) as [| |[q|]]; split;
      first [ discriminate | tauto | intros [_ H]; discriminate H ].
Qed.

(** The matched rule is the rule of its slot. *)
Lemma first_match_rule_at (p : Decision.policy_t) (sc : Decision.ModelScores)
    (k : Decision.slot) (r : Decision.rule) :
  Decision.first_match p sc = Some (k, r) -> Decision.rule_at p k = Some r.
Proof.
  unfold Decision.first_match. intros F.
  apply find_some in F. destruct F as [F _]. cbn in F.
  destruct (Decision.rule_block p) as [rb|] eqn:Eb;
  destruct (Decision.rule_hold p) as [rh|] eqn:Eh;
  destruct (Decision.rule_allow p) as [ra|] eqn:Ea; cbn in F;
  repeat (destruct F as [F|F]; [injection F as <- <-; cbn; assumption|]);
  destruct F.
Qed.

(** X8.  For scores that passed validation, [make_decision] raises exactly
    when no policy is in memory and the policy table cannot be reached.
    Raising or not, the call has already run the graph check, so Redis is
    left as [check_graph_anomaly] leaves it, with the account linked to the
    device. *)
Theorem decision_requires_policy
    (a : Decision.ambient) (so : Decision.ScoreOutput) (entity_id : string)
    (ip dev : option string) (st : Decision.state) :
  (0 <= Decision.calibrated (Decision.so_scores so) <= 1)%Q ->
  let r := Decision.make_decision a so entity_id ip dev st in
  (r.2 = None
   <-> Decision.current_policy st = None /\ Decision.pg a = Decision.PgDown)
  /\ Decision.redis r.1
     = (Decision.check_graph_anomaly entity_id dev (Decision.redis st)).1.
Proof.
  intros [H0 H1] r. subst r.
  rewrite <- effective_policy_none.
  destruct (effective_policy a st) as [p|] eqn:Hp.
  - rewrite (make_decision_eq _ _ _ _ _ _ _ Hp). cbv zeta. cbn [fst snd].
    unfold Pydantic.between_Q.
    apply Qle_bool_iff in H0, H1. rewrite H0, H1.
    cbn [andb mbind option_bind Decision.redis].
    split; [split; discriminate | reflexivity].
  - rewrite (make_decision_raises _ _ _ _ _ _ Hp). cbn [fst snd Decision.redis].
    split; [split; reflexivity | reflexivity].
Qed.

Lemma decision_requires_policy_witness :
  let a := {| Decision.uuid4 := 7; Decision.elapsed_ms := 1;
              Decision.pg := Decision.PgDown |} in
  let r := Decision.make_decision a sample_scores "acct-1" None (Some "dev-1")
             fresh_state in
  (0 <= Decision.calibrated (Decision.so_scores sample_scores) <= 1)%Q
  /\ ((r.2 = None
       <-> Decision.current_policy fresh_state = None
           /\ Decision.pg a = Decision.PgDown)
      /\ Decision.redis r.1
         = (Decision.check_graph_anomaly "acct-1" (Some "dev-1")
              (Decision.redis fresh_state)).1).
Proof.
  intros a r.
  assert (H : (0 <= Decision.calibrated (Decision.so_scores sample_scores) <= 1)%Q)
    by (split; vm_compute; discriminate).
  split; [exact H|].
  exact (decision_requires_policy a sample_scores "acct-1" None (Some "dev-1")
           fresh_state H).
Defined.

(** ** decision-svc: the streaming path *)

(** X9.  Decisions made from the score stream are all made for the entity
    "unknown", without IP address and device: they are keyed "unknown",
    never report a graph anomaly, can only hit the entity watchlist, and
    leave Redis untouched. *)
Theorem streamed_decisions_unknown_entity
    (a : Decision.ambient) (score_output : option Decision.ScoreOutput)
    (st : Decision.state) :
  let r := DecisionSvc.process_score_output a score_output st in
  Decision.redis r.1 = Decision.redis st
  /\ (forall key d, r.2 = Some (key, d) ->
        key = "unknown"
        /\ Decision.graph_anomaly d = false
        /\ Decision.velocity_anomaly d = false
        /\ (forall h, In h (Decision.watchlist_hits d) -> h = "entity_watchlist")
        /\ (In "graph_anomaly" (Decision.reasons d)
            -> exists p k r', effective_policy a st = Some p
                              /\ Decision.rule_at p k = Some r'
                              /\ exists rs, Decision.reason_codes r' = Some rs
                                            /\ In "graph_anomaly" rs)).
Proof.
  intros r. subst r. unfold DecisionSvc.process_score_output.
  destruct score_output as [so|]; [|split; [reflexivity | discriminate]].
  cbv zeta.
  destruct (effective_policy a st) as [p|] eqn:Hp.
  2:{ rewrite (make_decision_raises _ _ _ _ _ _ Hp).
      split; [reflexivity | discriminate]. }
  rewrite (make_decision_eq _ _ _ _ _ _ _ Hp). cbv zeta.
  change (Decision.check_graph_anomaly "unknown" None (Decision.redis st))
    with (Decision.redis st, Some false).
  cbn [fst snd default from_option].
  assert (Hw : forall h,
             In h (Decision.check_watchlist "unknown" None None (Decision.redis st)).2 ->
             h = "entity_watchlist").
  { intros h. unfold Decision.check_watchlist.
    destruct (Redis.sismember _ _ _) as [s1 [b1|]]; cbn; [|tauto].
    destruct b1; cbn; intuition. }
  destruct (Pydantic.between_Q 0 1 _) as [risk|];
    cbn [mbind option_bind fst snd Decision.redis];
    (split; [reflexivity|]); [|discriminate].
  intros key d [= <- <-].
  cbn [Decision.graph_anomaly Decision.velocity_anomaly Decision.watchlist_hits
       Decision.reasons].
  split; [reflexivity|]. split; [reflexivity|]. split; [reflexivity|].
  split; [exact Hw|].
  intros Hin. rewrite app_nil_r in Hin. apply in_app_or in Hin.
  destruct Hin as [Hin | Hin].
  - destruct (Decision.first_match p (Decision.so_scores so)) as [[k r']|] eqn:F;
      [|destruct Hin].
    cbn [mbind option_bind snd] in Hin.
    destruct (Decision.reason_codes r') as [rs|] eqn:R; [|destruct Hin].
    exists p, k, r'. split; [reflexivity|].
    split; [exact (first_match_rule_at _ _ _ _ F)|].
    exists rs. split; [exact R | exact Hin].
  - specialize (Hw _ Hin). discriminate Hw.
Qed.

(** ** decision-svc: velocity patterns *)

Section VelocityFacts.

Variable py_float : string -> option Q.
Variable float_repr : Q -> string.

Ltac run_redis :=
  unfold DecisionSvc.check_velocity_anomaly, Redis.try_except, Redis.bind,
    Redis.get, Redis.lift, Redis.ret, Redis.raise, Redis.setex;
  repeat match goal with
         | |- context [match ?s !! ?k with _ => _ end] =>
             let E := fresh "E" in destruct (s !! k) as [[?|?]|] eqn:E
         | |- context [if Decision.truthy ?x then _ else _] =>
             let T := fresh "T" in destruct (Decision.truthy x) eqn:T
         | |- context [match py_float ?x with _ => _ end] =>
             let F := fresh "F" in destruct (py_float x) eqn:F
         | |- context [if PyNum.ltb ?a ?b then _ else _] =>
             let L := fresh "L" in destruct (PyNum.ltb a b) eqn:L
         | _ => progress cbn [negb fst snd]
         end.

(** X11.  [check_velocity_anomaly] never raises, and a call that reports
    an anomaly writes nothing: the pattern it compared against stays as it
    is, so the same velocities are reported again by the next call. *)
Theorem velocity_anomaly_leaves_patterns
    (entity_id : string) (velocity_1h velocity_24h : Z) (s : Redis.db) :
  let r := DecisionSvc.check_velocity_anomaly py_float float_repr entity_id
             velocity_1h velocity_24h s in
  (exists b, r.2 = Some b)
  /\ (r.2 = Some true ->
      r.1 = s
      /\ DecisionSvc.check_velocity_anomaly py_float float_repr entity_id
           velocity_1h velocity_24h r.1 = r).
Proof.
  intros r.
  assert (H : (exists b, r.2 = Some b) /\ (r.2 = Some true -> r.1 = s)).
  { subst r. run_redis;
      (split; [eexists; reflexivity | first [ discriminate | reflexivity ]]). }
  destruct H as [H1 H2]. split; [exact H1|].
  intros Ht. specialize (H2 Ht). split; [exact H2|].
  rewrite H2. reflexivity.
Qed.

End VelocityFacts.

(** ** decision-svc: the baseline rules, order of the actions *)

(** The actions by severity. *)
Definition severity (action : string) : nat :=
  if String.eqb action "block" then 2
  else if String.eqb action "hold" then 1
  else 0.

(** X13.  [decide] is monotone in the calibrated score, whatever the
    thresholds: of two payloads with the same features and channel, the
    one with the higher score gets the same reasons and an action at least
    as severe (allow, then hold, then block). *)
Theorem decide_monotone_in_score
    (py_float : string -> option Q) (st : Policy.Settings)
    (p1 p2 : Policy.payload) (a1 a2 : string) (r1 r2 : list string) :
  Policy.features p1 = Policy.features p2 ->
  Policy.channel p1 = Policy.channel p2 ->
  (Policy.calibrated p1 <= Policy.calibrated p2)%Q ->
  Policy.decide py_float st p1 = Some (a1, r1) ->
  Policy.decide py_float st p2 = Some (a2, r2) ->
  r1 = r2 /\ (severity a1 <= severity a2)%nat.
Proof.
  intros Hf Hc Hs. unfold Policy.decide.
  assert (Hv : Policy.velocity_1h p1 = Policy.velocity_1h p2)
    by (unfold Policy.velocity_1h, Policy.feature; now rewrite Hf).
  assert (Hi : Policy.ip_risk py_float p1 = Policy.ip_risk py_float p2)
    by (unfold Policy.ip_risk, Policy.feature; now rewrite Hf).
  assert (Hu : Policy.untrusted st p1 = Policy.untrusted st p2)
    by (unfold Policy.untrusted; now rewrite Hc).
  rewrite Hv, Hi, Hu.
  destruct (Policy.velocity_1h p2) as [v|]; [|discriminate].
  destruct (Policy.ip_risk py_float p2) as [r|]; [|discriminate].
  cbn [mbind option_bind].
  set (c1 := Policy.calibrated p1) in *. set (c2 := Policy.calibrated p2) in *.
  set (reasons := if Policy.untrusted st p2 then _ else _).
  assert (M : forall th, Qle_bool th c1 = true -> Qle_bool th c2 = true).
  { intros th H. apply Qle_bool_iff in H. apply Qle_bool_iff.
    eapply Qle_trans; [exact H | exact Hs]. }
  destruct (Qle_bool (Policy.BLOCK_THRESHOLD st) c1) eqn:B1;
    [rewrite (M _ B1)|];
  (destruct (Qle_bool 0.80 c1) eqn:P1; [rewrite (M _ P1)|]);
  (destruct (Qle_bool (Policy.HOLD_THRESHOLD st) c1) eqn:H1; [rewrite (M _ H1)|]);
  destruct (Policy.has "ip_proxy_match" reasons);
  destruct (Policy.has "velocity_high" reasons);
  cbn [andb orb];
  repeat match goal with
         | |- context [Qle_bool ?a ?b] => destruct (Qle_bool a b)
         end;
  cbn [andb orb];
  intros [= <- <-] [= <- <-]; (split; [reflexivity | cbn; lia]).
Qed.

Lemma decide_monotone_in_score_witness :
  let p1 := {| Policy.scores := {[ "calibrated" := 0.65%Q ]};
               Policy.features := Some {[ "velocity_1h" := Policy.FNum 3 ]};
               Policy.channel := Some "web" |} in
  let p2 := {| Policy.scores := {[ "calibrated" := 0.75%Q ]};
               Policy.features := Some {[ "velocity_1h" := Policy.FNum 3 ]};
               Policy.channel := Some "web" |} in
  (Policy.features p1 = Policy.features p2
   /\ Policy.channel p1 = Policy.channel p2
   /\ (Policy.calibrated p1 <= Policy.calibrated p2)%Q
   /\ Policy.decide (fun _ => None) Policy.settings p1
      = Some ("allow", ["untrusted_channel"])
   /\ Policy.decide (fun _ => None) Policy.settings p2
      = Some ("hold", ["untrusted_channel"]))
  /\ (["untrusted_channel"] = ["untrusted_channel"]
      /\ (severity "allow" <= severity "hold")%nat).
Proof.
  intros p1 p2.
  assert (H1 : Policy.features p1 = Policy.features p2) by reflexivity.
  assert (H2 : Policy.channel p1 = Policy.channel p2) by reflexivity.
  assert (H3 : (Policy.calibrated p1 <= Policy.calibrated p2)%Q)
    by (vm_compute; discriminate).
  assert (H4 : Policy.decide (fun _ => None) Policy.settings p1
               = Some ("allow", ["untrusted_channel"])) by (vm_compute; reflexivity).
  assert (H5 : Policy.decide (fun _ => None) Policy.settings p2
               = Some ("hold", ["untrusted_channel"])) by (vm_compute; reflexivity).
  split; [repeat split; assumption|].
  exact (decide_monotone_in_score (fun _ => None) Policy.settings p1 p2
           "allow" "hold" _ _ H1 H2 H3 H4 H5).
Defined.

(** ** score-svc: the shape of the scores *)

(** The amount as the rules read it: a missing amount counts as zero. *)
Definition amount_or_zero (fv : Feature.FeatureVector) : Q :=
  default 0%Q (Feature.amount fv).

Lemma when_le (b1 b2 : bool) (w : Q) :
  (0 <= w)%Q -> (b1 = true -> b2 = true) -> (when b1 w <= when b2 w)%Q.
Proof.
  intros Hw H. unfold when. destruct b1; [rewrite H by reflexivity; Lqa.lra|].
  destruct b2; Lqa.lra.
Qed.

Lemma ltb_mono (c x y : Q) :
  (x <= y)%Q -> PyNum.ltb c x = true -> PyNum.ltb c y = true.
Proof.
  intros Hxy H. apply ltb_true in H. apply ltb_true.
  eapply Qlt_le_trans; [exact H | exact Hxy].
Qed.

(** A two-step rule: a larger bonus above the higher threshold. *)
Lemma two_step_le (hi1 lo1 hi2 lo2 : bool) (big small : Q) :
  (0 <= small <= big)%Q ->
  (hi1 = true -> hi2 = true) -> (lo1 = true -> lo2 = true) ->
  (hi2 = true -> lo2 = true) ->
  ((if hi1 then big else when lo1 small) <= (if hi2 then big else when lo2 small))%Q.
Proof.
  intros [H0 H1] Hh Hl Hc. unfold when.
  destruct hi1; [rewrite Hh by reflexivity; Lqa.lra|].
  destruct lo1.
  - rewrite Hl by reflexivity. destruct hi2; Lqa.lra.
  - destruct hi2; [Lqa.lra|]. destruct lo2; Lqa.lra.
Qed.

(** X16.  The rules score never goes down when a risk signal goes up: if
    the amount, the hourly velocity, the IP risk, the distance and the
    merchant risk of one vector are at least those of another, so is its
    rules score. *)
Theorem compute_rule_score_monotone (fv1 fv2 : Feature.FeatureVector) :
  (amount_or_zero fv1 <= amount_or_zero fv2)%Q ->
  Feature.velocity_1h fv1 <= Feature.velocity_1h fv2 ->
  (Feature.ip_risk fv1 <= Feature.ip_risk fv2)%Q ->
  (Feature.geo_distance_km fv1 <= Feature.geo_distance_km fv2)%Q ->
  (Feature.merchant_risk fv1 <= Feature.merchant_risk fv2)%Q ->
  (Score.compute_rule_score fv1 <= Score.compute_rule_score fv2)%Q.
Proof.
  intros Ha Hv Hi Hg Hm.
  destruct (compute_rule_score_baseline fv1) as [E1 _].
  destruct (compute_rule_score_baseline fv2) as [E2 _].
  rewrite E1, E2. unfold shipped_baseline.
  set (A1 := when (match Feature.amount fv1 with
                   | Some a => PyNum.ltb 10000 a | None => false end) 0.3).
  set (A2 := when (match Feature.amount fv2 with
                   | Some a => PyNum.ltb 10000 a | None => false end) 0.3).
  assert (HA : (A1 <= A2)%Q).
  { subst A1 A2. apply when_le; [discriminate|].
    unfold amount_or_zero in Ha.
    destruct (Feature.amount fv1) as [a1|]; [|discriminate].
    intros L. destruct (Feature.amount fv2) as [a2|]; cbn in Ha.
    - exact (ltb_mono _ _ _ Ha L).
    - apply ltb_true in L. exfalso. Lqa.lra. }
  set (V1 := if 10 <? Feature.velocity_1h fv1 then 0.4%Q
             else when (5 <? Feature.velocity_1h fv1) 0.2).
  set (V2 := if 10 <? Feature.velocity_1h fv2 then 0.4%Q
             else when (5 <? Feature.velocity_1h fv2) 0.2).
  assert (HV : (V1 <= V2)%Q).
  { subst V1 V2. apply two_step_le.
    - split; discriminate.
    - intros L. apply Z.ltb_lt in L. apply Z.ltb_lt. lia.
    - intros L. apply Z.ltb_lt in L. apply Z.ltb_lt. lia.
    - intros L. apply Z.ltb_lt in L. apply Z.ltb_lt. lia. }
  set (I1 := if PyNum.ltb 0.8 (Feature.ip_risk fv1) then 0.3%Q
             else when (PyNum.ltb 0.5 (Feature.ip_risk fv1)) 0.1).
  set (I2 := if PyNum.ltb 0.8 (Feature.ip_risk fv2) then 0.3%Q
             else when (PyNum.ltb 0.5 (Feature.ip_risk fv2)) 0.1).
  assert (HI : (I1 <= I2)%Q).
  { subst I1 I2. apply two_step_le.
    - split; discriminate.
    - apply ltb_mono, Hi.
    - apply ltb_mono, Hi.
    - intros L. apply ltb_true in L. apply ltb_true. Lqa.lra. }
  set (G1 := if PyNum.ltb 1000 (Feature.geo_distance_km fv1) then 0.2%Q
             else when (PyNum.ltb 500 (Feature.geo_distance_km fv1)) 0.1).
  set (G2 := if PyNum.ltb 1000 (Feature.geo_distance_km fv2) then 0.2%Q
             else when (PyNum.ltb 500 (Feature.geo_distance_km fv2)) 0.1).
  assert (HG : (G1 <= G2)%Q).
  { subst G1 G2. apply two_step_le.
    - split; discriminate.
    - apply ltb_mono, Hg.
    - apply ltb_mono, Hg.
    - intros L. apply ltb_true in L. apply ltb_true. Lqa.lra. }
  set (M1 := when (PyNum.ltb 0.7 (Feature.merchant_risk fv1)) 0.2).
  set (M2 := when (PyNum.ltb 0.7 (Feature.merchant_risk fv2)) 0.2).
  assert (HM : (M1 <= M2)%Q).
  { subst M1 M2. apply when_le; [discriminate | apply ltb_mono, Hm]. }
  clearbody A1 A2 V1 V2 I1 I2 G1 G2 M1 M2. cbv zeta.
  destruct (Qle_bool (A1 + V1 + I1 + G1 + M1) 1) eqn:T1;
    [apply Qle_bool_iff in T1 | apply Qle_bool_false in T1];
  (destruct (Qle_bool (A2 + V2 + I2 + G2 + M2) 1) eqn:T2;
    [apply Qle_bool_iff in T2 | apply Qle_bool_false in T2]);
  Lqa.lra.
Qed.

Definition quiet_vector : Feature.FeatureVector :=
  {| Feature.event_id := "6f1d2c3b-0a49-4e58-8f67-1b2a3c4d5e6f";
     Feature.entity_id := "acct-7";
     Feature.timestamp := "2025-10-21T21:10:12";
     Feature.amount := Some 120%Q;
     Feature.currency := Some "USD";
     Feature.channel := Some "web";
     Feature.velocity_1h := 3;
     Feature.velocity_24h := 4;
     Feature.velocity_7d := 9;
     Feature.ip_risk := 0.1;
     Feature.ip_geolocation := None;
     Feature.geo_distance_km := 0;
     Feature.merchant_risk := 0.05;
     Feature.merchant_category := None;
     Feature.age_days := 365;
     Feature.device_fingerprint := None;
     Feature.session_id := None;
     Feature.user_agent_hash := None;
     Feature.features_version := "v1";
     Feature.feature_metadata := None |}.

Definition busy_vector : Feature.FeatureVector :=
  {| Feature.event_id := "6f1d2c3b-0a49-4e58-8f67-1b2a3c4d5e6f";
     Feature.entity_id := "acct-7";
     Feature.timestamp := "2025-10-21T21:10:12";
     Feature.amount := Some 12000%Q;
     Feature.currency := Some "USD";
     Feature.channel := Some "web";
     Feature.velocity_1h := 11;
     Feature.velocity_24h := 14;
     Feature.velocity_7d := 19;
     Feature.ip_risk := 0.9;
     Feature.ip_geolocation := None;
     Feature.geo_distance_km := 1200;
     Feature.merchant_risk := 0.8;
     Feature.merchant_category := None;
     Feature.age_days := 365;
     Feature.device_fingerprint := None;
     Feature.session_id := None;
     Feature.user_agent_hash := None;
     Feature.features_version := "v1";
     Feature.feature_metadata := None |}.

Lemma compute_rule_score_monotone_witness :
  ((amount_or_zero quiet_vector <= amount_or_zero busy_vector)%Q
   /\ Feature.velocity_1h quiet_vector <= Feature.velocity_1h busy_vector
   /\ (Feature.ip_risk quiet_vector <= Feature.ip_risk busy_vector)%Q
   /\ (Feature.geo_distance_km quiet_vector <= Feature.geo_distance_km busy_vector)%Q
   /\ (Feature.merchant_risk quiet_vector <= Feature.merchant_risk busy_vector)%Q)
  /\ (Score.compute_rule_score quiet_vector <= Score.compute_rule_score busy_vector)%Q.
Proof.
  assert (H1 : (amount_or_zero quiet_vector <= amount_or_zero busy_vector)%Q)
    by (vm_compute; discriminate).
  assert (H2 : Feature.velocity_1h quiet_vector <= Feature.velocity_1h busy_vector)
    by (vm_compute; discriminate).
  assert (H3 : (Feature.ip_risk quiet_vector <= Feature.ip_risk busy_vector)%Q)
    by (vm_compute; discriminate).
  assert (H4 : (Feature.geo_distance_km quiet_vector
                <= Feature.geo_distance_km busy_vector)%Q)
    by (vm_compute; discriminate).
  assert (H5 : (Feature.merchant_risk quiet_vector
                <= Feature.merchant_risk busy_vector)%Q)
    by (vm_compute; discriminate).
  split; [split; [|split; [|split; [|split]]]; assumption|].
  exact (compute_rule_score_monotone quiet_vector busy_vector H1 H2 H3 H4 H5).
Defined.

(** The busy vector triggers every rule: 1.4 before the clamp, 1 after. *)
Example busy_vector_clamped :
  Qred (Score.compute_rule_score busy_vector) = 1%Q
  /\ Qred (Score.compute_rule_score quiet_vector) = 0%Q.
Proof. vm_compute. split; reflexivity. Qed.

(** ** score-svc: a score output always validates *)

Section ScoreFacts.

Variable xgb_model : option (list Q -> option Q).
Variable nn_model : option (list Q -> option Q).

Lemma between_unit (x : Q) : in_unit x -> Pydantic.between_Q 0 1 x = Some x.
Proof.
  intros [H0 H1]. unfold Pydantic.between_Q.
  apply Qle_bool_iff in H0, H1. now rewrite H0, H1.
Qed.

(** X18.  When the loaded models return probabilities, every score of
    [score_feature_vector] passes the validation of [ModelScores]: the
    function returns, with the model scores (0.1 for a model that is not
    loaded or that raised), the rules score, their weighted sum under the
    weights 0.5, 0.3 and 0.2, and its calibration, all five within 0 and 1
    and the calibrated score strictly inside. *)
Theorem score_feature_vector_validates (fv : Feature.FeatureVector) :
  (forall predict features p,
     xgb_model = Some predict -> predict features = Some p -> in_unit p) ->
  (forall forward features p,
     nn_model = Some forward -> forward features = Some p -> in_unit p) ->
  exists sc,
    ScoreSvc.score_feature_vector xgb_model nn_model fv = Some sc
    /\ ScoreSvc.xgb sc
       = ScoreSvc.compute_xgb_score xgb_model (ScoreSvc.extract_features fv)
    /\ ScoreSvc.nn sc
       = ScoreSvc.compute_nn_score nn_model (ScoreSvc.extract_features fv)
    /\ ScoreSvc.rules sc = Score.compute_rule_score fv
    /\ (ScoreSvc.ensemble sc
        == 0.5 * ScoreSvc.xgb sc + 0.3 * ScoreSvc.nn sc + 0.2 * ScoreSvc.rules sc)%Q
    /\ ScoreSvc.calibrated sc = Score.calibrate_score (Q2R (ScoreSvc.ensemble sc))
    /\ in_unit (ScoreSvc.xgb sc) /\ in_unit (ScoreSvc.nn sc)
    /\ in_unit (ScoreSvc.rules sc) /\ in_unit (ScoreSvc.ensemble sc)
    /\ (0 < ScoreSvc.calibrated sc < 1)%R.
Proof.
  intros Hx Hn.
  set (features := ScoreSvc.extract_features fv).
  assert (Ux : in_unit (ScoreSvc.compute_xgb_score xgb_model features)).
  { unfold ScoreSvc.compute_xgb_score.
    destruct xgb_model as [predict|] eqn:E; [|split; discriminate].
    destruct (predict features) as [p|] eqn:P; cbn; [|split; discriminate].
    exact (Hx predict features p eq_refl P). }
  assert (Un : in_unit (ScoreSvc.compute_nn_score nn_model features)).
  { unfold ScoreSvc.compute_nn_score.
    destruct nn_model as [forward|] eqn:E; [|split; discriminate].
    destruct (forward features) as [p|] eqn:P; cbn; [|split; discriminate].
    exact (Hn forward features p eq_refl P). }
  destruct (compute_rule_score_baseline fv) as [_ Ur].
  set (x := ScoreSvc.compute_xgb_score xgb_model features) in *.
  set (n := ScoreSvc.compute_nn_score nn_model features) in *.
  set (r := Score.compute_rule_score fv) in *.
  assert (Ee : (Score.compute_ensemble_score x n r == 0.5 * x + 0.3 * n + 0.2 * r)%Q)
    by reflexivity.
  assert (Ue : in_unit (Score.compute_ensemble_score x n r)).
  { destruct Ux, Un, Ur. split; rewrite Ee; Lqa.lra. }
  pose proof (calibrate_open_unit (Q2R (Score.compute_ensemble_score x n r))) as Uc.
  unfold ScoreSvc.score_feature_vector. cbv zeta.
  fold features. fold x. fold n. fold r.
  rewrite (between_unit x Ux), (between_unit n Un), (between_unit r Ur),
    (between_unit _ Ue).
  cbn [mbind option_bind].
  destruct (Rle_dec 0 _) as [|N]; [|exfalso; apply N; Lra.lra].
  destruct (Rle_dec _ 1) as [|N]; [|exfalso; apply N; Lra.lra].
  eexists. split; [reflexivity|].
  cbn [ScoreSvc.xgb ScoreSvc.nn ScoreSvc.rules ScoreSvc.ensemble ScoreSvc.calibrated].
  repeat split; try reflexivity; try assumption;
    first [ apply Ux | apply Un | apply Ur | apply Ue | apply Uc | exact Ee ].
Qed.

End ScoreFacts.

Lemma score_feature_vector_validates_witness :
  let xgb_model : option (list Q -> option Q) := Some (fun _ => Some 0.3%Q) in
  let nn_model : option (list Q -> option Q) := None in
  ((forall predict features p,
      xgb_model = Some predict -> predict features = Some p -> in_unit p)
   /\ (forall forward features p,
         nn_model = Some forward -> forward features = Some p -> in_unit p))
  /\ exists sc,
       ScoreSvc.score_feature_vector xgb_model nn_model busy_vector = Some sc
       /\ ScoreSvc.xgb sc
          = ScoreSvc.compute_xgb_score xgb_model (ScoreSvc.extract_features busy_vector)
       /\ ScoreSvc.nn sc
          = ScoreSvc.compute_nn_score nn_model (ScoreSvc.extract_features busy_vector)
       /\ ScoreSvc.rules sc = Score.compute_rule_score busy_vector
       /\ (ScoreSvc.ensemble sc
           == 0.5 * ScoreSvc.xgb sc + 0.3 * ScoreSvc.nn sc
              + 0.2 * ScoreSvc.rules sc)%Q
       /\ ScoreSvc.calibrated sc = Score.calibrate_score (Q2R (ScoreSvc.ensemble sc))
       /\ in_unit (ScoreSvc.xgb sc) /\ in_unit (ScoreSvc.nn sc)
       /\ in_unit (ScoreSvc.rules sc) /\ in_unit (ScoreSvc.ensemble sc)
       /\ (0 < ScoreSvc.calibrated sc < 1)%R.
Proof.
  intros xgb_model nn_model.
  assert (H1 : forall predict features p,
             xgb_model = Some predict -> predict features = Some p -> in_unit p).
  { intros predict features p [= <-] [= <-]. split; vm_compute; discriminate. }
  assert (H2 : forall forward features p,
             nn_model = Some forward -> forward features = Some p -> in_unit p)
    by discriminate.
  split; [split; assumption|].
  exact (score_feature_vector_validates xgb_model nn_model busy_vector H1 H2).
Defined.

(** ** score-svc: the stub models *)



(** Three contributions that are equal as decimals: 3/10.0 and 0.6*0.5
    are the same double, 0.75*0.4 is the next one, and the merchant risk
    comes first. *)
Example shap_like_rounded_tie :
  List.map fst
    (Explain.shap_like
       {| Models.amount := 0; Models.velocity_1h := 3;
          Models.ip_risk := F64.round 0.6; Models.geo_distance_km := 0;
          Models.merchant_risk := 0.75 |})
  = ["merchant_risk"; "velocity_1h"; "ip_risk"].
Proof. vm_compute. reflexivity. Qed.

(** X20.  The stub rules score only takes the values a sum of its three
    bonuses can take, so it never exceeds 0.9 and its clamp at 1 never
    applies; with the default weights the raw ensemble score of the stub
    is at most 0.99, and at least 0.115 when no feature is negative. *)
Theorem stub_scores_bounded (f : Models.feats) :
  (Models.rules_score f <= 0.9)%Q
  /\ (Models.raw Models.default_ensemble f <= 0.99)%Q
  /\ ((0 <= Models.ip_risk f)%Q -> 0 <= Models.velocity_1h f ->
      (0 <= Models.merchant_risk f)%Q -> (0 <= Models.geo_distance_km f)%Q ->
      (0.115 <= Models.raw Models.default_ensemble f)%Q).
Proof.
  assert (Hr : (0 <= Models.rules_score f <= 0.9)%Q).
  { unfold Models.rules_score, PyNum.min.
    destruct (8 <=? Models.velocity_1h f);
    destruct (Qle_bool 0.8 (Models.ip_risk f));
    destruct (Qle_bool 2000 (Models.amount f));
    vm_compute; intuition discriminate. }
  assert (Hx : (Models.xgb_predict_proba f <= 1)%Q).
  { unfold Models.xgb_predict_proba, PyNum.min.
    destruct (PyNum.ltb _ 1.0) eqn:E;
      [apply ltb_true in E | apply ltb_false in E]; Lqa.lra. }
  assert (Hn : (Models.nn_predict_proba f <= 1)%Q).
  { unfold Models.nn_predict_proba, PyNum.min.
    destruct (PyNum.ltb _ 1.0) eqn:E;
      [apply ltb_true in E | apply ltb_false in E]; Lqa.lra. }
  split; [apply Hr|]. split.
  - unfold Models.raw, Models.default_ensemble.
    cbn [Models.w_xgb Models.w_nn Models.w_rules]. destruct Hr. Lqa.lra.
  - intros Hi Hv Hm Hg.
    assert (Hv' : (0 <= inject_Z (Models.velocity_1h f))%Q).
    { change 0%Q with (inject_Z 0). rewrite <- Zle_Qle. exact Hv. }
    assert (Lx : (0.15 <= Models.xgb_predict_proba f)%Q).
    { unfold Models.xgb_predict_proba, PyNum.min.
      destruct (PyNum.ltb _ 1.0) eqn:E;
        [apply ltb_true in E | apply ltb_false in E]; Lqa.lra. }
    assert (Ln : (0.1 <= Models.nn_predict_proba f)%Q).
    { unfold Models.nn_predict_proba, PyNum.min.
      destruct (PyNum.ltb _ 1.0) eqn:E;
        [apply ltb_true in E | apply ltb_false in E]; Lqa.lra. }
    unfold Models.raw, Models.default_ensemble.
    cbn [Models.w_xgb Models.w_nn Models.w_rules]. destruct Hr. Lqa.lra.
Qed.

(** ** model-monitor-svc: the Brier score and its sentinel *)

Lemma sum_from_nonneg (l : list Q) (acc : Q) :
  Forall (fun t => (0 <= t)%Q) l -> (acc <= fold_left Qplus l acc)%Q.
Proof.
  intros H. revert acc. induction H as [|t l Ht Hl IH]; intros acc.
  - cbn. Lqa.lra.
  - cbn [fold_left]. eapply Qle_trans; [|apply IH]. Lqa.lra.
Qed.

Lemma squares_nonneg (y_true : list Z) (y_prob : list Q) :
  Forall (fun t => (0 <= t)%Q)
    (List.map (fun yp : Z * Q => ((snd yp - inject_Z (fst yp)) ^ 2)%Q)
       (combine y_true y_prob)).
Proof.
  apply List.Forall_forall. intros t Ht. apply in_map_iff in Ht.
  destruct Ht as ([y p] & <- & _). cbn [fst snd].
  set (d := (p - inject_Z y)%Q). simpl. Lqa.nra.
Qed.

Lemma squares_at_most_one (y_true : list Z) (y_prob : list Q) :
  Forall (fun y => y = 0 \/ y = 1) y_true ->
  Forall in_unit y_prob ->
  Forall (fun t => (t <= 1)%Q)
    (List.map (fun yp : Z * Q => ((snd yp - inject_Z (fst yp)) ^ 2)%Q)
       (combine y_true y_prob)).
Proof.
  intros Hy Hp. apply List.Forall_forall. intros t Ht. apply in_map_iff in Ht.
  destruct Ht as ([y p] & <- & Hin). cbn [fst snd].
  apply in_combine_l in Hin as Hiny. apply in_combine_r in Hin as Hinp.
  rewrite List.Forall_forall in Hy, Hp.
  destruct (Hp p Hinp) as [P0 P1].
  destruct (Hy y Hiny) as [-> | ->]; simpl.
  - change (inject_Z 0) with 0%Q. Lqa.nra.
  - change (inject_Z 1) with 1%Q. Lqa.nra.
Qed.

(** X21.  [brier_score] answers -1.0 exactly when it is given an empty
    list or lists of different lengths: on every other input the score is
    a mean of squares and so not negative, and for labels 0 and 1 against
    probabilities it is at most 1. *)
Theorem brier_score_sentinel (y_true : list Z) (y_prob : list Q) :
  let invalid := y_true = [] \/ y_prob = [] \/ length y_true <> length y_prob in
  ((Monitor.brier_score y_true y_prob == -1.0)%Q <-> invalid)
  /\ (~ invalid -> (0 <= Monitor.brier_score y_true y_prob)%Q)
  /\ (~ invalid ->
      Forall (fun y => y = 0 \/ y = 1) y_true -> Forall in_unit y_prob ->
      (Monitor.brier_score y_true y_prob <= 1)%Q).
Proof.
  intros invalid.
  assert (Hbad : invalid -> Monitor.brier_score y_true y_prob = (-1.0)%Q).
  { intros [-> | [-> | Hlen]].
    - reflexivity.
    - destruct y_true; reflexivity.
    - unfold Monitor.brier_score.
      destruct y_true as [|y ys]; [reflexivity|].
      destruct y_prob as [|p ps]; [reflexivity|].
      apply Nat.eqb_neq in Hlen. now rewrite Hlen. }
  assert (Hgood : ~ invalid ->
            exists errs,
              errs = List.map (fun yp : Z * Q => ((snd yp - inject_Z (fst yp)) ^ 2)%Q)
                       (combine y_true y_prob)
              /\ errs <> []
              /\ length errs = length y_true
              /\ Monitor.brier_score y_true y_prob
                 = (PyNum.sum errs / inject_Z (Z.of_nat (length errs)))%Q).
  { intros Hv. unfold invalid in Hv.
    destruct y_true as [|y ys]; [exfalso; apply Hv; auto|].
    destruct y_prob as [|p ps]; [exfalso; apply Hv; auto|].
    assert (Hlen : length (y :: ys) = length (p :: ps)).
    { destruct (Nat.eq_dec (length (y :: ys)) (length (p :: ps))) as [E|N];
        [exact E | exfalso; apply Hv; auto]. }
    eexists. split; [reflexivity|].
    assert (Hn : length (List.map
                   (fun yp : Z * Q => ((snd yp - inject_Z (fst yp)) ^ 2)%Q)
                   (combine (y :: ys) (p :: ps))) = length (y :: ys)).
    { rewrite length_map, length_combine, <- Hlen. apply Nat.min_id. }
    split; [discriminate|]. split; [exact Hn|].
    unfold Monitor.brier_score. rewrite Hn.
    apply Nat.eqb_eq in Hlen. rewrite Hlen. reflexivity. }
  assert (Hpos : forall errs : list Q, errs <> [] ->
            (0 < inject_Z (Z.of_nat (length errs)))%Q).
  { intros errs Hne. destruct errs; [congruence|].
    change 0%Q with (inject_Z 0). rewrite <- Zlt_Qlt. cbn [length]. lia. }
  assert (Hnonneg : ~ invalid -> (0 <= Monitor.brier_score y_true y_prob)%Q).
  { intros Hv. destruct (Hgood Hv) as (errs & He & Hne & _ & ->).
    apply Qle_shift_div_l; [apply Hpos, Hne|].
    unfold PyNum.sum. rewrite Qmult_0_l.
    apply sum_from_nonneg. subst errs. apply squares_nonneg. }
  split; [split|split].
  - intros Heq.
    destruct y_true as [|y ys]; [left; reflexivity|].
    destruct y_prob as [|p ps]; [right; left; reflexivity|].
    right. right. intros Hlen.
    assert (Hv : ~ (y :: ys = [] \/ p :: ps = []
                    \/ length (y :: ys) <> length (p :: ps)))
      by (intros [H | [H | H]]; [discriminate H | discriminate H | exact (H Hlen)]).
    specialize (Hnonneg Hv). rewrite Heq in Hnonneg.
    revert Hnonneg. vm_compute. intros H. apply H. reflexivity.
  - intros Hi. rewrite (Hbad Hi). reflexivity.
  - exact Hnonneg.
  - intros Hv Hy Hp. destruct (Hgood Hv) as (errs & He & Hne & _ & ->).
    apply mean_bounded; [exact Hne|].
    subst errs. apply squares_at_most_one; assumption.
Qed.

(** ** model-monitor-svc: the ring buffers stay bounded *)

Lemma deque_append_length {A} (maxlen : nat) (dq : list A) (x : A) :
  (length dq <= maxlen)%nat ->
  length (Store.deque_append maxlen dq x) = Nat.min (length dq + 1) maxlen.
Proof.
  intros H. unfold Store.deque_append.
  destruct (maxlen =? 0)%nat eqn:E0.
  - apply Nat.eqb_eq in E0. cbn [length]. lia.
  - apply Nat.eqb_neq in E0.
    destruct (length dq <? maxlen)%nat eqn:E.
    + apply Nat.ltb_lt in E. rewrite length_app. cbn [length]. lia.
    + apply Nat.ltb_ge in E. rewrite length_app.
      destruct dq as [|a dq]; cbn [length tl] in *; lia.
Qed.

Lemma deque_append_last {A} (maxlen : nat) (dq : list A) (x : A) :
  maxlen <> 0%nat -> last (Store.deque_append maxlen dq x) = Some x.
Proof.
  intros H. unfold Store.deque_append.
  apply Nat.eqb_neq in H. rewrite H.
  destruct (length dq <? maxlen)%nat; apply last_snoc.
Qed.

(** Every buffer holds at most [maxlen] values. *)
Definition bounded (b : Store.buffers) : Prop :=
  (length (Store.SCORES b) <= Store.maxlen)%nat
  /\ forall name dq, Store.FEATURES b !! name = Some dq ->
                     (length dq <= Store.maxlen)%nat.

Lemma push_feature_bounded (name : string) (value : Q)
    (features : gmap string (list Q)) :
  (forall k dq, features !! k = Some dq -> (length dq <= Store.maxlen)%nat) ->
  forall k dq, Store.push_feature name value features !! k = Some dq ->
               (length dq <= Store.maxlen)%nat.
Proof.
  intros H k dq. unfold Store.push_feature.
  destruct (decide (k = name)) as [->|Hne].
  - rewrite lookup_insert_eq. intros [= <-].
    rewrite deque_append_length; [lia|].
    destruct (features !! name) as [old|] eqn:E; cbn; [exact (H _ _ E) | lia].
  - rewrite lookup_insert_ne by congruence. apply H.
Qed.

Section IngestFacts.

Variable py_float : string -> option Q.

Lemma push_tracked_bounded (names : list string)
    (feats : list (string * Json.value)) (features : gmap string (list Q)) :
  (forall k dq, features !! k = Some dq -> (length dq <= Store.maxlen)%nat) ->
  forall k dq, (Store.push_tracked py_float names feats features).1 !! k = Some dq ->
               (length dq <= Store.maxlen)%nat.
Proof.
  revert features. induction names as [|n names IH]; intros features H.
  - exact H.
  - cbn [Store.push_tracked].
    destruct (Json.assoc n feats) as [v|]; [|apply IH, H].
    destruct (Store.float_of py_float v) as [x|]; [|exact H].
    apply IH. apply push_feature_bounded, H.
Qed.

(** X23.  The buffers of the monitor are ring buffers: when every buffer
    holds at most 10000 values before [ingest_score], so it does
    afterwards, whether the call answers or raises.  When it answers, "n"
    is the number of buffered scores, one more than before but never more
    than 10000, and the newest buffered score is the one just sent (0 when
    the payload has no "calibrated" entry). *)
Theorem ingest_score_bounded (p : Store.payload) (b : Store.buffers) :
  bounded b ->
  let r := Store.ingest_score py_float p b in
  bounded r.1
  /\ forall n, r.2 = Some n ->
       n = length (Store.SCORES r.1)
       /\ n = Nat.min (length (Store.SCORES b) + 1) Store.maxlen
       /\ exists s,
            last (Store.SCORES r.1) = Some s
            /\ match Store.calibrated p with
               | None => s = 0.0%Q
               | Some v => Store.float_of py_float v = Some s
               end.
Proof.
  intros [Hs Hf] r. subst r. unfold Store.ingest_score.
  set (sent := match Store.calibrated p with
               | None => Some 0.0%Q
               | Some v => Store.float_of py_float v
               end).
  assert (Hsent : forall s, sent = Some s ->
            match Store.calibrated p with
            | None => s = 0.0%Q
            | Some v => Store.float_of py_float v = Some s
            end).
  { subst sent. destruct (Store.calibrated p); [auto | now intros s [= <-]]. }
  destruct sent as [s|]; [|split; [split; assumption | discriminate]].
  pose proof (push_tracked_bounded Store.tracked (default [] (Store.features p))
                (Store.FEATURES b) Hf) as Hf'.
  destruct (Store.push_tracked py_float Store.tracked _ _) as [fb pushed].
  cbn [fst snd] in *.
  pose proof (deque_append_length Store.maxlen (Store.SCORES b) s Hs) as Hlen.
  split.
  - split; cbn [Store.SCORES Store.FEATURES]; [rewrite Hlen; lia | exact Hf'].
  - intros n Hn. destruct pushed; [|discriminate Hn]. injection Hn as <-.
    cbn [Store.SCORES]. split; [reflexivity|]. split; [exact Hlen|].
    exists s. split; [|apply Hsent; reflexivity].
    apply deque_append_last. unfold Store.maxlen. lia.
Qed.

End IngestFacts.

Lemma ingest_score_bounded_witness :
  let b := {| Store.SCORES := [0.2%Q; 0.4%Q]; Store.FEATURES := ∅ |} in
  let p := {| Store.calibrated := Some (Json.Int 1);
              Store.features := Some [("ip_risk", Json.Int 0)] |} in
  let r := Store.ingest_score (fun _ => None) p b in
  bounded b
  /\ (bounded r.1
      /\ forall n, r.2 = Some n ->
           n = length (Store.SCORES r.1)
           /\ n = Nat.min (length (Store.SCORES b) + 1) Store.maxlen
           /\ exists s,
                last (Store.SCORES r.1) = Some s
                /\ match Store.calibrated p with
                   | None => s = 0.0%Q
                   | Some v => Store.float_of (fun _ => None) v = Some s
                   end).
Proof.
  intros b p r.
  assert (H : bounded b).
  { split; [cbn; unfold Store.maxlen; lia|].
    intros name dq E. unfold b in E. cbn [Store.FEATURES] in E.
    rewrite lookup_empty in E. discriminate E. }
  split; [exact H|].
  exact (ingest_score_bounded (fun _ => None) p b H).
Defined.

(** ** model-monitor-svc: the latency percentiles *)

Lemma insert_sorted_perm (x : Q) (l : list Q) :
  Latency.insert_sorted x l ≡ₚ x :: l.
Proof.
  induction l as [|y t IH]; [reflexivity|].
  cbn [Latency.insert_sorted]. destruct (PyNum.ltb y x); [|reflexivity].
  rewrite IH. apply Permutation_swap.
Qed.

Lemma sorted_perm (xs : list Q) : Latency.sorted xs ≡ₚ xs.
Proof.
  induction xs as [|x xs IH]; [reflexivity|].
  unfold Latency.sorted in *. cbn [fold_right].
  rewrite insert_sorted_perm. now rewrite IH.
Qed.

(** Each element is at most the ones behind it. *)
Fixpoint ascending (l : list Q) : Prop :=
  match l with
  | [] => True
  | x :: t => List.Forall (Qle x) t /\ ascending t
  end.

Lemma insert_sorted_ascending (x : Q) (l : list Q) :
  ascending l -> ascending (Latency.insert_sorted x l).
Proof.
  induction l as [|y t IH]; intros H.
  - cbn. split; [constructor | exact I].
  - cbn [Latency.insert_sorted]. destruct H as [Hy Ht].
    destruct (PyNum.ltb y x) eqn:L.
    + apply ltb_true in L. split; [|apply IH, Ht].
      rewrite insert_sorted_perm. constructor; [apply Qlt_le_weak, L | exact Hy].
    + apply ltb_false in L. split; [|split; assumption].
      constructor; [exact L|].
      eapply List.Forall_impl; [|exact Hy].
      intros z Hz. eapply Qle_trans; eassumption.
Qed.

Lemma sorted_ascending (xs : list Q) : ascending (Latency.sorted xs).
Proof.
  induction xs as [|x xs IH]; [exact I|].
  unfold Latency.sorted in *. cbn [fold_right].
  apply insert_sorted_ascending, IH.
Qed.

Lemma ascending_lookup (l : list Q) (i j : nat) (a b : Q) :
  ascending l -> (i <= j)%nat -> l !! i = Some a -> l !! j = Some b -> (a <= b)%Q.
Proof.
  revert i j. induction l as [|x t IH]; intros i j H Hij Ha Hb.
  - discriminate Ha.
  - destruct H as [Hx Ht]. destruct i as [|i].
    + cbn in Ha. injection Ha as <-.
      destruct j as [|j]; cbn in Hb.
      * injection Hb as <-. apply Qle_refl.
      * rewrite List.Forall_forall in Hx. apply Hx.
        eapply list_elem_of_In, list_elem_of_lookup_2, Hb.
    + destruct j as [|j]; [lia|]. cbn in Ha, Hb.
      apply (IH i j); [exact Ht | lia | exact Ha | exact Hb].
Qed.

Lemma rank_lt (n : nat) (q : Q) :
  (0 < n)%nat -> (q < 1)%Q -> (Latency.rank n q < n)%nat.
Proof.
  intros Hn Hq. unfold Latency.rank.
  assert (Hpos : (0 < inject_Z (Z.of_nat n))%Q).
  { change 0%Q with (inject_Z 0). rewrite <- Zlt_Qlt. lia. }
  assert (H : (Qfloor (inject_Z (Z.of_nat n) * q) < Z.of_nat n)%Z).
  { apply Z.lt_nge. intros C. rewrite Zle_Qle in C.
    pose proof (Qfloor_le (inject_Z (Z.of_nat n) * q)) as F.
    assert (inject_Z (Z.of_nat n) * q < inject_Z (Z.of_nat n))%Q by Lqa.nra.
    Lqa.lra. }
  lia.
Qed.

Lemma rank_mono (n : nat) (q q' : Q) :
  (q <= q')%Q -> (Latency.rank n q <= Latency.rank n q')%nat.
Proof.
  intros H. unfold Latency.rank.
  assert (F : (Qfloor (inject_Z (Z.of_nat n) * q)
               <= Qfloor (inject_Z (Z.of_nat n) * q'))%Z).
  { apply Qfloor_resp_le.
    assert (0 <= inject_Z (Z.of_nat n))%Q.
    { change 0%Q with (inject_Z 0). rewrite <- Zle_Qle. lia. }
    Lqa.nra. }
  lia.
Qed.

Lemma fold_min_le (rest : list Q) (m : Q) :
  let r := fold_left (fun m y => if PyNum.ltb y m then y else m) rest m in
  (r <= m)%Q /\ List.Forall (Qle r) rest.
Proof.
  revert m. induction rest as [|y rest IH]; intros m; cbn.
  - split; [apply Qle_refl | constructor].
  - destruct (IH (if PyNum.ltb y m then y else m)) as [H1 H2]. cbn in H1, H2.
    destruct (PyNum.ltb y m) eqn:L.
    + apply ltb_true in L. split; [Lqa.lra|]. constructor; assumption.
    + apply ltb_false in L. split; [exact H1|].
      constructor; [Lqa.lra | exact H2].
Qed.

Lemma fold_max_ge (rest : list Q) (m : Q) :
  let r := fold_left (fun m y => if PyNum.ltb m y then y else m) rest m in
  (m <= r)%Q /\ List.Forall (fun y => (y <= r)%Q) rest.
Proof.
  revert m. induction rest as [|y rest IH]; intros m; cbn.
  - split; [apply Qle_refl | constructor].
  - destruct (IH (if PyNum.ltb m y then y else m)) as [H1 H2]. cbn in H1, H2.
    destruct (PyNum.ltb m y) eqn:L.
    + apply ltb_true in L. split; [Lqa.lra|]. constructor; assumption.
    + apply ltb_false in L. split; [exact H1|].
      constructor; [Lqa.lra | exact H2].
Qed.

Lemma list_min_le (xs : list Q) (x : Q) :
  x ∈ xs -> (Monitor.list_min xs <= x)%Q.
Proof.
  destruct xs as [|y rest]; intros H; [inversion H|].
  destruct (fold_min_le rest y) as [H1 H2]. cbn in H1, H2.
  unfold Monitor.list_min. apply elem_of_cons in H. destruct H as [->|H]; [exact H1|].
  rewrite List.Forall_forall in H2. apply H2, list_elem_of_In, H.
Qed.

Lemma list_max_ge (xs : list Q) (x : Q) :
  x ∈ xs -> (x <= Monitor.list_max xs)%Q.
Proof.
  destruct xs as [|y rest]; intros H; [inversion H|].
  destruct (fold_max_ge rest y) as [H1 H2]. cbn in H1, H2.
  unfold Monitor.list_max. apply elem_of_cons in H. destruct H as [->|H]; [exact H1|].
  rewrite List.Forall_forall in H2. apply H2, list_elem_of_In, H.
Qed.

(** X24.  On at least one latency the summary never fails on an index: the
    three percentiles are latencies that were read, the median is at most
    the 95th percentile, that one at most the 99th, all three lie between
    the reported minimum and maximum, and the sample count is the number
    of latencies. *)
Theorem latency_percentiles_ordered (latencies : list Q) :
  latencies <> [] ->
  exists m,
    Latency.summarize latencies = Some m
    /\ Latency.p50_ms m ∈ latencies
    /\ Latency.p95_ms m ∈ latencies
    /\ Latency.p99_ms m ∈ latencies
    /\ (Latency.min_ms m <= Latency.p50_ms m)%Q
    /\ (Latency.p50_ms m <= Latency.p95_ms m)%Q
    /\ (Latency.p95_ms m <= Latency.p99_ms m)%Q
    /\ (Latency.p99_ms m <= Latency.max_ms m)%Q
    /\ Latency.sample_count m = length latencies.
Proof.
  intros Hne.
  pose proof (sorted_perm latencies) as HP.
  pose proof (sorted_ascending latencies) as HA.
  assert (Hlen : length (Latency.sorted latencies) = length latencies)
    by (now rewrite HP).
  assert (Hn : (0 < length latencies)%nat)
    by (destruct latencies; [congruence | cbn; lia]).
  assert (Hget : forall q, (q < 1)%Q ->
            exists v, Latency.sorted latencies
                        !! Latency.rank (length (Latency.sorted latencies)) q
                      = Some v).
  { intros q Hq. apply lookup_lt_is_Some_2. rewrite Hlen at 2.
    rewrite Hlen. apply rank_lt; assumption. }
  destruct (Hget 0.5%Q) as [p50 E50]; [reflexivity|].
  destruct (Hget 0.95%Q) as [p95 E95]; [reflexivity|].
  destruct (Hget 0.99%Q) as [p99 E99]; [reflexivity|].
  assert (Hin : forall i v, Latency.sorted latencies !! i = Some v -> v ∈ latencies).
  { intros i v E. rewrite <- HP. eapply list_elem_of_lookup_2, E. }
  eexists. split.
  - unfold Latency.summarize. destruct latencies as [|l0 ls]; [congruence|].
    cbv zeta. rewrite E50. cbn [mbind option_bind].
    rewrite E95. cbn [mbind option_bind].
    rewrite E99. cbn [mbind option_bind]. reflexivity.
  - cbn [Latency.p50_ms Latency.p95_ms Latency.p99_ms Latency.min_ms
         Latency.max_ms Latency.sample_count].
    repeat split.
    + eapply Hin, E50.
    + eapply Hin, E95.
    + eapply Hin, E99.
    + eapply list_min_le, Hin, E50.
    + eapply (ascending_lookup _ _ _ _ _ HA); [|exact E50|exact E95].
      apply rank_mono. discriminate.
    + eapply (ascending_lookup _ _ _ _ _ HA); [|exact E95|exact E99].
      apply rank_mono. discriminate.
    + eapply list_max_ge, Hin, E99.
Qed.

Definition sample_latencies : list Q := List.map inject_Z [12; 7; 30; 9]%Z.

Lemma latency_percentiles_ordered_witness :
  sample_latencies <> []
  /\ exists m,
       Latency.summarize sample_latencies = Some m
       /\ Latency.p50_ms m ∈ sample_latencies
       /\ Latency.p95_ms m ∈ sample_latencies
       /\ Latency.p99_ms m ∈ sample_latencies
       /\ (Latency.min_ms m <= Latency.p50_ms m)%Q
       /\ (Latency.p50_ms m <= Latency.p95_ms m)%Q
       /\ (Latency.p95_ms m <= Latency.p99_ms m)%Q
       /\ (Latency.p99_ms m <= Latency.max_ms m)%Q
       /\ Latency.sample_count m = length sample_latencies.
Proof.
  assert (H : sample_latencies <> []) by discriminate.
  split; [exact H|].
  exact (latency_percentiles_ordered sample_latencies H).
Defined.

(** Four latencies: the median is the third smallest, and the 95th and
    99th percentiles are the largest. *)
Example four_latencies :
  Latency.summarize sample_latencies
  = Some {| Latency.p50_ms := inject_Z 12; Latency.p95_ms := inject_Z 30;
            Latency.p99_ms := inject_Z 30;
            Latency.mean_ms := PyNum.sum sample_latencies / inject_Z 4;
            Latency.max_ms := inject_Z 30; Latency.min_ms := inject_Z 7;
            Latency.sample_count := 4 |}.
Proof. reflexivity. Qed.

(** ** decision-svc: when the baseline [decide] raises *)

